(** * alfred: a no-nonsense SQLite server -- the protocol engine

    A shallow embedding of the protocol code of alfred, [main.c] in its
    complete revision (the one that opens with the description of the
    protocol): [transmit], [callback], [SEND_PROMPT] and the event loop of
    [main].  The other revision of [main.c] is an earlier draft of the same
    file, in which [transmit] and [callback] are stubs.

    Conventions of the model.
    - A [char] is an [ascii]; raw memory and C strings are [list ascii].  A
      C string stored in memory is the run of characters before the first NUL
      ([c_str]).
    - [uint32_t req] is a [Z] with its wrap-around written out ([wrap32]).
    - [int sz] and [int offload_buffer_sz] are kept in [Z]; the model follows
      the C code as long as an unterminated request stays below [INT_MAX]
      characters (beyond that the C addition is undefined).  The properties
      that are about the size of a request or of the frame buffer carry
      this bound as a hypothesis.  [int port] is in the range of [int]:
      [atoi] is modelled as glibc has it, [(int) strtol(...)].
    - [xrealloc] never fails in the model: on exhaustion the program prints
      a diagnostic and exits, which ends every trace.
    - The Makefile builds with [-DNDEBUG] unless [DEBUG=1] is given, so the
      [assert]s are no-ops.
    - The effects of the program are recorded as a list of [event]s, in
      program order: calls of [write(2)] with their result, lines printed on
      standard output (under [-v]), calls of [sqlite3_exec],
      [sqlite3_free] and [close(2)].  A signal ([quit] on SIGTERM or SIGINT,
      or the default action of any other) ends the process, and with it the
      trace, at some point; the traces of the event loop ([alfred]) are
      those of a process that is left to run.  One signal comes from the
      program's own doing: SIGPIPE, raised by a [write] to a client that
      has gone and left at its default action.  [alfred_SIGPIPE] is the
      run that ends there.
    - SQLite and the kernel are external: [sqlite3_exec] is a variable of
      the development, as are the results of [write(2)] and the characters
      that [read(2)] delivers.  The event loop takes the outcome of
      start-up ([verbose], [prompt], the open database) as given.
    - The rest of [main.c] is modelled on top of the event loop, in the
      part on the process: the command line, the database argument and the
      set-up of the listening socket ([start]), the calls around [accept]
      ([accept_loop]) and [quit], for a signal that arrives where the
      server blocks, in [accept] or in [read]. *)

From Stdlib Require Import String.
From Stdlib Require Import ZArith List Ascii Bool Lia.
Import ListNotations.
Local Open Scope Z_scope.

(** ** Characters, memory and the C library *)

Definition bytes := list ascii.

Definition NUL : ascii := "000"%char.
Definition LF : ascii := "010"%char.

(** A string literal of the C source, without its terminating NUL. *)
Definition str (s : String.string) : bytes := String.list_ascii_of_string s.
Arguments str s%_string.

(** The C string that starts at the beginning of [mem]: everything before
    the first NUL. *)
Fixpoint c_str (mem : bytes) : bytes :=
  match mem with
  | [] => []
  | c :: rest => if Ascii.eqb c NUL then [] else c :: c_str rest
  end.

Definition strlen (mem : bytes) : Z := Z.of_nat (length (c_str mem)).

(** [strncpy(dst, src, n)] writes exactly [n] characters: the characters of
    [src] up to its first NUL, and NULs from there on. *)
Fixpoint strncpy (src : bytes) (n : nat) {struct n} : bytes :=
  match n with
  | O => []
  | S k =>
      match src with
      | [] => repeat NUL n
      | c :: rest => if Ascii.eqb c NUL then repeat NUL n else c :: strncpy rest k
      end
  end.

(** [realloc(ptr, size)]: the block keeps its first [size] characters; the
    characters it gains are indeterminate, [junk] stands for them.  [NULL]
    is the empty block. *)
Definition xrealloc (junk : ascii) (ptr : bytes) (size : Z) : bytes :=
  firstn (Z.to_nat size) ptr ++ repeat junk (Z.to_nat size - length ptr).

(** Storing [data] into a block from offset [off] on. *)
Definition store (block : bytes) (off : Z) (data : bytes) : bytes :=
  firstn (Z.to_nat off) block ++ data
    ++ skipn (Z.to_nat off + length data) block.

(** [block[i]]; NUL stands for a character outside the block. *)
Definition load (block : bytes) (i : Z) : ascii :=
  if i <? 0 then NUL else nth (Z.to_nat i) block NUL.

(** *** Decimal conversions of [printf] *)

Definition digit (d : Z) : ascii := ascii_of_nat (48 + Z.to_nat d).

(** The decimal digits of [n], least significant first.  [fuel] bounds the
    number of digits; [fmt_u] passes the number of binary digits. *)
Fixpoint digits_lsd (fuel : nat) (n : Z) : bytes :=
  match fuel with
  | O => []
  | S f =>
      digit (n mod 10) :: (if n / 10 =? 0 then [] else digits_lsd f (n / 10))
  end.

(** [%u] (also [%lu]) of a nonnegative number. *)
Definition fmt_u (n : Z) : bytes :=
  rev (digits_lsd (S (Z.to_nat (Z.log2 n))) n).

(** [%d]. *)
Definition fmt_d (z : Z) : bytes :=
  if z <? 0 then "-"%char :: fmt_u (- z) else fmt_u z.

(** ** The protocol *)

(** [enum response]. *)
Inductive response : Type :=
| OK    (* Query executed successfully. *)
| ERR   (* Query failed.                *)
| DATA. (* Query result being returned. *)

Definition response_value (code : response) : Z :=
  match code with
  | OK => 0
  | ERR => -1
  | DATA => 1
  end.

Definition BUFFER_SIZE : Z := 128.
Definition SQLITE_OK : Z := 0.
Definition UINT32_MODULUS : Z := 2 ^ 32.

(** The range of [int], and of [long] where the program runs (LP64). *)
Definition INT_MAX : Z := 2 ^ 31 - 1.
Definition INT_MIN : Z := - 2 ^ 31.
Definition LONG_MAX : Z := 2 ^ 63 - 1.
Definition LONG_MIN : Z := - 2 ^ 63.

(** Arithmetic of [uint32_t]. *)
Definition wrap32 (z : Z) : Z := z mod UINT32_MODULUS.

(** What the program does to the outside world. *)
Inductive event : Type :=
| EvWrite (fd : Z) (buf : bytes) (ret : Z)
    (* write(fd, buf, length buf) returned ret *)
| EvPrint (text : bytes)
    (* printf(...) on standard output *)
| EvExec (sql : bytes) (arg : Z)
    (* sqlite3_exec(db, sql, &callback, arg, &err) was called *)
| EvFree (text : bytes)
    (* sqlite3_free(text) *)
| EvClose (fd : Z).
    (* close(fd) *)

(** One result row as SQLite hands it to the callback: the pairs
    [(column[i], argv[i])] for [i < argc]; [argv[i]] may be [NULL]. *)
Definition row := list (bytes * option bytes).

(** What one call of [sqlite3_exec] does, apart from calling the callback:
    the rows it delivers (in order), its return code, the message it stores
    in [err] when the code is not [SQLITE_OK] (the program takes it to be a
    string, never [NULL]), and the database it leaves. *)
Record exec_result (DB : Type) : Type := mk_exec_result {
  delivered : list row;
  rc : Z;
  errmsg : bytes;
  next_db : DB
}.
Arguments mk_exec_result {DB} _ _ _ _.
Arguments delivered {DB} _.
Arguments rc {DB} _.
Arguments errmsg {DB} _.
Arguments next_db {DB} _.

(** The variables of [main.c] that the event loop reads and writes, the
    database behind [db], and the number of [write(2)] calls made so far
    (the environment answers each call in turn). *)
Record state (DB : Type) : Type := mk_state {
  req : Z;                 (* uint32_t req: request sequence number *)
  offload_buffer : bytes;  (* the block offload_buffer points to *)
  offload_buffer_sz : Z;
  read_sockfd : Z;
  db : DB;
  nwrites : nat
}.
Arguments mk_state {DB} _ _ _ _ _ _.
Arguments req {DB} _.
Arguments offload_buffer {DB} _.
Arguments offload_buffer_sz {DB} _.
Arguments read_sockfd {DB} _.
Arguments db {DB} _.
Arguments nwrites {DB} _.

(** The result of one [read(read_sockfd, buffer, BUFFER_SIZE)]: either the
    characters it stored into [buffer] (their number is the return value; no
    character means end of file), or -1. *)
Inductive read_result : Type :=
| ReadBytes (chunk : bytes)
| ReadError.

Definition read_sz (r : read_result) : Z :=
  match r with
  | ReadBytes chunk => Z.of_nat (length chunk)
  | ReadError => -1
  end.

Definition read_buffer (r : read_result) : bytes :=
  match r with
  | ReadBytes chunk => chunk
  | ReadError => []
  end.

(** One accepted connection: the descriptor [accept] returned and the
    results of the successive reads on it.  After the last one the peer has
    closed and [read] returns 0. *)
Record connection : Type := mk_connection {
  conn_fd : Z;
  conn_reads : list read_result
}.

(** ** The program *)

Section Alfred.

(** The database type and SQLite's [sqlite3_exec] on it. *)
Variable DB : Type.
Variable sqlite3_exec : DB -> bytes -> exec_result DB.

(** What [write(fd, buf, length buf)] returns when it is the [k]-th call of
    [write] of the run, if it returns.  (A [write] that raises SIGPIPE
    ends the process instead: [until_SIGPIPE] below cuts the run there.) *)
Variable sock_write : nat -> Z -> bytes -> Z.

(** [static int verbose] and [static int prompt], fixed by the command line
    ([-v], [-n]) before the event loop starts. *)
Variable verbose : bool.
Variable prompt : bool.

(** The content of freshly allocated memory. *)
Variable junk : ascii.

Definition with_buffer (st : state DB) (block : bytes) (n : Z) : state DB :=
  mk_state (req st) block n (read_sockfd st) (db st) (nwrites st).

Definition with_req (st : state DB) (r : Z) : state DB :=
  mk_state r (offload_buffer st) (offload_buffer_sz st) (read_sockfd st)
    (db st) (nwrites st).

Definition with_sockfd (st : state DB) (fd : Z) : state DB :=
  mk_state (req st) (offload_buffer st) (offload_buffer_sz st) fd (db st)
    (nwrites st).

Definition with_db (st : state DB) (d : DB) : state DB :=
  mk_state (req st) (offload_buffer st) (offload_buffer_sz st)
    (read_sockfd st) d (nwrites st).

Definition one_more_write (st : state DB) : state DB :=
  mk_state (req st) (offload_buffer st) (offload_buffer_sz st)
    (read_sockfd st) (db st) (S (nwrites st)).

(** [dprintf(...)]: print to stdout if verbosity is enabled. *)
Definition dprintf (text : bytes) : list event :=
  if verbose then [EvPrint text] else [].

(** [SEND_PROMPT]: the result of the write is ignored. *)
Definition SEND_PROMPT (st : state DB) : list event * state DB :=
  if prompt then
    let buf := firstn 2 (str "> ") in
    ([EvWrite (read_sockfd st) buf
        (sock_write (nwrites st) (read_sockfd st) buf)],
     one_more_write st)
  else ([], st).

(** The size [transmit] asks [xrealloc] for. *)
Definition transmit_size (data : bytes) : Z :=
  10 (* characters to store uint32_t. *)
  + strlen (str ": ")
  + 2 (* characters to store enum response. *)
  + strlen (str ": ")
  + strlen data
  + 2 (* \n\0 *).

(** What [sprintf(msg, "%u: %d: %s\n", req, code, data)] stores, the
    terminating NUL included. *)
Definition transmit_sprintf (req : Z) (code : response) (data : bytes)
  : bytes :=
  fmt_u req ++ str ": " ++ fmt_d (response_value code) ++ str ": "
    ++ c_str data ++ [LF] ++ [NUL].

(** [transmit(req, code, data)]: send data to the client.  Returns the
    result of [write]. *)
Definition transmit (req : Z) (code : response) (data : bytes)
    (st : state DB) : Z * list event * state DB :=
  let msg := xrealloc junk [] (transmit_size data) in
  let msg := store msg 0 (transmit_sprintf req code data) in
  let buf := firstn (Z.to_nat (strlen msg)) msg in
  let n := sock_write (nwrites st) (read_sockfd st) buf in
  (n,
   EvWrite (read_sockfd st) buf n
     :: (if n <? 0 then dprintf (str "Error writing to socket." ++ [LF])
         else []),
   one_more_write st).

(** The [for] loop of [callback] from column [i] on; [data] is the block
    the previous iterations left. *)
Fixpoint callback_loop (arg : Z) (cells : row) (data : bytes)
    (st : state DB) : list event * state DB :=
  match cells with
  | [] => ([], st)
  | (column_i, argv_i) :: rest =>
      let data :=
        xrealloc junk data
          (strlen column_i
           + strlen (str " = ")
           + match argv_i with
             | Some v => strlen v
             | None => strlen (str "NULL")
             end
           + 1 (* \0 *)) in
      let data :=
        store data 0
          (c_str column_i ++ str " = "
             ++ c_str match argv_i with
                      | Some v => v
                      | None => str "NULL"
                      end
             ++ [NUL]) in
      let '(_, ev, st1) := transmit (wrap32 arg) DATA data st in
      let '(evs, st2) := callback_loop arg rest data st1 in
      (ev ++ evs, st2)
  end.

(** [callback(req, argc, argv, column)]: invoked when a query returns
    data.  It always returns 0. *)
Definition callback (arg : Z) (r : row) (st : state DB)
  : Z * list event * state DB :=
  let '(evs, st') := callback_loop arg r [] st in
  (0, evs, st').

(** SQLite calling [callback] on each delivered row.  A nonzero result
    would abort the query; [callback] has none. *)
Fixpoint deliver (arg : Z) (rows : list row) (st : state DB)
  : list event * state DB :=
  match rows with
  | [] => ([], st)
  | r :: rest =>
      let '(_, ev, st1) := callback arg r st in
      let '(evs, st2) := deliver arg rest st1 in
      (ev ++ evs, st2)
  end.

(** [sqlite3_exec(db, sql, &callback, arg, &err)] as the program sees it. *)
Definition exec (sql : bytes) (arg : Z) (st : state DB)
  : exec_result DB * list event * state DB :=
  let r := sqlite3_exec (db st) sql in
  let '(evs, st1) := deliver arg (delivered r) st in
  (r, EvExec sql arg :: evs, with_db st1 (next_db r)).

(** The part of the loop body that follows the test for the newline: the
    buffer is terminated, the query is executed and answered. *)
Definition dispatch (block : bytes) (n : Z) (st : state DB)
  : list event * state DB :=
  (* Terminate the buffer. *)
  let block := xrealloc junk block (n + 1) in
  let block := store block n [NUL] in
  let st := with_buffer st block n in
  let e0 :=
    dprintf (str "Received " ++ fmt_d n ++ str " character(s): "
               ++ c_str block) in
  let st := with_req st (wrap32 (req st + 1)) in  (* ++req *)
  let '(r, e1, st) := exec (c_str block) (req st) st in
  let '(e2, st) :=
    if negb (rc r =? SQLITE_OK) then
      let e := dprintf (str "Failed to execute query " ++ fmt_u (req st)
                          ++ str ": " ++ c_str (errmsg r) ++ [LF]) in
      let '(_, ev, st) := transmit (req st) ERR (errmsg r) st in
      (e ++ ev ++ [EvFree (errmsg r)], st)
    else
      let '(_, ev, st) := transmit (req st) OK (str "") st in
      (ev, st) in
  let st := with_buffer st (offload_buffer st) 0 in
  let '(e3, st) := SEND_PROMPT st in
  (e0 ++ e1 ++ e2 ++ e3, st).

(** The body of the [while] loop, after a read that stored [sz > 0]
    characters into [buffer].  ([offload_buffer_sz] and [sz] are [int]s:
    the sum below is the sum the C code computes as long as it does not
    exceed [INT_MAX].) *)
Definition loop_body (buffer : bytes) (sz : Z) (st : state DB)
  : list event * state DB :=
  (* Shunt the characters into the offload buffer. *)
  let block :=
    xrealloc junk (offload_buffer st) (offload_buffer_sz st + sz) in
  let block :=
    store block (offload_buffer_sz st) (strncpy buffer (Z.to_nat sz)) in
  let n := offload_buffer_sz st + sz in
  if negb (Ascii.eqb (load block (n - 1)) LF) then
    (* The request is overflowing the buffer. *)
    ([], with_buffer st block n)
  else dispatch block n st.

(** [while ((sz = read(read_sockfd, buffer, BUFFER_SIZE)) > 0) { ... }]. *)
Fixpoint read_loop (reads : list read_result) (st : state DB)
  : list event * state DB :=
  match reads with
  | [] => ([], st)
  | r :: rest =>
      if read_sz r >? 0 then
        let '(e1, st1) := loop_body (read_buffer r) (read_sz r) st in
        let '(e2, st2) := read_loop rest st1 in
        (e1 ++ e2, st2)
      else ([], st)
  end.

(** One turn of the event loop, from the return of [accept] to the close of
    the connection.  (The two lines [-v] prints around [accept] show socket
    addresses and are left out.) *)
Definition serve (c : connection) (st : state DB)
  : list event * state DB :=
  let st := with_sockfd st (conn_fd c) in
  let st := with_buffer st [] 0 in
  let '(e1, st) := SEND_PROMPT st in
  let '(e2, st) := read_loop (conn_reads c) st in
  let e3 := dprintf (str "Client disconnected." ++ [LF]) in
  (e1 ++ e2 ++ e3 ++ [EvClose (read_sockfd st)], with_sockfd st 0).

(** The event loop over the connections the server accepts. *)
Fixpoint event_loop (conns : list connection) (st : state DB)
  : list event * state DB :=
  match conns with
  | [] => ([], st)
  | c :: rest =>
      let '(e1, st1) := serve c st in
      let '(e2, st2) := event_loop rest st1 in
      (e1 ++ e2, st2)
  end.

(** The state in which [main] enters the event loop: [req = 0], the
    database just opened, no [write] made. *)
Definition startup (db0 : DB) : state DB := mk_state 0 [] 0 0 db0 0.

Definition alfred (db0 : DB) (conns : list connection)
  : list event * state DB :=
  event_loop conns (startup db0).

End Alfred.

Arguments SEND_PROMPT {DB} sock_write prompt st.
Arguments transmit {DB} sock_write verbose junk req code data st.
Arguments callback_loop {DB} sock_write verbose junk arg cells data st.
Arguments callback {DB} sock_write verbose junk arg r st.
Arguments deliver {DB} sock_write verbose junk arg rows st.
Arguments exec {DB} sqlite3_exec sock_write verbose junk sql arg st.
Arguments dispatch {DB} sqlite3_exec sock_write verbose prompt junk block n st.
Arguments loop_body {DB} sqlite3_exec sock_write verbose prompt junk
  buffer sz st.
Arguments read_loop {DB} sqlite3_exec sock_write verbose prompt junk
  reads st.
Arguments serve {DB} sqlite3_exec sock_write verbose prompt junk c st.
Arguments event_loop {DB} sqlite3_exec sock_write verbose prompt junk
  conns st.
Arguments alfred {DB} sqlite3_exec sock_write verbose prompt junk db0 conns.
Arguments startup {DB} db0.
Arguments with_buffer {DB} st block n.
Arguments with_req {DB} st r.
Arguments with_sockfd {DB} st fd.
Arguments with_db {DB} st d.
Arguments one_more_write {DB} st.

(** ** Reading a trace *)

(** The wire format of a response, as the header of [main.c] and the
    protocol description give it: ["ID: STATUS: DATA"] and a newline. *)
Definition response_line (id : Z) (code : response) (payload : bytes)
  : bytes :=
  fmt_u id ++ str ": " ++ fmt_d (response_value code) ++ str ": "
    ++ payload ++ [LF].

(** The prompt. *)
Definition prompt_text : bytes := str "> ".

(** The buffers handed to [write(2)], in order. *)
Fixpoint socket_writes (evs : list event) : list bytes :=
  match evs with
  | [] => []
  | EvWrite _ buf _ :: rest => buf :: socket_writes rest
  | _ :: rest => socket_writes rest
  end.

(** The calls of [sqlite3_exec], in order: query text and request ID. *)
Fixpoint execs (evs : list event) : list (bytes * Z) :=
  match evs with
  | [] => []
  | EvExec sql arg :: rest => (sql, arg) :: execs rest
  | _ :: rest => execs rest
  end.

(** The lines printed on standard output. *)
Fixpoint printed (evs : list event) : list bytes :=
  match evs with
  | [] => []
  | EvPrint text :: rest => text :: printed rest
  | _ :: rest => printed rest
  end.

(** How a client reads a response: a decimal ID, [": "], the status code,
    [": "], and the rest of the line. *)
Definition is_digit (c : ascii) : bool :=
  ((48 <=? nat_of_ascii c) && (nat_of_ascii c <=? 57))%nat.

Definition digit_value (c : ascii) : Z := Z.of_nat (nat_of_ascii c) - 48.

Fixpoint read_digits (acc : Z) (s : bytes) : Z * bytes :=
  match s with
  | [] => (acc, [])
  | c :: rest =>
      if is_digit c then read_digits (10 * acc + digit_value c) rest
      else (acc, s)
  end.

Definition parse_line (line : bytes) : option (Z * response * bytes) :=
  match line with
  | [] => None
  | c :: _ =>
      if is_digit c then
        let '(id, rest) := read_digits 0 line in
        match rest with
        | ":" :: " " :: "0" :: ":" :: " " :: payload =>
            Some (id, OK, payload)
        | ":" :: " " :: "-" :: "1" :: ":" :: " " :: payload =>
            Some (id, ERR, payload)
        | ":" :: " " :: "1" :: ":" :: " " :: payload =>
            Some (id, DATA, payload)
        | _ => None
        end%char
      else None
  end.

(** A terminal message: a response line whose code is OK or ERR. *)
Definition is_terminal (buf : bytes) : bool :=
  match parse_line buf with
  | Some (_, OK, _) | Some (_, ERR, _) => true
  | _ => false
  end.

Definition is_data (buf : bytes) : bool :=
  match parse_line buf with
  | Some (_, DATA, _) => true
  | _ => false
  end.

Definition is_prompt (buf : bytes) : bool :=
  if list_eq_dec ascii_dec buf prompt_text then true else false.

Definition line_id (buf : bytes) : option Z :=
  match parse_line buf with
  | Some (id, _, _) => Some id
  | None => None
  end.

Definition terminal_lines (evs : list event) : list bytes :=
  filter is_terminal (socket_writes evs).

Definition data_lines (evs : list event) : list bytes :=
  filter is_data (socket_writes evs).

Definition prompts (evs : list event) : list bytes :=
  filter is_prompt (socket_writes evs).

(** ** Requests and their delivery *)

(** Plain text: no NUL character.  (The header of [main.c]: "Alfred expects
    plain text data sent from a client representing SQL queries.") *)
Definition plain (s : bytes) : bool :=
  forallb (fun c => negb (Ascii.eqb c NUL)) s.

Definition no_newline (s : bytes) : bool :=
  forallb (fun c => negb (Ascii.eqb c LF)) s.

(** A request: plain text with one newline, its last character. *)
Definition is_request (r : bytes) : bool :=
  match rev r with
  | [] => false
  | c :: body => Ascii.eqb c LF && no_newline body && plain body
  end.

(** A chunk [read] may return with more to come: between 1 and
    [BUFFER_SIZE] characters. *)
Definition is_chunk (c : bytes) : bool :=
  (0 <? Z.of_nat (length c)) && (Z.of_nat (length c) <=? BUFFER_SIZE).

(** [chunks] is a way the reads may cut the request [r]. *)
Definition delivers (chunks : list bytes) (r : bytes) : Prop :=
  concat chunks = r /\ forallb is_chunk chunks = true.

(** The IDs [first], [first + 1], ... of [n] requests, wrapping around. *)
Fixpoint ids_from (first : Z) (n : nat) : list Z :=
  match n with
  | O => []
  | S k => wrap32 first :: ids_from (first + 1) k
  end.

(** ** The vocabulary of the properties *)

(** A write of the protocol: the prompt, or a response line with the ID of
    a [uint32_t], whose payload is empty when the code is OK. *)
Definition protocol_write (buf : bytes) : Prop :=
  buf = prompt_text
  \/ exists id code payload,
       buf = response_line id code payload
       /\ 0 <= id < UINT32_MODULUS
       /\ (code = OK -> payload = []).

(** The payload of the DATA message of one column: ["column name = value"],
    with [NULL] for a null value. *)
Definition cell_text (cell : bytes * option bytes) : bytes :=
  c_str (fst cell) ++ str " = "
    ++ match snd cell with
       | Some v => c_str v
       | None => str "NULL"
       end.

(** The DATA messages of one row, for the request [id]. *)
Definition row_lines (id : Z) (r : row) : list bytes :=
  map (fun cell => response_line id DATA (cell_text cell)) r.

(** The texts handed to [sqlite3_free], in order. *)
Fixpoint frees (evs : list event) : list bytes :=
  match evs with
  | [] => []
  | EvFree text :: rest => text :: frees rest
  | _ :: rest => frees rest
  end.

(** Events of a row callback: writes of DATA lines on [fd], and lines on
    stdout. *)
Definition data_event (fd : Z) (e : event) : bool :=
  match e with
  | EvWrite fd' buf _ => (fd' =? fd) && is_data buf
  | EvPrint _ => true
  | _ => false
  end.

(** Two states that differ at most in the number of writes made. *)
Definition same_vars {DB : Type} (s t : state DB) : Prop :=
  req s = req t /\ offload_buffer s = offload_buffer t
  /\ offload_buffer_sz s = offload_buffer_sz t
  /\ read_sockfd s = read_sockfd t /\ db s = db t.

(** The terminal message for request [id] after [sqlite3_exec] returned
    [r]: OK with an empty payload, or ERR with SQLite's message. *)
Definition answer_line {DB : Type} (id : Z) (r : exec_result DB) : bytes :=
  if rc r =? SQLITE_OK then response_line id OK []
  else response_line id ERR (c_str (errmsg r)).

(** The invariant of the frame buffer: [offload_buffer_sz] characters of
    the block are in use. *)
Definition buffer_ok {DB : Type} (st : state DB) : Prop :=
  0 <= offload_buffer_sz st <= Z.of_nat (length (offload_buffer st)).

(** The characters accumulated for the request being read. *)
Definition pending {DB : Type} (st : state DB) : bytes :=
  firstn (Z.to_nat (offload_buffer_sz st)) (offload_buffer st).

(** The last character of a buffer (NUL for the empty one). *)
Definition last_char (s : bytes) : ascii := last s NUL.

(** What [strncpy(..., buffer, sz)] appends after a read of [chunk]. *)
Definition appended (chunk : bytes) : bytes := strncpy chunk (length chunk).

(** The state in which [serve] enters the read loop: the descriptor of the
    connection, an empty frame buffer, the prompt sent. *)
Definition entered {DB : Type} (sock_write : nat -> Z -> bytes -> Z)
    (prompt : bool) (c : connection) (st : state DB) : state DB :=
  snd (SEND_PROMPT sock_write prompt
         (with_buffer (with_sockfd st (conn_fd c)) [] 0)).

(** The first statement of the ordering property: whatever way the reads
    cut the stream of requests, the connection gets one terminal message
    per request, with consecutive IDs. *)
Definition one_answer_per_request {DB : Type}
    (sqlite3_exec : DB -> bytes -> exec_result DB)
    (sock_write : nat -> Z -> bytes -> Z) (verbose prompt : bool)
    (junk : ascii) : Prop :=
  forall (requests reads : list bytes) (fd : Z) (st : state DB),
    Forall (fun r => is_request r = true) requests ->
    concat reads = concat requests ->
    forallb is_chunk reads = true ->
    let evs :=
      fst (serve sqlite3_exec sock_write verbose prompt junk
             (mk_connection fd (map ReadBytes reads)) st) in
    map line_id (terminal_lines evs)
    = map Some (ids_from (req st + 1) (length requests)).

(** What outlives a connection: the request counter, the database, and
    (in the environment) the number of writes made. *)
Definition persisting {DB : Type} (s t : state DB) : Prop :=
  req s = req t /\ db s = db t /\ nwrites s = nwrites t.

(** A read that ends the loop: [read] returned 0 or -1. *)
Definition ends_loop (r : read_result) : bool := read_sz r <=? 0.

(** What can follow the reads of an unfinished request when the client goes
    away: nothing more (end of file), or a read that ends the loop. *)
Definition disconnects (reads : list read_result) : bool :=
  match reads with
  | [] => true
  | r :: _ => ends_loop r
  end.

(** A chunk after which the request is still unfinished. *)
Definition unterminated (chunk : bytes) : bool :=
  negb (Ascii.eqb (last_char (appended chunk)) LF).

(** The line [transmit] prints (under [-v]) when [write] fails. *)
Definition write_error_text : bytes := str "Error writing to socket." ++ [LF].

(** What the program does, whatever the writes return: the trace with the
    results of the writes blanked and the reports of failed writes left
    out. *)
Fixpoint actions (evs : list event) : list event :=
  match evs with
  | [] => []
  | EvWrite fd buf _ :: rest => EvWrite fd buf 0 :: actions rest
  | EvPrint text :: rest =>
      if list_eq_dec ascii_dec text write_error_text then actions rest
      else EvPrint text :: actions rest
  | e :: rest => e :: actions rest
  end.

(** ** The process: start-up, accept loop and shutdown

    The rest of [main.c]: [usage], [quit], the command line and the set-up
    of the listening socket in [main], and the calls around [accept].  The
    C library and the kernel answer through a record of results ([system]);
    [getopt] is given by the values it returns, in order. *)

Definition ESC : ascii := "027"%char.
Definition DEFAULT_PORT : Z := 3876.
Definition DEFAULT_LISTEN_QUEUE_SIZE : Z := 5.
Definition SIGINT : Z := 2.
Definition SIGTERM : Z := 15.

(** [BOLD(s)]. *)
Definition BOLD (s : String.string) : bytes :=
  [ESC] ++ str "[1m" ++ str s ++ [ESC] ++ str "[0m".

(** What the process does to the outside world: a call of the event loop
    ([event]), or one of the calls made around it. *)
Inductive call : Type :=
| InLoop (e : event)
| SysStderr (text : bytes)        (* fprintf(stderr, ...) *)
| SysStdout (text : bytes)        (* printf(...), under -v *)
| SysOpen (path : bytes)          (* sqlite3_open(path, &db) *)
| SysOpenReadonly (path : bytes)
    (* sqlite3_open_v2(path, &db, SQLITE_OPEN_READONLY, NULL) *)
| SysDbClose                      (* sqlite3_close(db) *)
| SysSocket                       (* socket(AF_INET, SOCK_STREAM, 0) *)
| SysSetsockopt (fd : Z)          (* setsockopt(fd, ..., SO_REUSEADDR, ...) *)
| SysBind (fd : Z) (port : Z)     (* bind(fd, INADDR_ANY : port) *)
| SysListen (fd : Z) (backlog : Z)
| SysSignal (signum : Z)          (* signal(signum, &quit) *)
| SysAccept (fd : Z)              (* accept(fd, ...) *)
| SysClose (fd : Z)
| SysExit (code : Z).             (* exit(code), or return from main *)

(** The text [usage] prints. *)
Definition usage_text (progname : bytes) : bytes :=
  str "alfred - a no-nonsense SQLite server." ++ [LF]
    ++ str " usage: " ++ c_str progname ++ str " [options] database"
    ++ [LF; LF]
    ++ str " options:" ++ [LF]
    ++ str "    " ++ BOLD "-h" ++ [LF]
    ++ str "     Print this help information." ++ [LF]
    ++ str "    " ++ BOLD "-n" ++ [LF]
    ++ str "     Disable the prompt that is sent to the client." ++ [LF]
    ++ str "    " ++ BOLD "-p port" ++ [LF]
    ++ str "     Listen on the designated port (default "
    ++ fmt_d DEFAULT_PORT ++ str ")." ++ [LF]
    ++ str "    " ++ BOLD "-r" ++ [LF]
    ++ str "     Open the database read-only." ++ [LF]
    ++ str "    " ++ BOLD "-v" ++ [LF]
    ++ str "     Be verbose." ++ [LF].

(** [usage(progname)]. *)
Definition usage (progname : bytes) : list call :=
  [SysStderr (usage_text progname)].

(** [DIE(...)]: print an error message and exit. *)
Definition DIE (text : bytes) : list call := [SysStderr text; SysExit 1].

(** [isspace] in the C locale. *)
Definition isspace (c : ascii) : bool :=
  ((nat_of_ascii c =? 32)
   || ((9 <=? nat_of_ascii c) && (nat_of_ascii c <=? 13)))%nat.

Fixpoint skip_space (s : bytes) : bytes :=
  match s with
  | [] => []
  | c :: rest => if isspace c then skip_space rest else s
  end.

(** [strtol(nptr, NULL, 10)]: leading white space, an optional sign, then
    decimal digits up to the first other character; a number out of the
    range of [long] gives [LONG_MAX] or [LONG_MIN]. *)
Definition strtol (nptr : bytes) : Z :=
  match skip_space (c_str nptr) with
  | "-"%char :: digits => Z.max LONG_MIN (- fst (read_digits 0 digits))
  | "+"%char :: digits => Z.min LONG_MAX (fst (read_digits 0 digits))
  | digits => Z.min LONG_MAX (fst (read_digits 0 digits))
  end.

(** The conversion of a [long] to [int]: its low 32 bits, in two's
    complement. *)
Definition to_int (z : Z) : Z := (z + 2 ^ 31) mod 2 ^ 32 - 2 ^ 31.

(** [atoi(nptr)], as the C library has it: [(int) strtol(nptr, NULL, 10)].
    (The C standard leaves [atoi] undefined for a number out of the range
    of [int]; this is what glibc does, and so [atoi] of the text of
    4294967296 is 0.) *)
Definition atoi (nptr : bytes) : Z := to_int (strtol nptr).

(** The port number a [sin_port] of [htons(port)] stands for: [htons]
    takes a [uint16_t]. *)
Definition htons_port (port : Z) : Z := port mod 2 ^ 16.

(** The settings of [main]: [verbose], [prompt], [port] and [readonly]. *)
Record settings : Type := mk_settings {
  s_verbose : bool;
  s_prompt : bool;
  s_port : Z;
  s_readonly : bool
}.

(** [static int verbose], [static int prompt = 1], [port = DEFAULT_PORT],
    [readonly = 0]. *)
Definition default_settings : settings :=
  mk_settings false true DEFAULT_PORT false.

(** The option string [main] hands to [getopt]. *)
Definition optstring : bytes := str "hnp:v".

(** What [getopt] may return, short of -1, for an option string that does
    not start with a colon: an option character of the string, or ['?']. *)
Definition getopt_returns (c : ascii) : bool :=
  Ascii.eqb c "?"%char
  || (negb (Ascii.eqb c ":"%char) && existsb (Ascii.eqb c) optstring).

(** How the command-line parsing ends: [main] returns or exits with a
    status, having printed on [stderr]; or it goes on with the settings. *)
Inductive parsed : Type :=
| Stop (out : list call) (status : Z)
| Go (s : settings).

(** The [while ((c = getopt(argc, argv, "hnp:v")) != -1) switch (c)] of
    [main]: [opts] are the successive values of [c] with the [optarg] they
    come with. *)
Fixpoint parse_options (progname : bytes) (opts : list (ascii * bytes))
    (s : settings) : parsed :=
  match opts with
  | [] => Go s
  | (c, optarg) :: rest =>
      if Ascii.eqb c "h"%char then Stop (usage progname) 0
      else if Ascii.eqb c "n"%char then
        parse_options progname rest
          (mk_settings (s_verbose s) false (s_port s) (s_readonly s))
      else if Ascii.eqb c "p"%char then
        let port := atoi optarg in
        if port =? 0 then
          Stop [SysStderr (str "Invalid port specified." ++ [LF])] 1
        else
          parse_options progname rest
            (mk_settings (s_verbose s) (s_prompt s) port (s_readonly s))
      else if Ascii.eqb c "r"%char then
        parse_options progname rest
          (mk_settings (s_verbose s) (s_prompt s) (s_port s) true)
      else if Ascii.eqb c "v"%char then
        parse_options progname rest
          (mk_settings true (s_prompt s) (s_port s) (s_readonly s))
      else (* '?' and default *) Stop (usage progname) 1
  end.

(** The answers of SQLite and of the kernel during start-up. *)
Record system : Type := mk_system {
  sys_open : bytes -> Z;           (* sqlite3_open(path, &db) *)
  sys_open_readonly : bytes -> Z;  (* sqlite3_open_v2(path, ..READONLY..) *)
  sys_socket : Z;                  (* socket(...) *)
  sys_setsockopt : Z;
  sys_bind : Z -> Z;               (* bind, by port number *)
  sys_listen : Z;
  sys_sigterm_fails : bool;        (* signal(SIGTERM, &quit) == SIG_ERR *)
  sys_sigint_fails : bool          (* signal(SIGINT, &quit) == SIG_ERR *)
}.

(** How start-up ends: the process has exited, or it enters the event loop
    with its settings and the listening socket. *)
Inductive started : Type :=
| Exited (status : Z)
| Listening (s : settings) (sockfd : Z).

(** Get the database to open: [operands] are [argv[optind]] to
    [argv[argc - 1]]. *)
Definition open_database (sys : system) (progname : bytes)
    (operands : list bytes) (s : settings) : list call * bool :=
  match operands with
  | [] =>
      (DIE (str "Missing required database argument. " ++ c_str progname
              ++ str " -h for usage information." ++ [LF]),
       false)
  | _ :: _ :: _ =>
      (DIE (str "You can only open a single database per alfred instance. "
              ++ c_str progname ++ str " -h for usage information." ++ [LF]),
       false)
  | [path] =>
      let '(calls, failed) :=
        if s_readonly s then
          ([SysOpenReadonly path], negb (sys_open_readonly sys path =? 0))
        else ([SysOpen path], negb (sys_open sys path =? 0)) in
      if failed then
        (calls ++ SysDbClose
           :: DIE (str "Failed to open " ++ c_str path ++ str "." ++ [LF]),
         false)
      else (calls, true)
  end.

(** Bind and listen for connections; install the signal handlers. *)
Definition open_socket (sys : system) (s : settings) : list call * started :=
  let sockfd := sys_socket sys in
  if sockfd <? 0 then
    (SysSocket :: DIE (str "Could not open socket." ++ [LF]), Exited 1)
  else if sys_setsockopt sys =? -1 then
    ([SysSocket; SysSetsockopt sockfd]
       ++ DIE (str "Could not set socket to reuse addresses." ++ [LF]),
     Exited 1)
  else if sys_bind sys (htons_port (s_port s)) <? 0 then
    ([SysSocket; SysSetsockopt sockfd;
      SysBind sockfd (htons_port (s_port s))]
       ++ DIE (str "Could not bind socket." ++ [LF]),
     Exited 1)
  else if negb (sys_listen sys =? 0) then
    ([SysSocket; SysSetsockopt sockfd;
      SysBind sockfd (htons_port (s_port s));
      SysListen sockfd DEFAULT_LISTEN_QUEUE_SIZE]
       ++ DIE (str "Could not listen on socket." ++ [LF]),
     Exited 1)
  else
    ([SysSocket; SysSetsockopt sockfd;
      SysBind sockfd (htons_port (s_port s));
      SysListen sockfd DEFAULT_LISTEN_QUEUE_SIZE]
       ++ SysSignal SIGTERM
       :: (if sys_sigterm_fails sys then [] else [SysSignal SIGINT])
       ++ (if sys_sigterm_fails sys || sys_sigint_fails sys then
             if s_verbose s then
               [SysStdout
                  (str "Warning: cannot establish signal handler. "
                     ++ str "Ctrl+C will not exit cleanly." ++ [LF])]
             else []
           else []),
     Listening s sockfd).

(** [main], up to the event loop. *)
Definition start (sys : system) (progname : bytes)
    (opts : list (ascii * bytes)) (operands : list bytes)
  : list call * started :=
  match parse_options progname opts default_settings with
  | Stop out status => (out ++ [SysExit status], Exited status)
  | Go s =>
      let '(calls, opened) := open_database sys progname operands s in
      if opened then
        let '(calls', result) := open_socket sys s in
        (calls ++ calls', result)
      else (calls, Exited 1)
  end.










(** The databases opened: path, and whether read-only. *)
Fixpoint opened (calls : list call) : list (bytes * bool) :=
  match calls with
  | [] => []
  | SysOpen path :: rest => (path, false) :: opened rest
  | SysOpenReadonly path :: rest => (path, true) :: opened rest
  | _ :: rest => opened rest
  end.

(** The exits of a trace. *)
Fixpoint exits (calls : list call) : list Z :=
  match calls with
  | [] => []
  | SysExit status :: rest => status :: exits rest
  | _ :: rest => exits rest
  end.

(** The signals for which a handler was installed, in order. *)
Fixpoint signals (calls : list call) : list Z :=
  match calls with
  | [] => []
  | SysSignal signum :: rest => signum :: signals rest
  | _ :: rest => signals rest
  end.

(** Whether [sqlite3_close] is called. *)
Definition closes_database (calls : list call) : bool :=
  existsb (fun c => match c with SysDbClose => true | _ => false end) calls.

(** Whether a socket is created. *)
Definition creates_socket (calls : list call) : bool :=
  existsb (fun c => match c with SysSocket => true | _ => false end) calls.

(** The ports bound. *)
Fixpoint bound (calls : list call) : list Z :=
  match calls with
  | [] => []
  | SysBind _ port :: rest => port :: bound rest
  | _ :: rest => bound rest
  end.




(** ** The vocabulary of the further properties *)



(** An event on the connection [fd]: a write goes to [fd], and nothing is
    closed. *)
Definition on_connection (fd : Z) (e : event) : bool :=
  match e with
  | EvWrite fd' _ _ => fd' =? fd
  | EvClose _ => false
  | _ => true
  end.

(** The size [callback] asks [xrealloc] for, and what its [sprintf]
    stores, the terminating NUL included. *)
Definition callback_size (column_i : bytes) (argv_i : option bytes) : Z :=
  strlen column_i
  + strlen (str " = ")
  + match argv_i with
    | Some v => strlen v
    | None => strlen (str "NULL")
    end
  + 1 (* \0 *).

Definition callback_sprintf (column_i : bytes) (argv_i : option bytes)
  : bytes :=
  c_str column_i ++ str " = "
    ++ c_str match argv_i with
             | Some v => v
             | None => str "NULL"
             end
    ++ [NUL].

(** A trace without the lines printed on standard output. *)
Definition silenced (evs : list event) : list event :=
  filter (fun e => match e with EvPrint _ => false | _ => true end) evs.






(** ** Writing to a peer that has gone

    [write(2)] on a socket whose peer has closed the connection does not
    come back with -1: it raises SIGPIPE.  [main] installs a handler for
    SIGTERM and for SIGINT, and nothing in the program ignores, blocks or
    handles SIGPIPE; so the default action applies and the process is
    ended inside that call of [write], in [transmit] or in [SEND_PROMPT].
    [sigpipe k] tells whether the [k]-th [write] of the run (from 0)
    raises the signal. *)

(** How far the process gets: it goes on serving, or it is ended inside
    [write(fd, buf, ...)]. *)
Inductive fate : Type :=
| Serving
| Killed_by_SIGPIPE (fd : Z) (buf : bytes).

(** The events of a run up to the first [write] that raises SIGPIPE, that
    [write] left out; [k] counts the writes made before [evs]. *)
Fixpoint until_SIGPIPE (sigpipe : nat -> bool) (k : nat) (evs : list event)
  : list event * fate :=
  match evs with
  | [] => ([], Serving)
  | EvWrite fd buf ret :: rest =>
      if sigpipe k then ([], Killed_by_SIGPIPE fd buf)
      else
        let '(done, end_) := until_SIGPIPE sigpipe (S k) rest in
        (EvWrite fd buf ret :: done, end_)
  | e :: rest =>
      let '(done, end_) := until_SIGPIPE sigpipe k rest in
      (e :: done, end_)
  end.

(** The run of the server on a socket that may raise SIGPIPE: what the
    event loop does, as long as the process lives. *)
Definition alfred_SIGPIPE {DB : Type}
    (sqlite3_exec : DB -> bytes -> exec_result DB)
    (sock_write : nat -> Z -> bytes -> Z) (sigpipe : nat -> bool)
    (verbose prompt : bool) (junk : ascii) (db0 : DB)
    (conns : list connection) : list event * fate :=
  until_SIGPIPE sigpipe 0
    (fst (alfred sqlite3_exec sock_write verbose prompt junk db0 conns)).

(** ** A small database, to run the program on

    The database counts the statements executed.  A query that starts with
    [S] selects one row of two columns, the second of them NULL; one that
    starts with [I] inserts and returns nothing; anything else is an
    error. *)
Definition toy_exec (d : nat) (sql : bytes) : exec_result nat :=
  match sql with
  | "S"%char :: _ =>
      mk_exec_result
        [[(str "1", Some (str "1")); (str "x", None)]] SQLITE_OK [] (S d)
  | "I"%char :: _ => mk_exec_result [] SQLITE_OK [] (S d)
  | _ => mk_exec_result [] 1 (str "syntax error") d
  end.

(** A socket on which every write succeeds in full, and one on which
    every write fails. *)
Definition write_all (k : nat) (fd : Z) (buf : bytes) : Z :=
  Z.of_nat (length buf).

Definition write_fails (k : nat) (fd : Z) (buf : bytes) : Z := -1.

(** A socket on which the [n]-th write (from 0) returns -1 and every other
    write succeeds in full. *)
Definition write_fails_at (n k : nat) (fd : Z) (buf : bytes) : Z :=
  if Nat.eqb k n then -1 else Z.of_nat (length buf).

(** A system in which every call of start-up succeeds; the socket is
    descriptor 3. *)
Definition obliging : system :=
  mk_system (fun _ => 0) (fun _ => 0) 3 0 (fun _ => 0) 0 false false.

(** * Properties *)

(** ** The C library *)

Lemma plain_app (a b : bytes) : plain (a ++ b) = plain a && plain b.
Proof. apply forallb_app. Qed.

Lemma c_str_plain (s : bytes) : plain s = true -> c_str s = s.
Proof.
  induction s as [|c s IH]; simpl; [reflexivity|].
  intros H; apply andb_true_iff in H as [Hc Hs].
  apply negb_true_iff in Hc; rewrite Hc.
  now rewrite IH.
Qed.

Lemma c_str_terminated (s rest : bytes) :
  plain s = true -> c_str (s ++ NUL :: rest) = s.
Proof.
  induction s as [|c s IH]; simpl; [reflexivity|].
  intros H; apply andb_true_iff in H as [Hc Hs].
  apply negb_true_iff in Hc; rewrite Hc.
  now rewrite IH.
Qed.

Lemma plain_c_str (mem : bytes) : plain (c_str mem) = true.
Proof.
  induction mem as [|c mem IH]; simpl; [reflexivity|].
  destruct (Ascii.eqb c NUL) eqn:E; simpl; [reflexivity|].
  now rewrite E, IH.
Qed.

Lemma c_str_idem (mem : bytes) : c_str (c_str mem) = c_str mem.
Proof. apply c_str_plain, plain_c_str. Qed.

Lemma c_str_app_NUL (mem : bytes) : c_str (mem ++ [NUL]) = c_str mem.
Proof.
  induction mem as [|c mem IH]; simpl; [reflexivity|].
  destruct (Ascii.eqb c NUL); [reflexivity|now rewrite IH].
Qed.

Lemma strncpy_length (src : bytes) (n : nat) : length (strncpy src n) = n.
Proof.
  revert src; induction n as [|n IH]; intros src; [reflexivity|].
  cbn [strncpy]; destruct src as [|c src].
  - apply repeat_length.
  - destruct (Ascii.eqb c NUL); [apply repeat_length|].
    cbn [length]; now rewrite IH.
Qed.

Lemma strncpy_plain (src : bytes) :
  plain src = true -> strncpy src (length src) = src.
Proof.
  induction src as [|c src IH]; simpl; [reflexivity|].
  intros H; apply andb_true_iff in H as [Hc Hs].
  apply negb_true_iff in Hc; rewrite Hc.
  now rewrite IH.
Qed.

Lemma xrealloc_length (junk : ascii) (ptr : bytes) (size : Z) :
  length (xrealloc junk ptr size) = Z.to_nat size.
Proof.
  unfold xrealloc.
  rewrite length_app, length_firstn, repeat_length. lia.
Qed.

Lemma xrealloc_firstn (junk : ascii) (ptr : bytes) (size : Z) (k : nat) :
  (k <= Z.to_nat size)%nat -> (k <= length ptr)%nat ->
  firstn k (xrealloc junk ptr size) = firstn k ptr.
Proof.
  intros Hk Hl. unfold xrealloc.
  rewrite firstn_app, firstn_firstn, length_firstn.
  replace (Nat.min k (Z.to_nat size)) with k by lia.
  replace (k - Nat.min (Z.to_nat size) (length ptr))%nat with 0%nat by lia.
  simpl. apply app_nil_r.
Qed.

(** Storing [size - off] characters at offset [off] of a block of [size]
    characters overwrites its tail. *)
Lemma store_tail (block data : bytes) (off : Z) :
  0 <= off ->
  length block = (Z.to_nat off + length data)%nat ->
  store block off data = firstn (Z.to_nat off) block ++ data.
Proof.
  intros Hoff Hlen. unfold store.
  rewrite skipn_all2 by lia. now rewrite app_nil_r.
Qed.

(** Storing a terminated string at the start of a block large enough. *)
Lemma c_str_store_0 (block s : bytes) :
  plain s = true -> c_str (store block 0 (s ++ [NUL])) = s.
Proof.
  intros Hs. unfold store. simpl.
  rewrite <- app_assoc. simpl. now apply c_str_terminated.
Qed.

Lemma load_app_last (a : bytes) (c : ascii) (n : Z) :
  n = Z.of_nat (length a) -> load (a ++ [c]) n = c.
Proof.
  intros ->. unfold load.
  destruct (Z.ltb_spec (Z.of_nat (length a)) 0) as [E|E]; [lia|].
  rewrite Nat2Z.id, app_nth2 by lia.
  now rewrite Nat.sub_diag.
Qed.

(** ** Decimal conversions *)

Lemma digit_spec (d : Z) :
  0 <= d <= 9 -> is_digit (digit d) = true /\ digit_value (digit d) = d.
Proof.
  intros H.
  assert (E : d = 0 \/ d = 1 \/ d = 2 \/ d = 3 \/ d = 4 \/ d = 5 \/ d = 6
              \/ d = 7 \/ d = 8 \/ d = 9) by lia.
  repeat (destruct E as [E|E]; [subst d; split; reflexivity|]).
  subst d; split; reflexivity.
Qed.

Lemma is_digit_not_NUL (c : ascii) :
  is_digit c = true -> Ascii.eqb c NUL = false.
Proof.
  intros H. apply Ascii.eqb_neq. intros ->. discriminate H.
Qed.

Lemma digits_lsd_digits (fuel : nat) (n : Z) :
  forallb is_digit (digits_lsd fuel n) = true.
Proof.
  revert n; induction fuel as [|f IH]; intros n; [reflexivity|].
  cbn [digits_lsd forallb].
  destruct (digit_spec (n mod 10)) as [-> _].
  { pose proof (Z.mod_pos_bound n 10); lia. }
  destruct (n / 10 =? 0); [reflexivity|apply IH].
Qed.

Lemma digits_plain (ds : bytes) : forallb is_digit ds = true -> plain ds = true.
Proof.
  induction ds as [|c ds IH]; simpl; [reflexivity|].
  intros H; apply andb_true_iff in H as [Hc Hs].
  now rewrite (is_digit_not_NUL _ Hc), IH.
Qed.

Lemma fmt_u_digits (n : Z) : forallb is_digit (fmt_u n) = true.
Proof.
  unfold fmt_u. apply forallb_forall. intros c Hc.
  apply in_rev in Hc.
  pose proof (digits_lsd_digits (S (Z.to_nat (Z.log2 n))) n) as H.
  rewrite forallb_forall in H. now apply H.
Qed.

Lemma fmt_u_plain (n : Z) : plain (fmt_u n) = true.
Proof. apply digits_plain, fmt_u_digits. Qed.

Lemma fmt_d_plain (z : Z) : plain (fmt_d z) = true.
Proof.
  unfold fmt_d. destruct (z <? 0); simpl; apply fmt_u_plain.
Qed.

(** The fuel [fmt_u] passes is enough: the digits denote the number. *)
Lemma digits_lsd_value (fuel : nat) (n : Z) :
  0 <= n -> Z.log2 n < Z.of_nat fuel ->
  fold_right (fun c acc => 10 * acc + digit_value c) 0 (digits_lsd fuel n)
  = n.
Proof.
  revert n; induction fuel as [|f IH]; intros n Hn Hf.
  - pose proof (Z.log2_nonneg n). lia.
  - cbn [digits_lsd fold_right].
    destruct (digit_spec (n mod 10)) as [_ ->].
    { pose proof (Z.mod_pos_bound n 10); lia. }
    pose proof (Z.div_mod n 10 ltac:(lia)) as Hdm.
    destruct (Z.eqb_spec (n / 10) 0) as [E|E].
    + simpl. lia.
    + assert (Hq : 0 < n / 10).
      { pose proof (Z.div_pos n 10 Hn ltac:(lia)). lia. }
      rewrite IH; [lia|lia|].
      assert (Hle : Z.log2 (2 * (n / 10)) <= Z.log2 n).
      { apply Z.log2_le_mono. pose proof (Z.mod_pos_bound n 10). lia. }
      rewrite Z.log2_double in Hle by lia. lia.
Qed.

Lemma digits_lsd_length (fuel : nat) (n : Z) (k : nat) :
  0 <= n < 10 ^ Z.of_nat k -> (1 <= k)%nat ->
  (length (digits_lsd fuel n) <= k)%nat.
Proof.
  revert n k; induction fuel as [|f IH]; intros n k Hn Hk; simpl; [lia|].
  destruct (Z.eqb_spec (n / 10) 0) as [E|E]; simpl; [lia|].
  destruct k as [|[|k]]; [lia| |].
  - exfalso. apply E. apply Z.div_small. simpl in Hn. lia.
  - apply le_n_S. apply IH; [|lia].
    split; [apply Z.div_pos; lia|].
    apply Z.div_lt_upper_bound; [lia|].
    replace (Z.of_nat (S (S k))) with (Z.succ (Z.of_nat (S k))) in Hn by lia.
    rewrite Z.pow_succ_r in Hn by lia. lia.
Qed.

(** A [uint32_t] prints in at most 10 characters. *)
Lemma fmt_u_length (n : Z) :
  0 <= n < UINT32_MODULUS -> (length (fmt_u n) <= 10)%nat.
Proof.
  intros Hn. unfold fmt_u. rewrite length_rev.
  apply digits_lsd_length; [|lia].
  unfold UINT32_MODULUS in Hn. simpl Z.of_nat. lia.
Qed.

Lemma fmt_u_nonempty (n : Z) :
  exists c rest, fmt_u n = c :: rest /\ is_digit c = true.
Proof.
  pose proof (fmt_u_digits n) as Hd.
  destruct (fmt_u n) as [|c rest] eqn:E.
  - exfalso. unfold fmt_u in E. cbn [digits_lsd] in E.
    apply (f_equal (@length ascii)) in E.
    rewrite length_rev in E. discriminate E.
  - exists c, rest. split; [reflexivity|].
    simpl in Hd. now apply andb_true_iff in Hd as [Hc _].
Qed.

Lemma read_digits_app (ds rest : bytes) (acc : Z) :
  forallb is_digit ds = true ->
  match rest with [] => True | c :: _ => is_digit c = false end ->
  read_digits acc (ds ++ rest)
  = (fold_left (fun a c => 10 * a + digit_value c) ds acc, rest).
Proof.
  revert acc; induction ds as [|d ds IH]; intros acc Hd Hr.
  - simpl. destruct rest as [|c rest]; [reflexivity|].
    simpl. now rewrite Hr.
  - simpl in Hd. apply andb_true_iff in Hd as [Hc Hs].
    simpl. rewrite Hc. now apply IH.
Qed.

(** Reading back what [%u] printed. *)
Lemma read_digits_fmt_u (n : Z) (rest : bytes) :
  0 <= n ->
  match rest with [] => True | c :: _ => is_digit c = false end ->
  read_digits 0 (fmt_u n ++ rest) = (n, rest).
Proof.
  intros Hn Hr.
  rewrite read_digits_app by (assumption || apply fmt_u_digits).
  f_equal. unfold fmt_u.
  rewrite <- (fold_left_rev_right
                (fun c acc => 10 * acc + digit_value c)).
  rewrite rev_involutive.
  apply digits_lsd_value; [assumption|].
  pose proof (Z.log2_nonneg n). lia.
Qed.

(** ** The response writer *)

Lemma firstn_c_str (mem : bytes) :
  firstn (length (c_str mem)) mem = c_str mem.
Proof.
  induction mem as [|c mem IH]; simpl; [reflexivity|].
  destruct (Ascii.eqb c NUL); simpl; [reflexivity|now rewrite IH].
Qed.

Lemma response_line_plain (id : Z) (code : response) (payload : bytes) :
  plain payload = true -> plain (response_line id code payload) = true.
Proof.
  intros Hp. unfold response_line.
  rewrite !plain_app, fmt_u_plain, fmt_d_plain, Hp. reflexivity.
Qed.

Lemma transmit_sprintf_line (id : Z) (code : response) (data : bytes) :
  transmit_sprintf id code data = response_line id code (c_str data) ++ [NUL].
Proof.
  unfold transmit_sprintf, response_line.
  now rewrite <- !app_assoc.
Qed.

(** What [transmit] does: one [write] of the response line, a line on
    stdout when the write failed and [-v] was given, and nothing else. *)
Lemma transmit_eq {DB : Type} (w : nat -> Z -> bytes -> Z) (v : bool)
    (junk : ascii) (id : Z) (code : response) (data : bytes)
    (st : state DB) :
  transmit w v junk id code data st
  = (w (nwrites st) (read_sockfd st) (response_line id code (c_str data)),
     EvWrite (read_sockfd st) (response_line id code (c_str data))
       (w (nwrites st) (read_sockfd st) (response_line id code (c_str data)))
       :: (if w (nwrites st) (read_sockfd st)
                (response_line id code (c_str data)) <? 0
           then dprintf v (str "Error writing to socket." ++ [LF])
           else []),
     one_more_write st).
Proof.
  unfold transmit.
  set (msg := store _ 0 _).
  assert (Hmsg : c_str msg = response_line id code (c_str data)).
  { unfold msg. rewrite transmit_sprintf_line.
    apply c_str_store_0, response_line_plain, plain_c_str. }
  unfold strlen. rewrite Nat2Z.id, firstn_c_str, Hmsg.
  reflexivity.
Qed.

Lemma parse_response_line (id : Z) (code : response) (payload : bytes) :
  0 <= id ->
  parse_line (response_line id code payload)
  = Some (id, code, payload ++ [LF]).
Proof.
  intros Hid. unfold parse_line, response_line.
  remember (read_digits 0 _) as rd eqn:Hrd.
  destruct (fmt_u_nonempty id) as (c & r & E & Hc).
  rewrite E. cbn [app]. rewrite Hc.
  subst rd. rewrite read_digits_fmt_u by (assumption || reflexivity).
  destruct code; reflexivity.
Qed.

Lemma wrap32_range (z : Z) : 0 <= wrap32 z < UINT32_MODULUS.
Proof. unfold wrap32, UINT32_MODULUS. apply Z.mod_pos_bound. lia. Qed.

Lemma wrap32_idem (z : Z) : wrap32 (wrap32 z) = wrap32 z.
Proof. unfold wrap32, UINT32_MODULUS. apply Z.mod_mod. lia. Qed.

Lemma wrap32_small (z : Z) : 0 <= z < UINT32_MODULUS -> wrap32 z = z.
Proof. unfold wrap32. apply Z.mod_small. Qed.

Lemma wrap32_succ (z : Z) : wrap32 (wrap32 z + 1) = wrap32 (z + 1).
Proof.
  unfold wrap32, UINT32_MODULUS.
  rewrite Z.add_mod_idemp_l by lia. reflexivity.
Qed.

(** ** Projections of a trace *)

Lemma socket_writes_app (a b : list event) :
  socket_writes (a ++ b) = socket_writes a ++ socket_writes b.
Proof.
  induction a as [|e a IH]; [reflexivity|].
  destruct e; simpl; now rewrite IH.
Qed.

Lemma execs_app (a b : list event) : execs (a ++ b) = execs a ++ execs b.
Proof.
  induction a as [|e a IH]; [reflexivity|].
  destruct e; simpl; now rewrite IH.
Qed.

Lemma frees_app (a b : list event) : frees (a ++ b) = frees a ++ frees b.
Proof.
  induction a as [|e a IH]; [reflexivity|].
  destruct e; simpl; now rewrite IH.
Qed.

Lemma printed_app (a b : list event) :
  printed (a ++ b) = printed a ++ printed b.
Proof.
  induction a as [|e a IH]; [reflexivity|].
  destruct e; simpl; now rewrite IH.
Qed.

Lemma terminal_lines_app (a b : list event) :
  terminal_lines (a ++ b) = terminal_lines a ++ terminal_lines b.
Proof. unfold terminal_lines. now rewrite socket_writes_app, filter_app. Qed.

Lemma data_lines_app (a b : list event) :
  data_lines (a ++ b) = data_lines a ++ data_lines b.
Proof. unfold data_lines. now rewrite socket_writes_app, filter_app. Qed.

Lemma prompts_app (a b : list event) :
  prompts (a ++ b) = prompts a ++ prompts b.
Proof. unfold prompts. now rewrite socket_writes_app, filter_app. Qed.

Lemma dprintf_quiet (v : bool) (text : bytes) :
  socket_writes (dprintf v text) = [] /\ execs (dprintf v text) = []
  /\ frees (dprintf v text) = [].
Proof. unfold dprintf. destruct v; repeat split. Qed.

Lemma dprintf_data_event (v : bool) (fd : Z) (text : bytes) :
  forallb (data_event fd) (dprintf v text) = true.
Proof. unfold dprintf. destruct v; reflexivity. Qed.

(** How a client classifies the three kinds of line and the prompt. *)
Lemma classify_line (id : Z) (code : response) (payload : bytes) :
  0 <= id ->
  is_terminal (response_line id code payload)
  = match code with DATA => false | _ => true end
  /\ is_data (response_line id code payload)
     = match code with DATA => true | _ => false end
  /\ is_prompt (response_line id code payload) = false
  /\ line_id (response_line id code payload) = Some id.
Proof.
  intros Hid. unfold is_terminal, is_data, line_id.
  rewrite parse_response_line by assumption.
  repeat split; try (destruct code; reflexivity).
  unfold is_prompt.
  destruct (list_eq_dec ascii_dec _ prompt_text) as [E|E]; [|reflexivity].
  exfalso. apply (f_equal parse_line) in E.
  rewrite parse_response_line in E by assumption. discriminate E.
Qed.

Lemma classify_prompt :
  is_terminal prompt_text = false /\ is_data prompt_text = false
  /\ is_prompt prompt_text = true.
Proof. repeat split. Qed.

(** Row traffic holds no terminal line, no prompt, no [sqlite3_exec] and no
    [sqlite3_free]; its writes are DATA lines. *)
Lemma data_events_quiet (fd : Z) (evs : list event) :
  forallb (data_event fd) evs = true ->
  terminal_lines evs = [] /\ prompts evs = [] /\ execs evs = []
  /\ frees evs = [] /\ data_lines evs = socket_writes evs.
Proof.
  unfold terminal_lines, prompts, data_lines.
  induction evs as [|e evs IH]; [repeat split|].
  intros H. cbn [forallb] in H. apply andb_true_iff in H as [He Hs].
  destruct (IH Hs) as (I1 & I2 & I3 & I4 & I5).
  destruct e; try discriminate He; cbn [socket_writes execs frees filter];
    [|repeat split; assumption].
  cbn [data_event] in He. apply andb_true_iff in He as [_ Hd].
  rewrite Hd.
  assert (Ht : is_terminal buf = false).
  { unfold is_data in Hd. unfold is_terminal.
    destruct (parse_line buf) as [[[i c] p]|]; [|reflexivity].
    destruct c; (reflexivity || discriminate Hd). }
  assert (Hp : is_prompt buf = false).
  { unfold is_prompt.
    destruct (list_eq_dec ascii_dec buf prompt_text) as [E|E];
      [subst buf; discriminate Hd|reflexivity]. }
  rewrite Ht, Hp, I5. repeat split; assumption.
Qed.

Lemma same_vars_refl {DB : Type} (s : state DB) : same_vars s s.
Proof. repeat split. Qed.

Lemma same_vars_trans {DB : Type} (s t u : state DB) :
  same_vars s t -> same_vars t u -> same_vars s u.
Proof.
  unfold same_vars.
  intros (A1 & A2 & A3 & A4 & A5) (B1 & B2 & B3 & B4 & B5).
  repeat split; congruence.
Qed.

Lemma same_vars_one_more_write {DB : Type} (s : state DB) :
  same_vars s (one_more_write s).
Proof. repeat split. Qed.

(** ** The row callback and the dispatcher *)

Section Protocol.

Context {DB : Type}.
Variable sqlite3_exec : DB -> bytes -> exec_result DB.
Variable w : nat -> Z -> bytes -> Z.
Variables verbose prompt : bool.
Variable junk : ascii.

Lemma transmit_spec (id : Z) (code : response) (data : bytes)
    (st : state DB) :
  let r := transmit w verbose junk id code data st in
  socket_writes (snd (fst r)) = [response_line id code (c_str data)]
  /\ execs (snd (fst r)) = [] /\ frees (snd (fst r)) = []
  /\ snd r = one_more_write st.
Proof.
  intros r. unfold r. rewrite transmit_eq.
  cbn [fst snd socket_writes execs frees].
  destruct (_ <? 0); [|repeat split].
  destruct (dprintf_quiet verbose (str "Error writing to socket." ++ [LF]))
    as (-> & -> & ->).
  repeat split.
Qed.

Lemma transmit_data_event (id : Z) (data : bytes) (st : state DB) :
  0 <= id ->
  forallb (data_event (read_sockfd st))
    (snd (fst (transmit w verbose junk id DATA data st))) = true.
Proof.
  intros Hid.
  rewrite transmit_eq. cbn [fst snd forallb data_event].
  destruct (classify_line id DATA (c_str data) Hid) as (_ & -> & _).
  rewrite Z.eqb_refl. cbn [andb].
  destruct (_ <? 0); [apply dprintf_data_event|reflexivity].
Qed.

Lemma callback_data_block (data column_i : bytes) (argv_i : option bytes)
    (size : Z) :
  c_str
    (store (xrealloc junk data size) 0
       (c_str column_i ++ str " = "
          ++ c_str match argv_i with
                   | Some v => v
                   | None => str "NULL"
                   end
          ++ [NUL]))
  = cell_text (column_i, argv_i).
Proof.
  assert (H : forall s, plain s = true ->
            c_str (store (xrealloc junk data size) 0
                     (c_str column_i ++ str " = " ++ s ++ [NUL]))
            = c_str column_i ++ str " = " ++ s).
  { intros s Hs.
    replace (c_str column_i ++ str " = " ++ s ++ [NUL])
      with ((c_str column_i ++ str " = " ++ s) ++ [NUL])
      by (now rewrite <- !app_assoc).
    apply c_str_store_0.
    rewrite !plain_app, plain_c_str, Hs. reflexivity. }
  unfold cell_text. cbn [fst snd].
  destruct argv_i as [v|].
  - apply H, plain_c_str.
  - change (c_str (str "NULL")) with (str "NULL"). now apply H.
Qed.

Lemma callback_loop_spec (arg : Z) (cells : row) (data : bytes)
    (st : state DB) :
  let r := callback_loop w verbose junk arg cells data st in
  socket_writes (fst r) = row_lines (wrap32 arg) cells
  /\ forallb (data_event (read_sockfd st)) (fst r) = true
  /\ same_vars st (snd r).
Proof.
  revert data st. induction cells as [|[column_i argv_i] rest IH];
    intros data st.
  - repeat split.
  - cbn [callback_loop]. cbv zeta.
    set (size := strlen column_i + _ + _ + 1).
    set (block := store (xrealloc junk data size) 0 _).
    pose proof (callback_data_block data column_i argv_i size) as Hblock.
    fold block in Hblock.
    pose proof (wrap32_range arg) as Hid.
    destruct (transmit_spec (wrap32 arg) DATA block st) as (T1 & _ & _ & T4).
    pose proof (transmit_data_event (wrap32 arg) block st ltac:(lia)) as T5.
    destruct (transmit w verbose junk (wrap32 arg) DATA block st)
      as [[n ev] st1].
    cbn [fst snd] in T1, T4, T5. subst st1.
    specialize (IH block (one_more_write st)).
    destruct (callback_loop w verbose junk arg rest block (one_more_write st))
      as [evs st2].
    cbn [fst snd] in IH |- *. destruct IH as (I1 & I2 & I3).
    rewrite socket_writes_app, forallb_app, T1, T5, I1, Hblock.
    cbn [read_sockfd one_more_write] in I2. rewrite I2.
    repeat split; try apply I3.
Qed.

Lemma deliver_spec (arg : Z) (rows : list row) (st : state DB) :
  let r := deliver w verbose junk arg rows st in
  socket_writes (fst r) = concat (map (row_lines (wrap32 arg)) rows)
  /\ forallb (data_event (read_sockfd st)) (fst r) = true
  /\ same_vars st (snd r).
Proof.
  revert st. induction rows as [|r0 rest IH]; intros st.
  - repeat split.
  - cbn [deliver]. unfold callback.
    destruct (callback_loop_spec arg r0 [] st) as (C1 & C2 & C3).
    destruct (callback_loop w verbose junk arg r0 [] st) as [ev st1].
    cbn [fst snd] in C1, C2, C3.
    specialize (IH st1).
    destruct (deliver w verbose junk arg rest st1) as [evs st2].
    cbn [fst snd] in IH |- *. destruct IH as (I1 & I2 & I3).
    assert (Hfd : read_sockfd st1 = read_sockfd st) by (symmetry; apply C3).
    rewrite Hfd in I2.
    rewrite socket_writes_app, forallb_app, C1, C2, I1, I2.
    repeat split; try reflexivity.
    all: try (etransitivity; [apply C3|apply I3]).
Qed.

End Protocol.

(** ** One request *)

Lemma terminate_buffer (junk : ascii) (block : bytes) (n : Z) :
  Z.of_nat (length block) = n ->
  store (xrealloc junk block (n + 1)) n [NUL] = block ++ [NUL].
Proof.
  intros Hn.
  assert (E : xrealloc junk block (n + 1) = block ++ [junk]).
  { unfold xrealloc. rewrite firstn_all2 by lia.
    replace (Z.to_nat (n + 1) - length block)%nat with 1%nat by lia.
    reflexivity. }
  rewrite E. unfold store.
  replace (Z.to_nat n) with (length block + 0)%nat by lia.
  rewrite firstn_app_2. cbn [firstn length].
  rewrite skipn_all2 by (rewrite length_app; simpl; lia).
  now rewrite !app_nil_r.
Qed.

Lemma socket_writes_dprintf (v : bool) (text : bytes) :
  socket_writes (dprintf v text) = [].
Proof. apply dprintf_quiet. Qed.

Lemma execs_dprintf (v : bool) (text : bytes) : execs (dprintf v text) = [].
Proof. apply dprintf_quiet. Qed.

Lemma frees_dprintf (v : bool) (text : bytes) : frees (dprintf v text) = [].
Proof. apply dprintf_quiet. Qed.

Ltac project_trace :=
  rewrite ?socket_writes_app, ?execs_app, ?frees_app;
  cbn [socket_writes execs frees];
  rewrite ?socket_writes_app, ?execs_app, ?frees_app;
  rewrite ?socket_writes_dprintf, ?execs_dprintf, ?frees_dprintf;
  cbn [socket_writes execs frees app].

Section Dispatcher.
Context {DB : Type}.
Variable sqlite3_exec : DB -> bytes -> exec_result DB.
Variable w : nat -> Z -> bytes -> Z.
Variables verbose prompt : bool.
Variable junk : ascii.

Lemma dispatch_shape (block : bytes) (n : Z) (st : state DB) :
  Z.of_nat (length block) = n ->
  let sql := c_str block in
  let id := wrap32 (req st + 1) in
  let r := sqlite3_exec (db st) sql in
  let d := dispatch sqlite3_exec w verbose prompt junk block n st in
  exists before ret after,
    fst d = before ++ EvWrite (read_sockfd st) (answer_line id r) ret :: after
    /\ execs before = [(sql, id)]
    /\ socket_writes before = concat (map (row_lines id) (delivered r))
    /\ forallb is_data (socket_writes before) = true
    /\ frees before = []
    /\ socket_writes after = (if prompt then [prompt_text] else [])
    /\ execs after = []
    /\ frees after = (if rc r =? SQLITE_OK then [] else [errmsg r])
    /\ req (snd d) = id
    /\ db (snd d) = next_db r
    /\ offload_buffer_sz (snd d) = 0
    /\ offload_buffer (snd d) = block ++ [NUL]
    /\ read_sockfd (snd d) = read_sockfd st.
Proof.
  intros Hn sql id r d. unfold d, dispatch.
  rewrite (terminate_buffer junk block n Hn).
  cbn [req with_req with_buffer]. rewrite c_str_app_NUL. fold sql id.
  unfold exec. cbn [db with_req with_buffer]. fold r.
  set (st0 := with_req _ id).
  destruct (deliver_spec w verbose junk id (delivered r) st0) as (D1 & D2 & D3).
  destruct (deliver w verbose junk id (delivered r) st0) as [rows_evs st1].
  cbn [fst snd] in D1, D2, D3.
  unfold id in D1 at 1. rewrite wrap32_idem in D1. fold id in D1.
  assert (Hreq : req st1 = id) by (symmetry; apply D3).
  assert (Hfd : read_sockfd st1 = read_sockfd st) by (symmetry; apply D3).
  assert (Hbuf : offload_buffer st1 = block ++ [NUL]) by (symmetry; apply D3).
  cbn [read_sockfd st0 with_req with_buffer] in D2.
  destruct (data_events_quiet _ _ D2) as (Q1 & Q2 & Q3 & Q4 & Q5).
  assert (Qd : forallb is_data (socket_writes rows_evs) = true).
  { rewrite <- Q5. unfold data_lines. apply forallb_forall.
    intros x Hx. now apply filter_In in Hx. }
  cbn [req with_db]. rewrite Hreq. unfold answer_line.
  destruct (rc r =? SQLITE_OK) eqn:Hrc; cbn [negb]; rewrite transmit_eq;
    cbn [read_sockfd nwrites with_db one_more_write with_buffer
         offload_buffer]; rewrite Hfd;
    unfold SEND_PROMPT; destruct prompt; cbn [fst snd];
    cbn [req db offload_buffer_sz offload_buffer read_sockfd with_buffer
         one_more_write with_db].
  all: change (c_str (str "")) with (@nil ascii).
  all: change (firstn 2 (str "> ")) with prompt_text.
  all: match goal with
       | |- context [EvWrite _ (response_line ?i ?c ?p) (w ?k ?fd ?l)] =>
           set (ret := w k fd l); set (line := response_line i c p)
       end.
  all: set (failed := if ret <? 0 then _ else _).
  all: assert (F : socket_writes failed = [] /\ execs failed = []
                   /\ frees failed = [])
         by (unfold failed; destruct (ret <? 0);
             [apply dprintf_quiet|repeat split]);
       destruct F as (F1 & F2 & F3).
  all: set (received := dprintf verbose _).
  all: set (before := received ++ EvExec sql id :: rows_evs).
  all: assert (B : execs before = [(sql, id)]
                   /\ socket_writes before
                      = concat (map (row_lines id) (delivered r))
                   /\ frees before = []
                   /\ forallb is_data (socket_writes before) = true)
         by (unfold before, received; project_trace;
             rewrite Q3, Q4, D1; repeat split; now rewrite <- D1);
       destruct B as (B1 & B2 & B3 & B4).
  - exists before, ret, (failed ++ [EvWrite (read_sockfd st1) prompt_text
                          (w (S (nwrites st1)) (read_sockfd st1)
                             prompt_text)]).
    split; [unfold before; repeat (rewrite <- app_assoc; cbn [app]);
            reflexivity|].
    project_trace. rewrite F1, F2, F3. repeat split; assumption.
  - exists before, ret, failed.
    split; [unfold before; rewrite ?app_nil_r;
            repeat (rewrite <- app_assoc; cbn [app]); reflexivity|].
    repeat split; assumption.
  - set (failure := dprintf verbose _).
    exists (before ++ failure), ret,
      (failed ++ [EvFree (errmsg r)]
         ++ [EvWrite (read_sockfd st1) prompt_text
               (w (S (nwrites st1)) (read_sockfd st1) prompt_text)]).
    split; [unfold before; repeat (rewrite <- app_assoc; cbn [app]);
            reflexivity|].
    unfold failure. project_trace.
    rewrite B1, B2, B3, F1, F2, F3, ?app_nil_r.
    repeat split; try assumption; now rewrite <- B2.
  - set (failure := dprintf verbose _).
    exists (before ++ failure), ret, (failed ++ [EvFree (errmsg r)]).
    split; [unfold before; rewrite ?app_nil_r;
            repeat (rewrite <- app_assoc; cbn [app]); reflexivity|].
    unfold failure. project_trace.
    rewrite B1, B2, B3, F1, F2, F3, ?app_nil_r.
    repeat split; try assumption; now rewrite <- B2.
Qed.

End Dispatcher.

(** ** The frame reader *)

Lemma last_char_app (a b : bytes) :
  b <> [] -> last_char (a ++ b) = last_char b.
Proof.
  intros Hb. destruct (exists_last Hb) as (b' & c & ->).
  unfold last_char. now rewrite app_assoc, !last_last.
Qed.

Lemma load_last (block : bytes) :
  block <> [] ->
  load block (Z.of_nat (length block) - 1) = last_char block.
Proof.
  intros Hb. destruct (exists_last Hb) as (a & c & ->).
  unfold last_char. rewrite last_last. apply load_app_last.
  rewrite length_app. simpl. lia.
Qed.

Lemma appended_length (chunk : bytes) : length (appended chunk) = length chunk.
Proof. apply strncpy_length. Qed.

Lemma appended_plain (chunk : bytes) :
  plain chunk = true -> appended chunk = chunk.
Proof. apply strncpy_plain. Qed.

Lemma pending_length {DB : Type} (st : state DB) :
  buffer_ok st -> Z.of_nat (length (pending st)) = offload_buffer_sz st.
Proof.
  unfold buffer_ok, pending. intros H. rewrite length_firstn. lia.
Qed.

Section Reader.
Context {DB : Type}.
Variable sqlite3_exec : DB -> bytes -> exec_result DB.
Variable w : nat -> Z -> bytes -> Z.
Variables verbose prompt : bool.
Variable junk : ascii.

(** What the shunt into the offload buffer leaves in the block. *)
Lemma shunt (chunk : bytes) (st : state DB) :
  buffer_ok st ->
  store
    (xrealloc junk (offload_buffer st)
       (offload_buffer_sz st + Z.of_nat (length chunk)))
    (offload_buffer_sz st)
    (strncpy chunk (Z.to_nat (Z.of_nat (length chunk))))
  = pending st ++ appended chunk.
Proof.
  intros Hok. unfold buffer_ok in Hok. rewrite Nat2Z.id. fold (appended chunk).
  rewrite store_tail.
  - unfold pending. now rewrite xrealloc_firstn by lia.
  - lia.
  - rewrite xrealloc_length, appended_length. lia.
Qed.

Lemma loop_body_eq (chunk : bytes) (st : state DB) :
  buffer_ok st -> chunk <> [] ->
  let block := pending st ++ appended chunk in
  loop_body sqlite3_exec w verbose prompt junk chunk
    (Z.of_nat (length chunk)) st
  = if Ascii.eqb (last_char (appended chunk)) LF
    then dispatch sqlite3_exec w verbose prompt junk block
           (Z.of_nat (length block)) st
    else ([], with_buffer st block (Z.of_nat (length block))).
Proof.
  intros Hok Hne block. unfold loop_body. rewrite (shunt chunk st Hok).
  fold block.
  assert (Hlen : offload_buffer_sz st + Z.of_nat (length chunk)
                 = Z.of_nat (length block)).
  { unfold block. rewrite length_app, appended_length.
    rewrite Nat2Z.inj_add, (pending_length st Hok). reflexivity. }
  rewrite Hlen.
  assert (Ha : appended chunk <> []).
  { intros E. apply (f_equal (@length ascii)) in E.
    rewrite appended_length in E. destruct chunk; [congruence|discriminate E]. }
  rewrite load_last by (unfold block; intros E; apply app_eq_nil in E; tauto).
  unfold block at 1. rewrite (last_char_app _ _ Ha).
  destruct (Ascii.eqb (last_char (appended chunk)) LF); reflexivity.
Qed.

Lemma dispatch_with_buffer (block b : bytes) (n m : Z) (st : state DB) :
  dispatch sqlite3_exec w verbose prompt junk block n (with_buffer st b m)
  = dispatch sqlite3_exec w verbose prompt junk block n st.
Proof. reflexivity. Qed.

Lemma dispatch_buffer_ok (block : bytes) (st : state DB) :
  buffer_ok
    (snd (dispatch sqlite3_exec w verbose prompt junk block
            (Z.of_nat (length block)) st)).
Proof.
  destruct (dispatch_shape sqlite3_exec w verbose prompt junk block _ st
              eq_refl)
    as (b & r & a & _ & _ & _ & _ & _ & _ & _ & _ & _ & _ & Hsz & _).
  unfold buffer_ok. rewrite Hsz. lia.
Qed.

Lemma loop_body_buffer_ok (chunk : bytes) (st : state DB) :
  buffer_ok st -> chunk <> [] ->
  buffer_ok
    (snd (loop_body sqlite3_exec w verbose prompt junk chunk
            (Z.of_nat (length chunk)) st)).
Proof.
  intros Hok Hne. rewrite (loop_body_eq chunk st Hok Hne).
  destruct (Ascii.eqb _ LF).
  - apply dispatch_buffer_ok.
  - unfold buffer_ok. cbn. lia.
Qed.

End Reader.

(** ** Requests cut into chunks *)

Lemma is_request_inv (r : bytes) :
  is_request r = true ->
  exists body, r = body ++ [LF] /\ no_newline body = true
               /\ plain body = true.
Proof.
  unfold is_request. intros H.
  destruct (rev r) as [|c b] eqn:E; [discriminate H|].
  apply andb_true_iff in H as [H Hp]. apply andb_true_iff in H as [Hc Hn].
  apply Ascii.eqb_eq in Hc. subst c.
  exists (rev b). repeat split.
  - rewrite <- (rev_involutive r), E. reflexivity.
  - unfold no_newline in *. rewrite forallb_forall in *.
    intros x Hx. apply Hn. now apply in_rev.
  - unfold plain in *. rewrite forallb_forall in *.
    intros x Hx. apply Hp. now apply in_rev.
Qed.

Lemma is_request_plain (r : bytes) : is_request r = true -> plain r = true.
Proof.
  intros H. destruct (is_request_inv r H) as (b & -> & _ & Hp).
  rewrite plain_app, Hp. reflexivity.
Qed.

Lemma no_newline_app (a b : bytes) :
  no_newline (a ++ b) = no_newline a && no_newline b.
Proof. apply forallb_app. Qed.

Lemma is_chunk_nonempty (c : bytes) : is_chunk c = true -> c <> [].
Proof. intros H ->. discriminate H. Qed.

Lemma no_newline_last (s : bytes) :
  s <> [] -> no_newline s = true -> Ascii.eqb (last_char s) LF = false.
Proof.
  intros Hs Hn. destruct (exists_last Hs) as (a & c & ->).
  unfold last_char. rewrite last_last.
  unfold no_newline in Hn. rewrite forallb_app in Hn.
  apply andb_true_iff in Hn as [_ Hc]. simpl in Hc.
  now destruct (Ascii.eqb c LF).
Qed.

(** A first chunk that is not the whole request lies inside its body. *)
Lemma split_request (c t body : bytes) :
  c ++ t = body ++ [LF] -> t <> [] ->
  exists body', t = body' ++ [LF] /\ body = c ++ body'.
Proof.
  intros E Ht. destruct (exists_last Ht) as (t' & x & ->).
  rewrite app_assoc in E. apply app_inj_tail in E as [E ->].
  exists t'. split; [reflexivity|now symmetry].
Qed.

Section Requests.
Context {DB : Type}.
Variable sqlite3_exec : DB -> bytes -> exec_result DB.
Variable w : nat -> Z -> bytes -> Z.
Variables verbose prompt : bool.
Variable junk : ascii.

Local Abbreviation read_loop' := (read_loop sqlite3_exec w verbose prompt junk).
Local Abbreviation dispatch' := (dispatch sqlite3_exec w verbose prompt junk).
Local Abbreviation loop_body' := (loop_body sqlite3_exec w verbose prompt junk).

Lemma read_loop_chunk (chunk : bytes) (rest : list read_result)
    (st : state DB) :
  chunk <> [] ->
  read_loop' (ReadBytes chunk :: rest) st
  = let '(e1, st1) := loop_body' chunk (Z.of_nat (length chunk)) st in
    let '(e2, st2) := read_loop' rest st1 in
    (e1 ++ e2, st2).
Proof.
  intros Hne. cbn [read_loop read_sz read_buffer].
  destruct (Z.gtb_spec (Z.of_nat (length chunk)) 0) as [H|H]; [reflexivity|].
  destruct chunk; [congruence|simpl in H; lia].
Qed.

(** The reads of one request, whatever the cut, end in one dispatch of the
    whole request. *)
Lemma read_loop_request (chunks : list bytes) (body : bytes)
    (rest : list read_result) (st : state DB) :
  buffer_ok st ->
  concat chunks = body ++ [LF] ->
  no_newline body = true -> plain body = true ->
  Forall (fun c => c <> []) chunks ->
  read_loop' (map ReadBytes chunks ++ rest) st
  = let block := pending st ++ body ++ [LF] in
    let '(e1, st1) := dispatch' block (Z.of_nat (length block)) st in
    let '(e2, st2) := read_loop' rest st1 in
    (e1 ++ e2, st2).
Proof.
  revert body st. induction chunks as [|c chunks IH];
    intros body st Hok Hcat Hnl Hpl Hne.
  - destruct body; discriminate Hcat.
  - inversion Hne as [|? ? Hc Hrest]; subst.
    cbn [map app]. rewrite (read_loop_chunk c _ st Hc).
    rewrite (loop_body_eq sqlite3_exec w verbose prompt junk c st Hok Hc).
    cbn [concat] in Hcat.
    destruct chunks as [|c' chunks'].
    + cbn [concat] in Hcat. rewrite app_nil_r in Hcat. subst c.
      assert (Ha : appended (body ++ [LF]) = body ++ [LF]).
      { apply appended_plain. rewrite plain_app, Hpl. reflexivity. }
      rewrite Ha. unfold last_char. rewrite last_last, Ascii.eqb_refl.
      reflexivity.
    + assert (Ht : concat (c' :: chunks') <> []).
      { inversion Hrest; subst. cbn [concat]. intros E.
        apply app_eq_nil in E. tauto. }
      destruct (split_request _ _ _ Hcat Ht) as (body' & Hcat' & ->).
      rewrite no_newline_app in Hnl. rewrite plain_app in Hpl.
      apply andb_true_iff in Hnl as [Hnc Hnb].
      apply andb_true_iff in Hpl as [Hpc Hpb].
      rewrite (appended_plain c Hpc).
      rewrite (no_newline_last c Hc Hnc).
      set (st1 := with_buffer st _ _).
      assert (Hok1 : buffer_ok st1).
      { unfold buffer_ok, st1. cbn. lia. }
      rewrite (IH body' st1 Hok1 Hcat' Hnb Hpb Hrest).
      assert (Hp1 : pending st1 = pending st ++ c).
      { unfold pending, st1. cbn [offload_buffer_sz offload_buffer with_buffer].
        rewrite Nat2Z.id. apply firstn_all. }
      rewrite Hp1. unfold st1. rewrite dispatch_with_buffer.
      rewrite <- !app_assoc. cbv zeta.
      destruct (dispatch' _ _ st) as [e1 s1].
      destruct (read_loop' rest s1) as [e2 s2]. reflexivity.
Qed.

End Requests.

(** ** What one dispatch puts on the wire *)

Lemma answer_line_terminal {DB : Type} (id : Z) (r : exec_result DB) :
  0 <= id ->
  is_terminal (answer_line id r) = true /\ is_data (answer_line id r) = false
  /\ is_prompt (answer_line id r) = false
  /\ line_id (answer_line id r) = Some id.
Proof.
  intros Hid. unfold answer_line.
  destruct (rc r =? SQLITE_OK);
    [destruct (classify_line id OK [] Hid) as (-> & -> & -> & ->)
    |destruct (classify_line id ERR (c_str (errmsg r)) Hid)
       as (-> & -> & -> & ->)];
    repeat split.
Qed.

Lemma is_data_not_terminal (lines : list bytes) :
  forallb is_data lines = true ->
  filter is_terminal lines = [] /\ filter is_prompt lines = []
  /\ filter is_data lines = lines
  /\ filter (fun l => negb (is_data l)) lines = [].
Proof.
  induction lines as [|l lines IH]; [repeat split|].
  cbn [forallb filter]. intros H. apply andb_true_iff in H as [Hl Hs].
  destruct (IH Hs) as (I1 & I2 & I3 & I4).
  rewrite Hl, I1, I2, I3, I4.
  assert (Ht : is_terminal l = false).
  { unfold is_data in Hl. unfold is_terminal.
    destruct (parse_line l) as [[[i c] p]|]; [|reflexivity].
    destruct c; (reflexivity || discriminate Hl). }
  assert (Hp : is_prompt l = false).
  { unfold is_prompt.
    destruct (list_eq_dec ascii_dec l prompt_text) as [E|E];
      [subst l; discriminate Hl|reflexivity]. }
  rewrite Ht, Hp. repeat split.
Qed.

Section Wire.
Context {DB : Type}.
Variable sqlite3_exec : DB -> bytes -> exec_result DB.
Variable w : nat -> Z -> bytes -> Z.
Variables verbose prompt : bool.
Variable junk : ascii.

Local Abbreviation dispatch' := (dispatch sqlite3_exec w verbose prompt junk).

(** The writes of one dispatch: the DATA lines of the rows, the terminal
    line, the prompt. *)
Lemma dispatch_writes (block : bytes) (st : state DB) :
  let id := wrap32 (req st + 1) in
  let r := sqlite3_exec (db st) (c_str block) in
  socket_writes (fst (dispatch' block (Z.of_nat (length block)) st))
  = concat (map (row_lines id) (delivered r))
      ++ answer_line id r :: (if prompt then [prompt_text] else []).
Proof.
  intros id r.
  destruct (dispatch_shape sqlite3_exec w verbose prompt junk block _ st
              eq_refl)
    as (b & ret & a & E & _ & Hb & _ & _ & Ha & _).
  rewrite E, socket_writes_app. cbn [socket_writes]. now rewrite Hb, Ha.
Qed.

Lemma dispatch_data_lines (block : bytes) (st : state DB) :
  forallb is_data
    (concat (map (row_lines (wrap32 (req st + 1)))
               (delivered (sqlite3_exec (db st) (c_str block))))) = true.
Proof.
  destruct (dispatch_shape sqlite3_exec w verbose prompt junk block _ st
              eq_refl)
    as (b & ret & a & _ & _ & Hb & Hd & _).
  now rewrite <- Hb.
Qed.

Lemma dispatch_execs (block : bytes) (st : state DB) :
  execs (fst (dispatch' block (Z.of_nat (length block)) st))
  = [(c_str block, wrap32 (req st + 1))].
Proof.
  destruct (dispatch_shape sqlite3_exec w verbose prompt junk block _ st
              eq_refl)
    as (b & ret & a & E & Hb & _ & _ & _ & _ & Ha & _).
  rewrite E, execs_app. cbn [execs]. now rewrite Hb, Ha.
Qed.

Lemma dispatch_frees (block : bytes) (st : state DB) :
  let r := sqlite3_exec (db st) (c_str block) in
  frees (fst (dispatch' block (Z.of_nat (length block)) st))
  = if rc r =? SQLITE_OK then [] else [errmsg r].
Proof.
  intros r.
  destruct (dispatch_shape sqlite3_exec w verbose prompt junk block _ st
              eq_refl)
    as (b & ret & a & E & _ & _ & _ & Hb & _ & _ & Ha & _).
  rewrite E, frees_app. cbn [frees]. now rewrite Hb, Ha.
Qed.

Lemma dispatch_state (block : bytes) (st : state DB) :
  let d := dispatch' block (Z.of_nat (length block)) st in
  req (snd d) = wrap32 (req st + 1)
  /\ db (snd d) = next_db (sqlite3_exec (db st) (c_str block))
  /\ offload_buffer_sz (snd d) = 0
  /\ read_sockfd (snd d) = read_sockfd st.
Proof.
  destruct (dispatch_shape sqlite3_exec w verbose prompt junk block _ st
              eq_refl)
    as (b & ret & a & _ & _ & _ & _ & _ & _ & _ & _ & H1 & H2 & H3 & _ & H5).
  repeat split; assumption.
Qed.

Lemma dispatch_terminal_lines (block : bytes) (st : state DB) :
  terminal_lines (fst (dispatch' block (Z.of_nat (length block)) st))
  = [answer_line (wrap32 (req st + 1))
       (sqlite3_exec (db st) (c_str block))].
Proof.
  unfold terminal_lines. rewrite dispatch_writes. cbv zeta.
  rewrite filter_app. cbn [filter].
  destruct (is_data_not_terminal _ (dispatch_data_lines block st))
    as (-> & _).
  pose proof (wrap32_range (req st + 1)) as Hid.
  destruct (answer_line_terminal (wrap32 (req st + 1))
              (sqlite3_exec (db st) (c_str block)) ltac:(lia))
    as (-> & _).
  destruct prompt; reflexivity.
Qed.

Lemma dispatch_data (block : bytes) (st : state DB) :
  data_lines (fst (dispatch' block (Z.of_nat (length block)) st))
  = concat (map (row_lines (wrap32 (req st + 1)))
              (delivered (sqlite3_exec (db st) (c_str block)))).
Proof.
  unfold data_lines. rewrite dispatch_writes. cbv zeta.
  rewrite filter_app. cbn [filter].
  destruct (is_data_not_terminal _ (dispatch_data_lines block st))
    as (_ & _ & -> & _).
  pose proof (wrap32_range (req st + 1)) as Hid.
  destruct (answer_line_terminal (wrap32 (req st + 1))
              (sqlite3_exec (db st) (c_str block)) ltac:(lia))
    as (_ & -> & _).
  destruct prompt; cbn; now rewrite app_nil_r.
Qed.

(** With the DATA lines left out: the terminal line, then the prompt. *)
Lemma dispatch_control (block : bytes) (st : state DB) :
  filter (fun l => negb (is_data l))
    (socket_writes (fst (dispatch' block (Z.of_nat (length block)) st)))
  = answer_line (wrap32 (req st + 1)) (sqlite3_exec (db st) (c_str block))
      :: (if prompt then [prompt_text] else []).
Proof.
  rewrite dispatch_writes. cbv zeta.
  rewrite filter_app. cbn [filter].
  destruct (is_data_not_terminal _ (dispatch_data_lines block st))
    as (_ & _ & _ & ->).
  pose proof (wrap32_range (req st + 1)) as Hid.
  destruct (answer_line_terminal (wrap32 (req st + 1))
              (sqlite3_exec (db st) (c_str block)) ltac:(lia))
    as (_ & -> & _).
  destruct prompt; reflexivity.
Qed.

End Wire.

(** ** The read loop, for any reads *)

Section Loop.
Context {DB : Type}.
Variable sqlite3_exec : DB -> bytes -> exec_result DB.
Variable w : nat -> Z -> bytes -> Z.
Variables verbose prompt : bool.
Variable junk : ascii.

Local Abbreviation read_loop' :=
  (read_loop sqlite3_exec w verbose prompt junk).
Local Abbreviation dispatch' := (dispatch sqlite3_exec w verbose prompt junk).

(** A run of the read loop is a sequence of dispatches, between which the
    frame buffer grows: a property that holds at the end of the loop,
    ignores the growth of the buffer and is carried backwards over a
    dispatch holds of every run. *)
Lemma read_loop_induction
    (P : state DB -> list event -> state DB -> Prop) :
  (forall st, P st [] st) ->
  (forall st block n evs st',
      P (with_buffer st block n) evs st' -> P st evs st') ->
  (forall st block evs st',
      P (snd (dispatch' block (Z.of_nat (length block)) st)) evs st' ->
      P st (fst (dispatch' block (Z.of_nat (length block)) st) ++ evs) st') ->
  forall reads st, buffer_ok st ->
    P st (fst (read_loop' reads st)) (snd (read_loop' reads st)).
Proof.
  intros Hend Hcont Hdisp.
  induction reads as [|r reads IH]; intros st Hok; [apply Hend|].
  destruct r as [chunk|]; [|apply Hend].
  destruct chunk as [|c chunk]; [apply Hend|].
  set (ch := c :: chunk).
  assert (Hne : ch <> []) by discriminate.
  rewrite (read_loop_chunk sqlite3_exec w verbose prompt junk ch reads st Hne).
  pose proof (loop_body_buffer_ok sqlite3_exec w verbose prompt junk ch st
                Hok Hne) as Hok1.
  rewrite (loop_body_eq sqlite3_exec w verbose prompt junk ch st Hok Hne)
    in Hok1 |- *.
  cbv zeta in Hok1 |- *.
  destruct (Ascii.eqb (last_char (appended ch)) LF).
  - specialize (IH _ Hok1). apply Hdisp in IH.
    destruct (dispatch' _ _ st) as [e1 st1]. cbn [fst snd] in IH |- *.
    destruct (read_loop' reads st1) as [e2 st2]. exact IH.
  - specialize (IH _ Hok1). apply Hcont in IH.
    destruct (read_loop' reads _) as [e2 st2]. exact IH.
Qed.

(** Every [sqlite3_exec] gets the next request ID, and the counter ends on
    the last one. *)
Lemma read_loop_ids (reads : list read_result) (st : state DB) (a : Z) :
  buffer_ok st -> req st = wrap32 a ->
  let res := read_loop' reads st in
  map snd (execs (fst res)) = ids_from (a + 1) (length (execs (fst res)))
  /\ req (snd res) = wrap32 (a + Z.of_nat (length (execs (fst res)))).
Proof.
  intros Hok Ha. revert a Ha.
  apply (read_loop_induction
           (fun st evs st' => forall a, req st = wrap32 a ->
              map snd (execs evs) = ids_from (a + 1) (length (execs evs))
              /\ req st' = wrap32 (a + Z.of_nat (length (execs evs)))));
    [| | |exact Hok].
  - intros s a Ha. split; [reflexivity|]. rewrite Ha. simpl. f_equal. lia.
  - intros s block n evs s' H a Ha. now apply H.
  - intros s block evs s' H a Ha.
    destruct (dispatch_state sqlite3_exec w verbose prompt junk block s)
      as (Hreq & _).
    rewrite Ha, wrap32_succ in Hreq.
    destruct (H (a + 1) Hreq) as (H1 & H2).
    rewrite execs_app, dispatch_execs, Ha, wrap32_succ.
    cbn [app map snd length ids_from]. rewrite H1. split; [reflexivity|].
    rewrite H2. f_equal. lia.
Qed.

(** Every [sqlite3_exec] is answered by one terminal line, which carries
    its ID. *)
Lemma read_loop_terminal (reads : list read_result) (st : state DB) :
  buffer_ok st ->
  let res := read_loop' reads st in
  map line_id (terminal_lines (fst res))
  = map (fun e => Some (snd e)) (execs (fst res)).
Proof.
  intros Hok.
  apply (read_loop_induction
           (fun st evs st' =>
              map line_id (terminal_lines evs)
              = map (fun e => Some (snd e)) (execs evs)));
    [| | |exact Hok].
  - reflexivity.
  - intros s block n evs s' H. exact H.
  - intros s block evs s' H.
    rewrite terminal_lines_app, execs_app, !map_app, H.
    rewrite dispatch_terminal_lines, dispatch_execs. cbn [map snd].
    pose proof (wrap32_range (req s + 1)) as Hid.
    destruct (answer_line_terminal (wrap32 (req s + 1))
                (sqlite3_exec (db s) (c_str block)) ltac:(lia))
      as (_ & _ & _ & ->).
    reflexivity.
Qed.

(** With the DATA lines left out, what the loop writes is terminal lines,
    each followed by the prompt if it is enabled. *)
Lemma read_loop_control (reads : list read_result) (st : state DB) :
  buffer_ok st ->
  let res := read_loop' reads st in
  filter (fun l => negb (is_data l)) (socket_writes (fst res))
  = concat (map (fun t => t :: (if prompt then [prompt_text] else []))
              (terminal_lines (fst res))).
Proof.
  intros Hok.
  apply (read_loop_induction
           (fun st evs st' =>
              filter (fun l => negb (is_data l)) (socket_writes evs)
              = concat
                  (map (fun t => t :: (if prompt then [prompt_text] else []))
                     (terminal_lines evs))));
    [| | |exact Hok].
  - reflexivity.
  - intros s block n evs s' H. exact H.
  - intros s block evs s' H.
    rewrite socket_writes_app, filter_app, terminal_lines_app, map_app,
      concat_app, H.
    rewrite dispatch_control, dispatch_terminal_lines. cbn [map concat].
    now rewrite app_nil_r.
Qed.

(** The loop leaves the descriptor alone. *)
Lemma read_loop_sockfd (reads : list read_result) (st : state DB) :
  buffer_ok st ->
  read_sockfd (snd (read_loop' reads st)) = read_sockfd st.
Proof.
  intros Hok.
  apply (read_loop_induction
           (fun st evs st' => read_sockfd st' = read_sockfd st));
    [| | |exact Hok].
  - reflexivity.
  - intros s block n evs s' H. exact H.
  - intros s block evs s' H. rewrite H.
    apply (dispatch_state sqlite3_exec w verbose prompt junk block s).
Qed.

End Loop.

(** ** Connections *)

Lemma protocol_write_prompt : protocol_write prompt_text.
Proof. now left. Qed.

Lemma protocol_write_line (id : Z) (code : response) (payload : bytes) :
  0 <= id < UINT32_MODULUS -> (code = OK -> payload = []) ->
  protocol_write (response_line id code payload).
Proof. intros Hid Hp. right. now exists id, code, payload. Qed.

Section Connections.
Context {DB : Type}.
Variable sqlite3_exec : DB -> bytes -> exec_result DB.
Variable w : nat -> Z -> bytes -> Z.
Variables verbose prompt : bool.
Variable junk : ascii.

Local Abbreviation read_loop' :=
  (read_loop sqlite3_exec w verbose prompt junk).
Local Abbreviation dispatch' := (dispatch sqlite3_exec w verbose prompt junk).
Local Abbreviation serve' := (serve sqlite3_exec w verbose prompt junk).
Local Abbreviation event_loop' :=
  (event_loop sqlite3_exec w verbose prompt junk).

Lemma read_loop_form (reads : list read_result) (st : state DB) :
  buffer_ok st ->
  Forall protocol_write (socket_writes (fst (read_loop' reads st))).
Proof.
  intros Hok.
  apply (read_loop_induction sqlite3_exec w verbose prompt junk
           (fun st evs st' => Forall protocol_write (socket_writes evs)));
    [| | |exact Hok].
  - constructor.
  - intros s block n evs s' H. exact H.
  - intros s block evs s' H.
    rewrite socket_writes_app, dispatch_writes. cbv zeta.
    pose proof (wrap32_range (req s + 1)) as Hid.
    apply Forall_app. split; [|exact H].
    apply Forall_app. split.
    + apply Forall_concat, Forall_map, Forall_forall. intros r _.
      unfold row_lines. apply Forall_map, Forall_forall. intros cell _.
      apply protocol_write_line; [exact Hid|discriminate].
    + constructor.
      * unfold answer_line.
        destruct (rc _ =? SQLITE_OK);
          (apply protocol_write_line; [exact Hid|]);
          [reflexivity|discriminate].
      * destruct prompt; repeat constructor.
Qed.

Local Abbreviation entered' := (entered w prompt).

Lemma entered_ok (c : connection) (st : state DB) :
  buffer_ok (entered' c st) /\ req (entered' c st) = req st
  /\ db (entered' c st) = db st /\ pending (entered' c st) = []
  /\ read_sockfd (entered' c st) = conn_fd c.
Proof.
  unfold entered, SEND_PROMPT, buffer_ok, pending.
  destruct prompt; cbn; repeat split; lia.
Qed.

Lemma serve_eq (c : connection) (st : state DB) :
  serve' c st
  = ((if prompt
      then [EvWrite (conn_fd c) prompt_text
              (w (nwrites st) (conn_fd c) prompt_text)]
      else [])
       ++ fst (read_loop' (conn_reads c) (entered' c st))
       ++ dprintf verbose (str "Client disconnected." ++ [LF])
       ++ [EvClose (conn_fd c)],
     with_sockfd (snd (read_loop' (conn_reads c) (entered' c st))) 0).
Proof.
  unfold serve.
  pose proof (read_loop_sockfd sqlite3_exec w verbose prompt junk
                (conn_reads c) (entered' c st)
                (proj1 (entered_ok c st))) as Hfd.
  destruct (entered_ok c st) as (_ & _ & _ & _ & Hc). rewrite Hc in Hfd.
  unfold entered in *.
  unfold SEND_PROMPT in *. destruct prompt; cbn [fst snd] in *;
    match goal with
    | |- context [read_loop ?a ?b ?c ?d ?e ?f ?g] =>
        destruct (read_loop a b c d e f g) as [e2 st2]
    end;
    cbn [fst snd] in *; rewrite Hfd; reflexivity.
Qed.

Lemma serve_writes (c : connection) (st : state DB) :
  socket_writes (fst (serve' c st))
  = (if prompt then [prompt_text] else [])
      ++ socket_writes (fst (read_loop' (conn_reads c) (entered' c st))).
Proof.
  rewrite serve_eq. cbn [fst]. project_trace.
  rewrite app_nil_r. destruct prompt; reflexivity.
Qed.

Lemma serve_execs (c : connection) (st : state DB) :
  execs (fst (serve' c st))
  = execs (fst (read_loop' (conn_reads c) (entered' c st))).
Proof.
  rewrite serve_eq. cbn [fst]. project_trace.
  rewrite app_nil_r. destruct prompt; reflexivity.
Qed.

Lemma serve_terminal_lines (c : connection) (st : state DB) :
  terminal_lines (fst (serve' c st))
  = terminal_lines (fst (read_loop' (conn_reads c) (entered' c st))).
Proof.
  unfold terminal_lines. rewrite serve_writes, filter_app.
  destruct prompt; reflexivity.
Qed.

Lemma serve_ids (c : connection) (st : state DB) (a : Z) :
  req st = wrap32 a ->
  let res := serve' c st in
  map snd (execs (fst res)) = ids_from (a + 1) (length (execs (fst res)))
  /\ req (snd res) = wrap32 (a + Z.of_nat (length (execs (fst res)))).
Proof.
  intros Ha. cbv zeta. rewrite serve_execs.
  destruct (entered_ok c st) as (Hok & Hreq & _).
  rewrite <- Hreq in Ha.
  destruct (read_loop_ids sqlite3_exec w verbose prompt junk (conn_reads c)
              (entered' c st) a Hok Ha) as (H1 & H2).
  split; [exact H1|]. rewrite serve_eq. exact H2.
Qed.

Lemma ids_from_app (a : Z) (n m : nat) :
  ids_from a (n + m) = ids_from a n ++ ids_from (a + Z.of_nat n) m.
Proof.
  revert a; induction n as [|n IH]; intros a.
  - simpl. f_equal. lia.
  - cbn [Nat.add ids_from app]. rewrite IH. do 3 f_equal. lia.
Qed.

Lemma event_loop_ids (conns : list connection) (st : state DB) (a : Z) :
  req st = wrap32 a ->
  let res := event_loop' conns st in
  map snd (execs (fst res)) = ids_from (a + 1) (length (execs (fst res)))
  /\ req (snd res) = wrap32 (a + Z.of_nat (length (execs (fst res)))).
Proof.
  revert st a. induction conns as [|c conns IH]; intros st a Ha.
  - cbn. split; [reflexivity|]. rewrite Ha. f_equal. lia.
  - cbn [event_loop].
    destruct (serve_ids c st a Ha) as (S1 & S2).
    destruct (serve' c st) as [e1 st1]. cbn [fst snd] in S1, S2.
    specialize (IH st1 _ S2).
    destruct (event_loop' conns st1) as [e2 st2]. cbn [fst snd] in IH |- *.
    destruct IH as (I1 & I2).
    rewrite execs_app, map_app, length_app, ids_from_app, S1, I1.
    split; [do 2 f_equal; lia|]. rewrite I2. f_equal. lia.
Qed.

Lemma event_loop_form (conns : list connection) (st : state DB) :
  Forall protocol_write (socket_writes (fst (event_loop' conns st))).
Proof.
  revert st. induction conns as [|c conns IH]; intros st; [constructor|].
  cbn [event_loop].
  pose proof (serve_writes c st) as Hs.
  pose proof (read_loop_form (conn_reads c) (entered' c st)
                (proj1 (entered_ok c st))) as Hr.
  destruct (serve' c st) as [e1 st1]. cbn [fst] in Hs.
  specialize (IH st1). destruct (event_loop' conns st1) as [e2 st2].
  cbn [fst] in IH |- *. rewrite socket_writes_app, Hs.
  apply Forall_app. split; [|exact IH].
  apply Forall_app. split; [|exact Hr].
  destruct prompt; repeat constructor.
Qed.

End Connections.

(** * The properties of the protocol description *)

(** ** The response writer (C10, C2) *)

Lemma fmt_d_code_length (code : response) :
  (length (fmt_d (response_value code)) <= 2)%nat.
Proof. destruct code; cbn; lia. Qed.

(** C10.  For every request ID of type [uint32_t], every status code and
    every payload, the block [transmit] allocates (10 characters for the
    ID, 2 for the code, the two [": "] separators, the length of the
    payload, the newline and the NUL) is at least as long as what [sprintf]
    then stores into it, NUL included; the block still has its allocated
    length after the store, so nothing is written past its end. *)
Theorem transmit_allocation_suffices (junk : ascii) (id : Z)
    (code : response) (data : bytes) :
  0 <= id < UINT32_MODULUS ->
  Z.of_nat (length (transmit_sprintf id code data)) <= transmit_size data
  /\ length (store (xrealloc junk [] (transmit_size data)) 0
               (transmit_sprintf id code data))
     = Z.to_nat (transmit_size data).
Proof.
  intros Hid.
  assert (Hlen : Z.of_nat (length (transmit_sprintf id code data))
                 <= transmit_size data).
  { unfold transmit_sprintf, transmit_size, strlen.
    rewrite !length_app.
    pose proof (fmt_u_length id Hid). pose proof (fmt_d_code_length code).
    change (length (c_str (str ": "))) with 2%nat.
    change (length (str ": ")) with 2%nat.
    cbn [length]. lia. }
  split; [exact Hlen|].
  unfold store. cbn [Z.to_nat firstn app Nat.add].
  rewrite length_app, length_skipn, xrealloc_length. lia.
Qed.

Lemma transmit_allocation_suffices_witness :
  Z.of_nat (length (transmit_sprintf 4294967295 ERR (str "no such table")))
  <= transmit_size (str "no such table")
  /\ length (store (xrealloc "?"%char [] (transmit_size (str "no such table")))
               0 (transmit_sprintf 4294967295 ERR (str "no such table")))
     = Z.to_nat (transmit_size (str "no such table")).
Proof.
  apply (transmit_allocation_suffices "?"%char 4294967295 ERR
           (str "no such table")).
  unfold UINT32_MODULUS. lia.
Defined.

(** C2.  Every buffer the server hands to [write] is the prompt or a
    response line ["<id>: <code>: <payload>\n"]: the request ID in decimal,
    the status code in decimal (OK is 0, ERR is -1, DATA is 1), the
    payload, which is empty for OK, and a newline.  [transmit] writes
    exactly this line for its three arguments, and a client that reads the
    line as decimal ID, code and rest finds them back. *)
Theorem response_wire_format {DB : Type}
    (sqlite3_exec : DB -> bytes -> exec_result DB)
    (w : nat -> Z -> bytes -> Z) (verbose prompt : bool) (junk : ascii) :
  (forall id code data (st : state DB),
      socket_writes (snd (fst (transmit w verbose junk id code data st)))
      = [fmt_u id ++ str ": " ++ fmt_d (response_value code) ++ str ": "
           ++ c_str data ++ [LF]])
  /\ (forall db0 conns,
         Forall protocol_write
           (socket_writes
              (fst (alfred sqlite3_exec w verbose prompt junk db0 conns))))
  /\ (forall id code payload,
         parse_line (response_line (wrap32 id) code payload)
         = Some (wrap32 id, code, payload ++ [LF]))
  /\ map response_value [OK; ERR; DATA] = [0; -1; 1]
  /\ response_line 1 OK [] = str "1: 0: " ++ [LF]
  /\ response_line 2 ERR (str "syntax error")
     = str "2: -1: syntax error" ++ [LF]
  /\ response_line 4294967295 DATA (str "1 = 1")
     = str "4294967295: 1: 1 = 1" ++ [LF].
Proof.
  split; [|split; [|split; [|repeat split]]].
  - intros id code data st. rewrite transmit_eq. cbn [fst snd socket_writes].
    destruct (_ <? 0); [rewrite socket_writes_dprintf|]; reflexivity.
  - intros db0 conns. apply event_loop_form.
  - intros id code payload. apply parse_response_line.
    apply wrap32_range.
Qed.

(** ** Rows and terminal messages (C3, C4) *)

(** C3.  For every row SQLite delivers, [callback] writes one DATA message
    per column, in column order, each with the payload
    ["<column-name> = <value>"] (the text [NULL] for a null value) and the
    ID it was called with; there are as many messages as columns, so no two
    columns share one.  The DATA lines of a request are those of its rows,
    in order, and all carry the ID of the request. *)
Theorem row_encoding {DB : Type}
    (sqlite3_exec : DB -> bytes -> exec_result DB)
    (w : nat -> Z -> bytes -> Z) (verbose prompt : bool) (junk : ascii) :
  (forall arg (r : row) (st : state DB),
      let res := callback w verbose junk arg r st in
      socket_writes (snd (fst res))
      = map (fun cell =>
               response_line (wrap32 arg) DATA
                 (c_str (fst cell) ++ str " = "
                    ++ match snd cell with
                       | Some v => c_str v
                       | None => str "NULL"
                       end)) r
      /\ length (socket_writes (snd (fst res))) = length r
      /\ fst (fst res) = 0)
  /\ (forall block (st : state DB),
         data_lines
           (fst (dispatch sqlite3_exec w verbose prompt junk block
                   (Z.of_nat (length block)) st))
         = concat
             (map (row_lines (wrap32 (req st + 1)))
                (delivered (sqlite3_exec (db st) (c_str block))))).
Proof.
  split.
  - intros arg r st res.
    assert (H : socket_writes (snd (fst res)) = row_lines (wrap32 arg) r).
    { unfold res, callback.
      pose proof (callback_loop_spec w verbose junk arg r [] st) as H.
      cbv zeta in H. destruct (callback_loop w verbose junk arg r [] st).
      apply H. }
    rewrite H. unfold row_lines. rewrite length_map.
    repeat split. unfold res, callback.
    now destruct (callback_loop w verbose junk arg r [] st).
  - intros block st. apply dispatch_data.
Qed.

(** C4.  Once [sqlite3_exec] has returned, the dispatcher writes exactly
    one terminal message for the request: OK with an empty payload when the
    call succeeded; ERR with SQLite's message as payload when it failed,
    and then the message is handed to [sqlite3_free] (once, after the
    write).  Nothing is freed on success. *)
Theorem terminal_message {DB : Type}
    (sqlite3_exec : DB -> bytes -> exec_result DB)
    (w : nat -> Z -> bytes -> Z) (verbose prompt : bool) (junk : ascii)
    (block : bytes) (st : state DB) :
  let id := wrap32 (req st + 1) in
  let r := sqlite3_exec (db st) (c_str block) in
  let answer :=
    if rc r =? SQLITE_OK then response_line id OK []
    else response_line id ERR (c_str (errmsg r)) in
  exists before ret after,
    fst (dispatch sqlite3_exec w verbose prompt junk block
           (Z.of_nat (length block)) st)
    = before ++ EvWrite (read_sockfd st) answer ret :: after
    /\ execs before = [(c_str block, id)] /\ execs after = []
    /\ is_terminal answer = true
    /\ terminal_lines before = [] /\ terminal_lines after = []
    /\ frees before = []
    /\ frees after = (if rc r =? SQLITE_OK then [] else [errmsg r]).
Proof.
  intros id r answer.
  destruct (dispatch_shape sqlite3_exec w verbose prompt junk block _ st
              eq_refl)
    as (b & ret & a & E & Hbe & Hbw & Hbd & Hbf & Haw & Hae & Haf & _).
  exists b, ret, a. fold id r in E, Hbe, Hbw, Haf.
  pose proof (wrap32_range (req st + 1)) as Hid. fold id in Hid.
  destruct (answer_line_terminal id r ltac:(lia)) as (Ht & _).
  repeat split; try assumption.
  - unfold terminal_lines.
    now destruct (is_data_not_terminal _ Hbd) as (-> & _).
  - unfold terminal_lines. rewrite Haw. now destruct prompt.
Qed.

(** ** Frames (C5) *)

Lemma delivers_nonempty (chunks : list bytes) (r : bytes) :
  delivers chunks r -> Forall (fun c => c <> []) chunks.
Proof.
  intros [_ H]. apply Forall_forall. intros c Hc.
  rewrite forallb_forall in H. now apply is_chunk_nonempty, H.
Qed.




(** ** The request counter and the prompt (C7, C9) *)

(** C7.  The request counter starts at 0 when the process starts and lives
    as long as the process: over all the connections of a run, the
    successive calls of [sqlite3_exec] get the IDs 1, 2, 3, ... reduced
    modulo 2^32, and the counter ends on their number.  The increment comes
    before the dispatch and wraps around: the request that follows ID
    4294967295 gets ID 0. *)
Theorem request_counter {DB : Type}
    (sqlite3_exec : DB -> bytes -> exec_result DB)
    (w : nat -> Z -> bytes -> Z) (verbose prompt : bool) (junk : ascii) :
  (forall db0 conns,
      let res := alfred sqlite3_exec w verbose prompt junk db0 conns in
      map snd (execs (fst res)) = ids_from 1 (length (execs (fst res)))
      /\ req (snd res) = wrap32 (Z.of_nat (length (execs (fst res)))))
  /\ (forall n, ids_from 1 (S n) = 1 :: ids_from 2 n)
  /\ (forall block (st : state DB),
         let res := dispatch sqlite3_exec w verbose prompt junk block
                      (Z.of_nat (length block))
                      (with_req st 4294967295) in
         execs (fst res) = [(c_str block, 0)]
         /\ map line_id (terminal_lines (fst res)) = [Some 0]
         /\ req (snd res) = 0)
  /\ (forall block (st : state DB),
         let res := dispatch sqlite3_exec w verbose prompt junk block
                      (Z.of_nat (length block)) st in
         execs (fst res) = [(c_str block, wrap32 (req st + 1))]
         /\ req (snd res) = wrap32 (req st + 1)).
Proof.
  repeat split.
  - apply (event_loop_ids sqlite3_exec w verbose prompt junk conns
             (startup db0) 0 eq_refl).
  - apply (event_loop_ids sqlite3_exec w verbose prompt junk conns
             (startup db0) 0 eq_refl).
  - apply (dispatch_execs sqlite3_exec w verbose prompt junk block
             (with_req st 4294967295)).
  - rewrite dispatch_terminal_lines. cbn [map].
    now destruct (answer_line_terminal
                    (wrap32 (req (with_req st 4294967295) + 1))
                    (sqlite3_exec (db (with_req st 4294967295)) (c_str block))
                    ltac:(cbn; lia))
      as (_ & _ & _ & ->).
  - apply (dispatch_state sqlite3_exec w verbose prompt junk block
             (with_req st 4294967295)).
  - apply dispatch_execs.
  - apply dispatch_state.
Qed.

Lemma prompt_filter (lines : list bytes) :
  filter is_prompt lines
  = filter is_prompt (filter (fun l => negb (is_data l)) lines).
Proof.
  induction lines as [|l lines IH]; [reflexivity|].
  cbn [filter]. destruct (is_data l) eqn:Hd; cbn [negb filter].
  - assert (Hp : is_prompt l = false).
    { unfold is_prompt.
      destruct (list_eq_dec ascii_dec l prompt_text) as [E|E];
        [subst l; discriminate Hd|reflexivity]. }
    now rewrite Hp.
  - now rewrite IH.
Qed.

Lemma prompts_after_terminals (p : bool) (lines : list bytes) :
  forallb is_terminal lines = true ->
  filter is_prompt
    (concat (map (fun t => t :: (if p then [prompt_text] else [])) lines))
  = if p then repeat prompt_text (length lines) else [].
Proof.
  induction lines as [|l lines IH]; [now destruct p|].
  cbn [forallb]. intros H. apply andb_true_iff in H as [Hl Hs].
  cbn [map concat]. rewrite filter_app, (IH Hs).
  assert (Hp : is_prompt l = false).
  { unfold is_prompt.
    destruct (list_eq_dec ascii_dec l prompt_text) as [E|E];
      [subst l; discriminate Hl|reflexivity]. }
  cbn [filter]. rewrite Hp. now destruct p.
Qed.

Lemma terminal_lines_terminal (evs : list event) :
  forallb is_terminal (terminal_lines evs) = true.
Proof.
  unfold terminal_lines. apply forallb_forall. intros l Hl.
  now apply filter_In in Hl.
Qed.

(** C9.  With the DATA lines left out, what the server writes on a
    connection is: the prompt [">"], [" "] (two characters, no newline) if
    it is enabled, and then each terminal message, followed by the prompt
    if it is enabled.  So an enabled prompt is written once before the
    first request and once after each terminal message, and nowhere else;
    a disabled prompt is never written. *)
Theorem prompt_discipline {DB : Type}
    (sqlite3_exec : DB -> bytes -> exec_result DB)
    (w : nat -> Z -> bytes -> Z) (verbose prompt : bool) (junk : ascii)
    (c : connection) (st : state DB) :
  let evs := fst (serve sqlite3_exec w verbose prompt junk c st) in
  let prompt_write := if prompt then [prompt_text] else [] in
  filter (fun l => negb (is_data l)) (socket_writes evs)
  = prompt_write
      ++ concat (map (fun t => t :: prompt_write) (terminal_lines evs))
  /\ prompts evs
     = (if prompt then repeat prompt_text (1 + length (terminal_lines evs))
        else [])
  /\ prompt_text = [">"; " "]%char.
Proof.
  intros evs prompt_write.
  assert (H : filter (fun l => negb (is_data l)) (socket_writes evs)
              = prompt_write
                  ++ concat (map (fun t => t :: prompt_write)
                               (terminal_lines evs))).
  { unfold evs. rewrite serve_writes, serve_terminal_lines, filter_app.
    rewrite (read_loop_control sqlite3_exec w verbose prompt junk
               (conn_reads c) (entered w prompt c st)
               (proj1 (entered_ok w prompt c st))).
    unfold prompt_write. now destruct prompt. }
  split; [exact H|split; [|reflexivity]].
  unfold prompts. rewrite prompt_filter, H, filter_app.
  unfold prompt_write.
  rewrite (prompts_after_terminals prompt _ (terminal_lines_terminal evs)).
  now destruct prompt.
Qed.

(** ** Requests in order (C1) *)

Lemma ids_from_wrap (a b : Z) (n : nat) :
  wrap32 a = wrap32 b -> ids_from a n = ids_from b n.
Proof.
  revert a b; induction n as [|n IH]; intros a b H; [reflexivity|].
  cbn [ids_from]. rewrite H. f_equal. apply IH.
  now rewrite <- (wrap32_succ a), <- (wrap32_succ b), H.
Qed.

Lemma map_snd_combine {A B : Type} (l : list A) (l' : list B) :
  length l = length l' -> map snd (combine l l') = l'.
Proof.
  revert l'; induction l as [|x l IH]; intros [|y l'] H;
    try discriminate H; [reflexivity|].
  cbn. f_equal. apply IH. now injection H.
Qed.

Lemma ids_from_length (a : Z) (n : nat) : length (ids_from a n) = n.
Proof. revert a; induction n as [|n IH]; intros a; cbn; auto. Qed.

Section Ordering.
Context {DB : Type}.
Variable sqlite3_exec : DB -> bytes -> exec_result DB.
Variable w : nat -> Z -> bytes -> Z.
Variables verbose prompt : bool.
Variable junk : ascii.

Local Abbreviation read_loop' :=
  (read_loop sqlite3_exec w verbose prompt junk).

(** Requests that arrive one after the other, each in reads of its own,
    are executed one after the other. *)
Lemma read_loop_requests (requests : list bytes)
    (deliveries : list (list bytes)) (st : state DB) :
  buffer_ok st -> pending st = [] ->
  Forall (fun r => is_request r = true) requests ->
  Forall2 delivers deliveries requests ->
  execs (fst (read_loop' (map ReadBytes (concat deliveries)) st))
  = combine requests (ids_from (req st + 1) (length requests)).
Proof.
  intros Hok Hp Hreq Hdel. revert st Hok Hp Hreq.
  induction Hdel as [|chunks r deliveries requests Hd Hdel IH];
    intros st Hok Hp Hreq; [reflexivity|].
  inversion Hreq as [|? ? Hr Hreq']; subst.
  destruct (is_request_inv r Hr) as (body & -> & Hnl & Hpl).
  cbn [concat]. rewrite map_app.
  rewrite (read_loop_request sqlite3_exec w verbose prompt junk chunks body
             _ st Hok (proj1 Hd) Hnl Hpl (delivers_nonempty _ _ Hd)).
  rewrite Hp. cbn [app]. cbv zeta.
  set (block := body ++ [LF]).
  destruct (dispatch_state sqlite3_exec w verbose prompt junk block st)
    as (Hid & _ & Hsz & _).
  pose proof (dispatch_execs sqlite3_exec w verbose prompt junk block st)
    as Hex.
  pose proof (dispatch_buffer_ok sqlite3_exec w verbose prompt junk block st)
    as Hok1.
  destruct (dispatch sqlite3_exec w verbose prompt junk block _ st)
    as [e1 st1].
  cbn [fst snd] in *.
  assert (Hp1 : pending st1 = []) by (unfold pending; now rewrite Hsz).
  specialize (IH st1 Hok1 Hp1 Hreq').
  destruct (read_loop' _ st1) as [e2 st2]. cbn [fst] in IH |- *.
  rewrite execs_app, Hex, IH.
  assert (Hb : c_str block = block).
  { apply c_str_plain. unfold block. rewrite plain_app, Hpl. reflexivity. }
  rewrite Hb, Hid. cbn [length ids_from combine app].
  do 2 f_equal. apply ids_from_wrap. now rewrite wrap32_succ.
Qed.

End Ordering.



(** C1.  The server does not answer every newline-terminated request.  Two
    requests that one [read] returns together -- a client that does not
    wait for the answer to the first before it sends the second -- are
    handed to [sqlite3_exec] as one query, under one ID, and get one
    terminal message, where the same two requests in a read each get two,
    with the IDs 1 and 2.  The loop looks for the newline at the end of
    what a [read] returned only, although the header of [main.c] says that
    every newline-terminated block of text is a query with an ID of its
    own, and reckons with clients that do not throttle themselves. *)
Theorem two_requests_in_one_read :
  let together :=
    fst (serve toy_exec write_all false true "?"%char
           (mk_connection 4
              [ReadBytes (str "INSERT 1;" ++ [LF] ++ str "INSERT 2;" ++ [LF])])
           (startup 0%nat)) in
  let apart :=
    fst (serve toy_exec write_all false true "?"%char
           (mk_connection 4
              [ReadBytes (str "INSERT 1;" ++ [LF]);
               ReadBytes (str "INSERT 2;" ++ [LF])])
           (startup 0%nat)) in
  execs together
  = [(str "INSERT 1;" ++ [LF] ++ str "INSERT 2;" ++ [LF], 1)]
  /\ socket_writes together
     = [prompt_text; str "1: 0: " ++ [LF]; prompt_text]
  /\ map line_id (terminal_lines together) = [Some 1]
  /\ execs apart
     = [(str "INSERT 1;" ++ [LF], 1); (str "INSERT 2;" ++ [LF], 2)]
  /\ map line_id (terminal_lines apart) = [Some 1; Some 2].
Proof. repeat split. Qed.

(** So it is not true that, whatever way the reads cut the stream of
    requests, the connection gets one terminal message per request. *)
Lemma coalesced_requests_get_one_answer :
  ~ one_answer_per_request toy_exec write_all false true "?"%char.
Proof.
  intros H.
  specialize (H [str "INSERT 1;" ++ [LF]; str "INSERT 2;" ++ [LF]]
                [str "INSERT 1;" ++ [LF] ++ str "INSERT 2;" ++ [LF]]
                4 (startup 0%nat)).
  assert (Hreq : Forall (fun r => is_request r = true)
                   [str "INSERT 1;" ++ [LF]; str "INSERT 2;" ++ [LF]])
    by (repeat constructor).
  specialize (H Hreq eq_refl eq_refl).
  vm_compute in H. discriminate H.
Qed.

(** ** The descriptor of a connection *)

Lemma data_event_on_connection (fd : Z) (evs : list event) :
  forallb (data_event fd) evs = true ->
  forallb (on_connection fd) evs = true.
Proof.
  induction evs as [|e evs IH]; [reflexivity|].
  cbn [forallb]. intros H. apply andb_true_iff in H as [He Hs].
  rewrite (IH Hs), andb_true_r.
  destruct e; try discriminate He; [|reflexivity].
  cbn [data_event on_connection] in *.
  now apply andb_true_iff in He as [He _].
Qed.

Lemma dprintf_on_connection (v : bool) (fd : Z) (text : bytes) :
  forallb (on_connection fd) (dprintf v text) = true.
Proof. unfold dprintf. now destruct v. Qed.

Section Segments.
Context {DB : Type}.
Variable sqlite3_exec : DB -> bytes -> exec_result DB.
Variable w : nat -> Z -> bytes -> Z.
Variables verbose prompt : bool.
Variable junk : ascii.

Lemma transmit_on_connection (id : Z) (code : response) (data : bytes)
    (st : state DB) :
  forallb (on_connection (read_sockfd st))
    (snd (fst (transmit w verbose junk id code data st))) = true.
Proof.
  rewrite transmit_eq. cbn [fst snd forallb on_connection].
  rewrite Z.eqb_refl. cbn [andb].
  destruct (_ <? 0); [apply dprintf_on_connection|reflexivity].
Qed.

Lemma SEND_PROMPT_on_connection (st : state DB) :
  forallb (on_connection (read_sockfd st)) (fst (SEND_PROMPT w prompt st))
  = true.
Proof.
  unfold SEND_PROMPT. destruct prompt; [|reflexivity].
  cbn [fst forallb on_connection]. now rewrite Z.eqb_refl.
Qed.

Lemma dispatch_on_connection (block : bytes) (n : Z) (st : state DB) :
  forallb (on_connection (read_sockfd st))
    (fst (dispatch sqlite3_exec w verbose prompt junk block n st)) = true.
Proof.
  unfold dispatch, exec. cbv zeta.
  set (blk := store _ n [NUL]).
  set (st0 := with_req _ _).
  set (r := sqlite3_exec (db st0) (c_str blk)).
  destruct (deliver_spec w verbose junk (req st0) (delivered r) st0)
    as (_ & D & (_ & _ & _ & Hfd & _)).
  apply data_event_on_connection in D.
  change (read_sockfd st0) with (read_sockfd st) in D, Hfd.
  destruct (deliver w verbose junk (req st0) (delivered r) st0) as [e1 s1].
  cbn [fst snd] in D, Hfd.
  set (s := with_db s1 (next_db r)).
  assert (Hs : read_sockfd s = read_sockfd st) by (symmetry; exact Hfd).
  destruct (negb (rc r =? SQLITE_OK)).
  - pose proof (transmit_on_connection (req s) ERR (errmsg r) s) as T.
    pose proof (transmit_eq w verbose junk (req s) ERR (errmsg r) s) as E.
    destruct (transmit w verbose junk (req s) ERR (errmsg r) s)
      as [[n1 t1] u1].
    injection E as _ _ ->. cbn [fst snd] in T. rewrite Hs in T.
    pose proof (SEND_PROMPT_on_connection
                  (with_buffer (one_more_write s)
                     (offload_buffer (one_more_write s)) 0)) as P.
    change (read_sockfd (with_buffer _ _ _)) with (read_sockfd s) in P.
    rewrite Hs in P.
    destruct (SEND_PROMPT w prompt _) as [p1 v1]. cbn [fst] in P |- *.
    rewrite !forallb_app, !dprintf_on_connection. cbn [forallb on_connection].
    rewrite ?forallb_app, D, T, P. reflexivity.
  - pose proof (transmit_on_connection (req s) OK (str "") s) as T.
    pose proof (transmit_eq w verbose junk (req s) OK (str "") s) as E.
    destruct (transmit w verbose junk (req s) OK (str "") s)
      as [[n1 t1] u1].
    injection E as _ _ ->. cbn [fst snd] in T. rewrite Hs in T.
    pose proof (SEND_PROMPT_on_connection
                  (with_buffer (one_more_write s)
                     (offload_buffer (one_more_write s)) 0)) as P.
    change (read_sockfd (with_buffer _ _ _)) with (read_sockfd s) in P.
    rewrite Hs in P.
    destruct (SEND_PROMPT w prompt _) as [p1 v1]. cbn [fst] in P |- *.
    rewrite !forallb_app, !dprintf_on_connection. cbn [forallb on_connection].
    rewrite ?forallb_app, D, T, P. reflexivity.
Qed.

Lemma read_loop_on_connection (reads : list read_result) (st : state DB) :
  buffer_ok st ->
  forallb (on_connection (read_sockfd st))
    (fst (read_loop sqlite3_exec w verbose prompt junk reads st)) = true.
Proof.
  intros Hok.
  apply (read_loop_induction sqlite3_exec w verbose prompt junk
           (fun st evs st' =>
              forallb (on_connection (read_sockfd st)) evs = true));
    [| | |exact Hok].
  - reflexivity.
  - intros s block n evs s' H. exact H.
  - intros s block evs s' H.
    destruct (dispatch_state sqlite3_exec w verbose prompt junk block s)
      as (_ & _ & _ & Hfd).
    rewrite Hfd in H.
    now rewrite forallb_app, dispatch_on_connection, H.
Qed.

(** One connection: events on its descriptor, and then its [close]. *)
Lemma serve_segment (c : connection) (st : state DB) :
  exists body,
    fst (serve sqlite3_exec w verbose prompt junk c st)
    = body ++ [EvClose (conn_fd c)]
    /\ forallb (on_connection (conn_fd c)) body = true.
Proof.
  rewrite serve_eq. cbn [fst].
  destruct (entered_ok w prompt c st) as (Hok & _ & _ & _ & Hfd).
  pose proof (read_loop_on_connection (conn_reads c) _ Hok) as R.
  rewrite Hfd in R.
  eexists. split.
  - rewrite !app_assoc. reflexivity.
  - rewrite !forallb_app, R, dprintf_on_connection.
    destruct prompt; [|reflexivity].
    cbn [forallb on_connection]. now rewrite Z.eqb_refl.
Qed.

End Segments.

(** ** Disconnection (C6) *)

Lemma persisting_refl {DB : Type} (s : state DB) : persisting s s.
Proof. repeat split. Qed.

Lemma persisting_with_buffer {DB : Type} (s : state DB) (b : bytes) (n : Z) :
  persisting (with_buffer s b n) s.
Proof. repeat split. Qed.

Lemma persisting_trans {DB : Type} (s t u : state DB) :
  persisting s t -> persisting t u -> persisting s u.
Proof.
  unfold persisting. intros (A1 & A2 & A3) (B1 & B2 & B3).
  repeat split; congruence.
Qed.

Section Disconnection.
Context {DB : Type}.
Variable sqlite3_exec : DB -> bytes -> exec_result DB.
Variable w : nat -> Z -> bytes -> Z.
Variables verbose prompt : bool.
Variable junk : ascii.

Local Abbreviation read_loop' :=
  (read_loop sqlite3_exec w verbose prompt junk).
Local Abbreviation serve' := (serve sqlite3_exec w verbose prompt junk).

(** A connection is served the same from two states that agree on what
    persists. *)
Lemma serve_persisting (c : connection) (s t : state DB) :
  persisting s t -> serve' c s = serve' c t.
Proof.
  intros (H1 & H2 & H3). unfold serve.
  assert (E : with_buffer (with_sockfd s (conn_fd c)) [] 0
              = with_buffer (with_sockfd t (conn_fd c)) [] 0).
  { unfold with_buffer, with_sockfd. cbn. now rewrite H1, H2, H3. }
  now rewrite E.
Qed.

Lemma read_loop_stop (reads : list read_result) (st : state DB) :
  disconnects reads = true -> read_loop' reads st = ([], st).
Proof.
  destruct reads as [|r reads]; [reflexivity|].
  cbn [disconnects read_loop]. unfold ends_loop. intros H.
  apply Z.leb_le in H.
  destruct (Z.gtb_spec (read_sz r) 0); [lia|reflexivity].
Qed.

(** Chunks that leave the request unfinished, and then the end of the
    connection: nothing is executed or written, and nothing that persists
    changes. *)
Lemma read_loop_unfinished (tail : list bytes) (stop : list read_result)
    (st : state DB) :
  buffer_ok st ->
  forallb unterminated tail = true -> disconnects stop = true ->
  let res := read_loop' (map ReadBytes tail ++ stop) st in
  fst res = [] /\ persisting (snd res) st.
Proof.
  revert st. induction tail as [|c tail IH]; intros st Hok Ht Hs.
  - cbn [map app]. rewrite (read_loop_stop stop st Hs).
    split; [reflexivity|apply persisting_refl].
  - cbn [forallb] in Ht. apply andb_true_iff in Ht as [Hc Ht].
    destruct c as [|x c].
    + cbn. split; [reflexivity|apply persisting_refl].
    + set (ch := x :: c) in *.
      assert (Hne : ch <> []) by discriminate.
      cbn [map app].
      rewrite (read_loop_chunk sqlite3_exec w verbose prompt junk ch _ st Hne).
      rewrite (loop_body_eq sqlite3_exec w verbose prompt junk ch st Hok Hne).
      cbv zeta. unfold unterminated in Hc. apply negb_true_iff in Hc.
      rewrite Hc.
      set (st1 := with_buffer st _ _).
      assert (Hok1 : buffer_ok st1) by (unfold buffer_ok, st1; cbn; lia).
      specialize (IH st1 Hok1 Ht Hs). cbv zeta in IH.
      destruct (read_loop' _ st1) as [e2 st2]. cbn [fst snd] in IH |- *.
      destruct IH as (-> & IH). split; [reflexivity|].
      eapply persisting_trans; [exact IH|apply persisting_with_buffer].
Qed.

(** The same, after any reads. *)
Lemma read_loop_cut (reads : list read_result) (tail : list bytes)
    (stop : list read_result) (st : state DB) :
  buffer_ok st ->
  forallb unterminated tail = true -> disconnects stop = true ->
  let cut := read_loop' (reads ++ map ReadBytes tail ++ stop) st in
  let clean := read_loop' reads st in
  fst cut = fst clean /\ persisting (snd cut) (snd clean).
Proof.
  intros Hok Ht Hs. revert st Hok.
  induction reads as [|r reads IH]; intros st Hok.
  - cbn [app]. apply (read_loop_unfinished tail stop st Hok Ht Hs).
  - destruct r as [chunk|];
      [|cbn; split; [reflexivity|apply persisting_refl]].
    destruct chunk as [|x chunk];
      [cbn; split; [reflexivity|apply persisting_refl]|].
    set (ch := x :: chunk).
    assert (Hne : ch <> []) by discriminate.
    cbn [app]. cbv zeta.
    rewrite !(read_loop_chunk sqlite3_exec w verbose prompt junk ch _ st Hne).
    pose proof (loop_body_buffer_ok sqlite3_exec w verbose prompt junk ch st
                  Hok Hne) as Hok1.
    destruct (loop_body sqlite3_exec w verbose prompt junk ch _ st)
      as [e1 st1].
    cbn [snd] in Hok1. specialize (IH st1 Hok1). cbv zeta in IH.
    destruct (read_loop' (reads ++ _) st1) as [e2 st2].
    destruct (read_loop' reads st1) as [e2' st2'].
    cbn [fst snd] in IH |- *. destruct IH as (-> & IH). now split.
Qed.

End Disconnection.

(** C6.  A client sends some requests, then chunks that leave a request
    unfinished, and goes away: [read] returns 0 or -1.  Then:
    - the requests sent whole are executed and answered, under the IDs that
      follow the counter; the unfinished characters are part of no query,
      and the trace of the connection is the one it has without them;
    - the connection ends: its descriptor is closed, which is the last
      thing done on it, and nothing is written elsewhere meanwhile;
    - the counter is not reset: it has advanced by the number of requests
      executed;
    - the next connection enters its read loop with an empty frame buffer
      and that counter, and the queries executed on it are its own
      requests, whole -- nothing of the unfinished characters is put in
      front of the first -- under the IDs that follow;
    - nothing else is carried over: a connection is served the same from
      any two states that agree on the counter (and on the database and
      the count of writes, which belong to SQLite and to the
      environment), whatever the frame buffer, its length and the
      descriptor hold. *)
Theorem disconnect_mid_frame {DB : Type}
    (sqlite3_exec : DB -> bytes -> exec_result DB)
    (w : nat -> Z -> bytes -> Z) (verbose prompt : bool) (junk : ascii)
    (fd fd' : Z) (requests requests' : list bytes)
    (deliveries deliveries' : list (list bytes)) (tail : list bytes)
    (stop : list read_result) (st : state DB) :
  0 <= req st < UINT32_MODULUS ->
  Forall (fun r => is_request r = true) requests ->
  Forall2 delivers deliveries requests ->
  forallb unterminated tail = true ->
  disconnects stop = true ->
  Forall (fun r => is_request r = true) requests' ->
  Forall2 delivers deliveries' requests' ->
  let serve' := serve sqlite3_exec w verbose prompt junk in
  let whole := map ReadBytes (concat deliveries) in
  let cut := serve' (mk_connection fd (whole ++ map ReadBytes tail ++ stop))
               st in
  let next := mk_connection fd' (map ReadBytes (concat deliveries')) in
  let n := Z.of_nat (length requests) in
  execs (fst cut) = combine requests (ids_from (req st + 1) (length requests))
  /\ map line_id (terminal_lines (fst cut))
     = map Some (ids_from (req st + 1) (length requests))
  /\ fst cut = fst (serve' (mk_connection fd whole) st)
  /\ (exists body,
         fst cut = body ++ [EvClose fd]
         /\ forallb (on_connection fd) body = true)
  /\ req (snd cut) = wrap32 (req st + n)
  /\ offload_buffer_sz (entered w prompt next (snd cut)) = 0
  /\ pending (entered w prompt next (snd cut)) = []
  /\ req (entered w prompt next (snd cut)) = wrap32 (req st + n)
  /\ execs (fst (serve' next (snd cut)))
     = combine requests' (ids_from (req st + n + 1) (length requests'))
  /\ (forall (c : connection) (s t : state DB),
         persisting s t -> serve' c s = serve' c t).
Proof.
  intros Hreq Hr Hd Ht Hs Hr' Hd' serve' whole cut next n.
  set (c1 := mk_connection fd (whole ++ map ReadBytes tail ++ stop)) in *.
  set (c2 := mk_connection fd whole) in *.
  assert (He : entered w prompt c1 st = entered w prompt c2 st) by reflexivity.
  destruct (entered_ok w prompt c2 st) as (Hok & Hq & _ & Hp & _).
  destruct (read_loop_cut sqlite3_exec w verbose prompt junk whole tail stop
              (entered w prompt c2 st) Hok Ht Hs) as (E1 & E2).
  (* The trace is that of the connection without the unfinished characters. *)
  assert (Hclean : fst cut = fst (serve' c2 st)).
  { unfold cut, serve'. rewrite !serve_eq, He. cbn [fst].
    change (conn_reads c1) with (whole ++ map ReadBytes tail ++ stop).
    change (conn_reads c2) with whole.
    change (conn_fd c1) with fd. change (conn_fd c2) with fd.
    now rewrite E1. }
  (* The queries executed. *)
  assert (Hex : execs (fst cut)
                = combine requests (ids_from (req st + 1) (length requests))).
  { rewrite Hclean. unfold serve'. rewrite serve_execs.
    change (conn_reads c2) with whole. unfold whole.
    rewrite (read_loop_requests sqlite3_exec w verbose prompt junk requests
               deliveries _ Hok Hp Hr Hd).
    now rewrite Hq. }
  assert (Hlen : length (execs (fst cut)) = length requests).
  { rewrite Hex, length_combine, ids_from_length. lia. }
  assert (Hte : map line_id (terminal_lines (fst cut))
                = map Some (ids_from (req st + 1) (length requests))).
  { rewrite Hclean. unfold serve'. rewrite serve_terminal_lines.
    rewrite (read_loop_terminal sqlite3_exec w verbose prompt junk
               (conn_reads c2) _ Hok).
    rewrite <- (serve_execs sqlite3_exec w verbose prompt junk c2 st).
    fold serve'. rewrite <- Hclean, Hex, <- (map_map snd Some).
    now rewrite map_snd_combine by (now rewrite ids_from_length). }
  (* The counter. *)
  assert (Hcount : req (snd cut) = wrap32 (req st + n)).
  { destruct (serve_ids sqlite3_exec w verbose prompt junk c1 st (req st)
                (eq_sym (wrap32_small _ Hreq))) as (_ & H).
    fold serve' in H. fold cut in H. rewrite H, Hlen. reflexivity. }
  destruct (entered_ok w prompt next (snd cut))
    as (Hok' & Hq' & _ & Hp' & _).
  split; [exact Hex|]. split; [exact Hte|]. split; [exact Hclean|].
  split; [apply (serve_segment sqlite3_exec w verbose prompt junk c1 st)|].
  split; [exact Hcount|]. split.
  { rewrite <- (pending_length _ Hok'), Hp'. reflexivity. }
  split; [exact Hp'|]. split; [now rewrite Hq'|]. split.
  - unfold serve'. rewrite serve_execs.
    change (conn_reads next) with (map ReadBytes (concat deliveries')).
    rewrite (read_loop_requests sqlite3_exec w verbose prompt junk requests'
               deliveries' _ Hok' Hp' Hr' Hd').
    f_equal. apply ids_from_wrap. rewrite Hq', Hcount.
    apply wrap32_succ.
  - intros c s t Hst. now apply serve_persisting.
Qed.

Lemma disconnect_mid_frame_witness :
  let cut :=
    serve toy_exec write_all true true "?"%char
      (mk_connection 4
         (map ReadBytes (concat [[str "INSERT 1;" ++ [LF]]])
            ++ map ReadBytes [str "SELECT "; str "1"] ++ [ReadError]))
      (startup 0%nat) in
  execs (fst cut) = [(str "INSERT 1;" ++ [LF], 1)]
  /\ execs (fst (serve toy_exec write_all true true "?"%char
                   (mk_connection 5
                      (map ReadBytes (concat [[str ";" ++ [LF]]])))
                   (snd cut)))
     = [(str ";" ++ [LF], 2)].
Proof.
  intros cut.
  pose proof (disconnect_mid_frame toy_exec write_all true true "?"%char
                4 5 [str "INSERT 1;" ++ [LF]] [str ";" ++ [LF]]
                [[str "INSERT 1;" ++ [LF]]] [[str ";" ++ [LF]]]
                [str "SELECT "; str "1"] [ReadError] (startup 0%nat)) as H.
  cbv zeta in H. split; apply H;
    try reflexivity; try (repeat constructor); cbn; unfold UINT32_MODULUS; lia.
Defined.

(** ** Failed writes (C8) *)

Lemma actions_app (a b : list event) :
  actions (a ++ b) = actions a ++ actions b.
Proof.
  induction a as [|e a IH]; [reflexivity|].
  destruct e; cbn [app actions]; rewrite IH; try reflexivity.
  now destruct (list_eq_dec ascii_dec text write_error_text).
Qed.

Lemma actions_write_error (v : bool) :
  actions (dprintf v write_error_text) = [].
Proof.
  unfold dprintf. destruct v; [|reflexivity]. cbn [actions].
  now destruct (list_eq_dec ascii_dec write_error_text write_error_text).
Qed.

Section Sockets.
Context {DB : Type}.
Variable sqlite3_exec : DB -> bytes -> exec_result DB.
Variables w1 w2 : nat -> Z -> bytes -> Z.
Variables verbose prompt : bool.
Variable junk : ascii.

(** Two runs agree when they do the same and end in the same state. *)
Local Abbreviation agree r1 r2 :=
  (actions (fst r1) = actions (fst r2) /\ snd r1 = snd r2).

Lemma transmit_actions (w : nat -> Z -> bytes -> Z) (id : Z)
    (code : response) (data : bytes) (st : state DB) :
  actions (snd (fst (transmit w verbose junk id code data st)))
  = [EvWrite (read_sockfd st) (response_line id code (c_str data)) 0]
  /\ snd (transmit w verbose junk id code data st) = one_more_write st.
Proof.
  rewrite transmit_eq. cbn [fst snd actions].
  fold write_error_text.
  destruct (_ <? 0); [rewrite actions_write_error|]; split; reflexivity.
Qed.

Lemma SEND_PROMPT_agree (st : state DB) :
  agree (SEND_PROMPT w1 prompt st) (SEND_PROMPT w2 prompt st).
Proof. unfold SEND_PROMPT. destruct prompt; split; reflexivity. Qed.

Lemma callback_loop_agree (arg : Z) (cells : row) (data : bytes)
    (st : state DB) :
  agree (callback_loop w1 verbose junk arg cells data st)
        (callback_loop w2 verbose junk arg cells data st).
Proof.
  revert data st. induction cells as [|[column_i argv_i] rest IH];
    intros data st; [split; reflexivity|].
  cbn [callback_loop]. cbv zeta.
  set (block := store _ 0 _).
  destruct (transmit_actions w1 (wrap32 arg) DATA block st) as (A1 & S1).
  destruct (transmit_actions w2 (wrap32 arg) DATA block st) as (A2 & S2).
  destruct (transmit w1 verbose junk (wrap32 arg) DATA block st)
    as [[n1 e1] s1].
  destruct (transmit w2 verbose junk (wrap32 arg) DATA block st)
    as [[n2 e2] s2].
  cbn [fst snd] in *. subst s1 s2.
  specialize (IH block (one_more_write st)).
  destruct (callback_loop w1 verbose junk arg rest block (one_more_write st))
    as [e1' s1'].
  destruct (callback_loop w2 verbose junk arg rest block (one_more_write st))
    as [e2' s2'].
  cbn [fst snd] in *. destruct IH as (IH1 & IH2).
  rewrite !actions_app, A1, A2, IH1, IH2. split; reflexivity.
Qed.

Lemma deliver_agree (arg : Z) (rows : list row) (st : state DB) :
  agree (deliver w1 verbose junk arg rows st)
        (deliver w2 verbose junk arg rows st).
Proof.
  revert st. induction rows as [|r rest IH]; intros st; [split; reflexivity|].
  cbn [deliver]. unfold callback.
  destruct (callback_loop_agree arg r [] st) as (C1 & C2).
  destruct (callback_loop w1 verbose junk arg r [] st) as [e1 s1].
  destruct (callback_loop w2 verbose junk arg r [] st) as [e2 s2].
  cbn [fst snd] in *. subst s2.
  specialize (IH s1).
  destruct (deliver w1 verbose junk arg rest s1) as [e1' s1'].
  destruct (deliver w2 verbose junk arg rest s1) as [e2' s2'].
  cbn [fst snd] in *. destruct IH as (IH1 & IH2).
  rewrite !actions_app, C1, IH1, IH2. split; reflexivity.
Qed.

Lemma dispatch_agree (block : bytes) (n : Z) (st : state DB) :
  agree (dispatch sqlite3_exec w1 verbose prompt junk block n st)
        (dispatch sqlite3_exec w2 verbose prompt junk block n st).
Proof.
  unfold dispatch, exec. cbv zeta.
  set (blk := store _ n [NUL]).
  set (st0 := with_req _ _).
  set (r := sqlite3_exec (db st0) (c_str blk)).
  destruct (deliver_agree (req st0) (delivered r) st0) as (D1 & D2).
  destruct (deliver w1 verbose junk (req st0) (delivered r) st0) as [e1 s1].
  destruct (deliver w2 verbose junk (req st0) (delivered r) st0) as [e2 s2].
  cbn [fst snd] in D1, D2. subst s2.
  set (s := with_db s1 (next_db r)).
  destruct (negb (rc r =? SQLITE_OK)).
  - destruct (transmit_actions w1 (req s) ERR (errmsg r) s) as (A1 & S1).
    destruct (transmit_actions w2 (req s) ERR (errmsg r) s) as (A2 & S2).
    destruct (transmit w1 verbose junk (req s) ERR (errmsg r) s)
      as [[n1 t1] u1].
    destruct (transmit w2 verbose junk (req s) ERR (errmsg r) s)
      as [[n2 t2] u2].
    cbn [fst snd] in *. subst u1 u2.
    destruct (SEND_PROMPT_agree
                (with_buffer (one_more_write s)
                   (offload_buffer (one_more_write s)) 0)) as (P1 & P2).
    destruct (SEND_PROMPT w1 prompt _) as [p1 v1].
    destruct (SEND_PROMPT w2 prompt _) as [p2 v2].
    cbn [fst snd] in *. subst v2.
    split; [|reflexivity].
    rewrite !actions_app. cbn [actions]. rewrite ?actions_app.
    now rewrite D1, A1, A2, P1.
  - destruct (transmit_actions w1 (req s) OK (str "") s) as (A1 & S1).
    destruct (transmit_actions w2 (req s) OK (str "") s) as (A2 & S2).
    destruct (transmit w1 verbose junk (req s) OK (str "") s)
      as [[n1 t1] u1].
    destruct (transmit w2 verbose junk (req s) OK (str "") s)
      as [[n2 t2] u2].
    cbn [fst snd] in *. subst u1 u2.
    destruct (SEND_PROMPT_agree
                (with_buffer (one_more_write s)
                   (offload_buffer (one_more_write s)) 0)) as (P1 & P2).
    destruct (SEND_PROMPT w1 prompt _) as [p1 v1].
    destruct (SEND_PROMPT w2 prompt _) as [p2 v2].
    cbn [fst snd] in *. subst v2.
    split; [|reflexivity].
    rewrite !actions_app. cbn [actions]. rewrite ?actions_app.
    now rewrite D1, A1, A2, P1.
Qed.

Lemma read_loop_agree (reads : list read_result) (st : state DB) :
  agree (read_loop sqlite3_exec w1 verbose prompt junk reads st)
        (read_loop sqlite3_exec w2 verbose prompt junk reads st).
Proof.
  revert st. induction reads as [|r reads IH]; intros st;
    [split; reflexivity|].
  cbn [read_loop]. destruct (read_sz r >? 0); [|split; reflexivity].
  assert (L : agree
                (loop_body sqlite3_exec w1 verbose prompt junk
                   (read_buffer r) (read_sz r) st)
                (loop_body sqlite3_exec w2 verbose prompt junk
                   (read_buffer r) (read_sz r) st)).
  { unfold loop_body. cbv zeta.
    destruct (negb _); [split; reflexivity|apply dispatch_agree]. }
  destruct L as (L1 & L2).
  destruct (loop_body sqlite3_exec w1 _ _ _ _ _ st) as [e1 s1].
  destruct (loop_body sqlite3_exec w2 _ _ _ _ _ st) as [e2 s2].
  cbn [fst snd] in *. subst s2. specialize (IH s1).
  destruct (read_loop sqlite3_exec w1 _ _ _ reads s1) as [e1' s1'].
  destruct (read_loop sqlite3_exec w2 _ _ _ reads s1) as [e2' s2'].
  cbn [fst snd] in *. destruct IH as (IH1 & IH2).
  rewrite !actions_app, L1, IH1, IH2. split; reflexivity.
Qed.

Lemma serve_agree (c : connection) (st : state DB) :
  agree (serve sqlite3_exec w1 verbose prompt junk c st)
        (serve sqlite3_exec w2 verbose prompt junk c st).
Proof.
  unfold serve. cbv zeta.
  set (st0 := with_buffer _ [] 0).
  destruct (SEND_PROMPT_agree st0) as (P1 & P2).
  destruct (SEND_PROMPT w1 prompt st0) as [p1 s1].
  destruct (SEND_PROMPT w2 prompt st0) as [p2 s2].
  cbn [fst snd] in *. subst s2.
  destruct (read_loop_agree (conn_reads c) s1) as (R1 & R2).
  destruct (read_loop sqlite3_exec w1 _ _ _ _ s1) as [e1 t1].
  destruct (read_loop sqlite3_exec w2 _ _ _ _ s1) as [e2 t2].
  cbn [fst snd] in *. subst t2.
  rewrite !actions_app, P1, R1. split; reflexivity.
Qed.

Lemma event_loop_agree (conns : list connection) (st : state DB) :
  agree (event_loop sqlite3_exec w1 verbose prompt junk conns st)
        (event_loop sqlite3_exec w2 verbose prompt junk conns st).
Proof.
  revert st. induction conns as [|c conns IH]; intros st;
    [split; reflexivity|].
  cbn [event_loop].
  destruct (serve_agree c st) as (S1 & S2).
  destruct (serve sqlite3_exec w1 _ _ _ c st) as [e1 s1].
  destruct (serve sqlite3_exec w2 _ _ _ c st) as [e2 s2].
  cbn [fst snd] in *. subst s2. specialize (IH s1).
  destruct (event_loop sqlite3_exec w1 _ _ _ conns s1) as [e1' s1'].
  destruct (event_loop sqlite3_exec w2 _ _ _ conns s1) as [e2' s2'].
  cbn [fst snd] in *. destruct IH as (IH1 & IH2).
  rewrite !actions_app, S1, IH1, IH2. split; reflexivity.
Qed.

End Sockets.

(** A write that returns -1 changes nothing but the trace of the write
    itself: [transmit] reports it on standard output when [-v] was given,
    and only then, and goes on; the prompt's write is not even looked at.
    Whatever the writes return -- as long as they return -- the server
    does the same: the same writes are attempted, the same queries
    executed, for the same rows and requests, the same connections closed
    at the same points; and it ends in the same state. *)
Theorem write_failures_are_ignored {DB : Type}
    (sqlite3_exec : DB -> bytes -> exec_result DB)
    (w1 w2 : nat -> Z -> bytes -> Z) (verbose prompt : bool) (junk : ascii) :
  (forall id code data (st : state DB),
      let line := response_line id code (c_str data) in
      let n := w1 (nwrites st) (read_sockfd st) line in
      transmit w1 verbose junk id code data st
      = (n,
         EvWrite (read_sockfd st) line n
           :: (if (n <? 0) && verbose then [EvPrint write_error_text]
               else []),
         one_more_write st))
  /\ (forall st : state DB, printed (fst (SEND_PROMPT w1 prompt st)) = [])
  /\ (forall db0 conns,
         let run1 := alfred sqlite3_exec w1 verbose prompt junk db0 conns in
         let run2 := alfred sqlite3_exec w2 verbose prompt junk db0 conns in
         actions (fst run1) = actions (fst run2)
         /\ socket_writes (fst run1) = socket_writes (fst run2)
         /\ execs (fst run1) = execs (fst run2)
         /\ snd run1 = snd run2).
Proof.
  split; [|split].
  - intros id code data st line n. rewrite transmit_eq. fold line n.
    unfold dprintf. fold write_error_text.
    now destruct (n <? 0), verbose.
  - intros st. unfold SEND_PROMPT. now destruct prompt.
  - intros db0 conns run1 run2.
    destruct (event_loop_agree sqlite3_exec w1 w2 verbose prompt junk conns
                (startup db0)) as (A & S).
    change (actions (fst run1) = actions (fst run2)) in A.
    change (snd run1 = snd run2) in S.
    assert (W : forall evs, socket_writes evs = socket_writes (actions evs)).
    { induction evs as [|e evs IH]; [reflexivity|].
      destruct e; cbn [actions socket_writes]; try (now rewrite IH).
      destruct (list_eq_dec ascii_dec text write_error_text);
        cbn [socket_writes]; exact IH. }
    assert (X : forall evs, execs evs = execs (actions evs)).
    { induction evs as [|e evs IH]; [reflexivity|].
      destruct e; cbn [actions execs]; try (now rewrite IH).
      destruct (list_eq_dec ascii_dec text write_error_text);
        cbn [execs]; exact IH. }
    repeat split; [exact A| | |exact S].
    + now rewrite (W (fst run1)), (W (fst run2)), A.
    + now rewrite (X (fst run1)), (X (fst run2)), A.
Qed.

(** A run on a socket where every write fails: the reports appear under
    [-v] only, and the query is executed and answered all the same. *)
Example all_writes_fail :
  let run v :=
    fst (alfred toy_exec write_fails v true "?"%char 0%nat
           [mk_connection 4 [ReadBytes (str "INSERT 1;" ++ [LF])]]) in
  printed (run true)
  = [str "Received 10 character(s): INSERT 1;" ++ [LF];
     write_error_text;
     str "Client disconnected." ++ [LF]]
  /\ printed (run false) = []
  /\ socket_writes (run true)
     = [prompt_text; str "1: 0: " ++ [LF]; prompt_text]
  /\ socket_writes (run false) = socket_writes (run true)
  /\ execs (run false) = [(str "INSERT 1;" ++ [LF], 1)].
Proof. repeat split. Qed.

(** On a socket that never raises SIGPIPE the run is that of the event
    loop. *)
Lemma until_SIGPIPE_never (k : nat) (evs : list event) :
  until_SIGPIPE (fun _ => false) k evs = (evs, Serving).
Proof.
  revert k. induction evs as [|e evs IH]; intros k; [reflexivity|].
  destruct e; cbn [until_SIGPIPE]; now rewrite IH.
Qed.

(** C8.  A failed write can end the server.  A client sends a SELECT and
    closes its socket without reading the answer; the server's [write] of
    the second DATA line is a write to a peer that has gone, and raises
    SIGPIPE, which the program leaves at its default action.  The process
    ends inside that [write]: the row is cut short, the request gets no
    terminal message, nothing is reported even under [-v], the connection
    is not closed, and the request of the next client is never executed.
    [transmit] looks at what [write] returns, reports a failure under [-v]
    and goes on -- had that [write] returned -1, both requests would have
    been executed and answered -- but a write that does not return is the
    usual way for a write to a client to fail. *)
Theorem SIGPIPE_ends_the_server :
  let conns :=
    [mk_connection 4 [ReadBytes (str "SELECT 1;" ++ [LF])];
     mk_connection 5 [ReadBytes (str "INSERT 2;" ++ [LF])]] in
  let killed :=
    alfred_SIGPIPE toy_exec write_all (Nat.eqb 2) true true "?"%char 0%nat
      conns in
  let spared :=
    fst (alfred toy_exec (write_fails_at 2) true true "?"%char 0%nat
           conns) in
  snd killed = Killed_by_SIGPIPE 4 (str "1: 1: x = NULL" ++ [LF])
  /\ fst killed
     = [EvWrite 4 prompt_text 2;
        EvPrint (str "Received 10 character(s): SELECT 1;" ++ [LF]);
        EvExec (str "SELECT 1;" ++ [LF]) 1;
        EvWrite 4 (str "1: 1: 1 = 1" ++ [LF]) 12]
  /\ terminal_lines (fst killed) = []
  /\ execs (fst killed) = [(str "SELECT 1;" ++ [LF], 1)]
  /\ execs spared
     = [(str "SELECT 1;" ++ [LF], 1); (str "INSERT 2;" ++ [LF], 2)]
  /\ map line_id (terminal_lines spared) = [Some 1; Some 2]
  /\ printed spared
     = [str "Received 10 character(s): SELECT 1;" ++ [LF];
        write_error_text;
        str "Client disconnected." ++ [LF];
        str "Received 10 character(s): INSERT 2;" ++ [LF];
        str "Client disconnected." ++ [LF]].
Proof. repeat split. Qed.

(** * Beyond the protocol: the process *)

(** ** Start-up *)

Lemma exits_app (a b : list call) : exits (a ++ b) = exits a ++ exits b.
Proof.
  induction a as [|c a IH]; [reflexivity|].
  destruct c; cbn [app exits]; now rewrite IH.
Qed.

Lemma opened_app (a b : list call) : opened (a ++ b) = opened a ++ opened b.
Proof.
  induction a as [|c a IH]; [reflexivity|].
  destruct c; cbn [app opened]; now rewrite IH.
Qed.


(** How the parsing of the options stops. *)
Lemma parse_options_stop (progname : bytes) (opts : list (ascii * bytes))
    (s : settings) (out : list call) (status : Z) :
  parse_options progname opts s = Stop out status ->
  exists text, out = [SysStderr text]
    /\ (status = 0 \/ status = 1)
    /\ (status = 0 ->
          text = usage_text progname /\ In "h"%char (map fst opts)).
Proof.
  revert s. induction opts as [|[c optarg] opts IH]; intros s H;
    [discriminate H|].
  cbn [parse_options] in H. cbn [map fst].
  destruct (Ascii.eqb c "h") eqn:Eh.
  { apply Ascii.eqb_eq in Eh. subst c. injection H as <- <-.
    exists (usage_text progname).
    split; [reflexivity|split; [now left|]].
    intros _. split; [reflexivity|now left]. }
  assert (Hrec : forall s', parse_options progname opts s' = Stop out status ->
            exists text, out = [SysStderr text]
              /\ (status = 0 \/ status = 1)
              /\ (status = 0 ->
                    text = usage_text progname
                    /\ (c = "h"%char \/ In "h"%char (map fst opts)))).
  { intros s' H'. destruct (IH s' H') as (text & H1 & H2 & H3).
    exists text. split; [exact H1|split; [exact H2|]].
    intros E. split; [now apply H3|right; now apply H3]. }
  destruct (Ascii.eqb c "n"); [now apply Hrec in H|].
  destruct (Ascii.eqb c "p").
  { destruct (atoi optarg =? 0); [|now apply Hrec in H].
    injection H as <- <-. eexists.
    split; [reflexivity|split; [now right|discriminate]]. }
  destruct (Ascii.eqb c "r"); [now apply Hrec in H|].
  destruct (Ascii.eqb c "v"); [now apply Hrec in H|].
  injection H as <- <-. eexists.
  split; [reflexivity|split; [now right|discriminate]].
Qed.

(** The shape of a start-up that dies: what came before had no exit, then
    the message and [exit(1)]. *)
Ltac died :=
  split;
  [unfold DIE; rewrite <- ?app_assoc; reflexivity
  |split;
   [rewrite ?exits_app;
    first [reflexivity
          |match goal with H : exits _ = [] |- _ => rewrite H end;
           reflexivity]
   |split; [now right|discriminate]]].

(** X1.  [main] leaves start-up in one of two ways: it enters the event
    loop without having called [exit]; or it ends the process, and then the
    last thing it did before the exit was to print on [stderr], the status
    is 0 or 1, and it is 0 only for [-h], in which case the usage text is
    all it printed and nothing else was done. *)
Theorem start_exit_status (sys : system) (progname : bytes)
    (opts : list (ascii * bytes)) (operands : list bytes) :
  match start sys progname opts operands with
  | (calls, Exited status) =>
      exists before text,
        calls = before ++ [SysStderr text; SysExit status]
        /\ exits before = []
        /\ (status = 0 \/ status = 1)
        /\ (status = 0 ->
              before = [] /\ text = usage_text progname
              /\ In "h"%char (map fst opts))
  | (calls, Listening _ _) => exits calls = []
  end.
Proof.
  unfold start.
  destruct (parse_options progname opts default_settings)
    as [out status|s] eqn:Hp.
  - destruct (parse_options_stop _ _ _ _ _ Hp) as (text & -> & H1 & H2).
    exists [], text.
    split; [reflexivity|split; [reflexivity|split; [exact H1|]]].
    intros E. split; [reflexivity|now apply H2].
  - unfold open_database.
    destruct operands as [|path [|other operands]].
    + eexists [], _. died.
    + set (o := if s_readonly s then _ else _).
      assert (Ho : exits (fst o) = [])
        by (unfold o; now destruct (s_readonly s)).
      destruct o as [calls failed]. cbn [fst] in Ho.
      destruct failed.
      * eexists (calls ++ [SysDbClose]), _. died.
      * unfold open_socket.
        destruct (sys_socket sys <? 0).
        { eexists (calls ++ [SysSocket]), _. died. }
        destruct (sys_setsockopt sys =? -1).
        { eexists (calls ++ [SysSocket; SysSetsockopt _]), _. died. }
        destruct (sys_bind sys _ <? 0).
        { eexists (calls ++ [SysSocket; SysSetsockopt _; SysBind _ _]), _.
          died. }
        destruct (negb (sys_listen sys =? 0)).
        { eexists (calls ++ [SysSocket; SysSetsockopt _; SysBind _ _;
                             SysListen _ _]), _.
          died. }
        rewrite exits_app, Ho. cbn [app exits].
        destruct (sys_sigterm_fails sys), (sys_sigint_fails sys),
          (s_verbose s); reflexivity.
    + eexists [], _. died.
Qed.

(** Options within the contract of [getopt] never set [readonly], whatever
    the settings they start from. *)
Lemma parse_options_readonly (progname : bytes)
    (opts : list (ascii * bytes)) (s s' : settings) :
  forallb (fun o => getopt_returns (fst o)) opts = true ->
  parse_options progname opts s = Go s' ->
  s_readonly s' = s_readonly s.
Proof.
  revert s. induction opts as [|[c optarg] opts IH]; intros s Hc H.
  - injection H as <-. reflexivity.
  - cbn [forallb fst] in Hc. apply andb_true_iff in Hc as [Hc Hrest].
    cbn [parse_options] in H.
    destruct (Ascii.eqb c "h"); [discriminate H|].
    destruct (Ascii.eqb c "n"); [now rewrite (IH _ Hrest H)|].
    destruct (Ascii.eqb c "p").
    { destruct (atoi optarg =? 0); [discriminate H|].
      now rewrite (IH _ Hrest H). }
    destruct (Ascii.eqb c "r") eqn:Er.
    { apply Ascii.eqb_eq in Er. subst c. discriminate Hc. }
    destruct (Ascii.eqb c "v"); [now rewrite (IH _ Hrest H)|].
    discriminate H.
Qed.

Lemma start_opened (sys : system) (progname : bytes)
    (opts : list (ascii * bytes)) (operands : list bytes) :
  forall o, In o (opened (fst (start sys progname opts operands))) ->
  exists s, parse_options progname opts default_settings = Go s
            /\ operands = [fst o] /\ snd o = s_readonly s.
Proof.
  intros o. unfold start.
  destruct (parse_options progname opts default_settings)
    as [out status|s] eqn:Hp.
  - destruct (parse_options_stop _ _ _ _ _ Hp) as (text & -> & _).
    intros [].
  - unfold open_database.
    destruct operands as [|path [|other operands]]; [intros []| |intros []].
    assert (Hs : forall calls, opened (fst (open_socket sys s)) = []
                               /\ opened (DIE calls) = []).
    { intros calls. split; [|reflexivity]. unfold open_socket.
      destruct (sys_socket sys <? 0); [reflexivity|].
      destruct (sys_setsockopt sys =? -1); [reflexivity|].
      destruct (sys_bind sys _ <? 0); [reflexivity|].
      destruct (negb (sys_listen sys =? 0)); [reflexivity|].
      cbn [app opened].
      now destruct (sys_sigterm_fails sys), (sys_sigint_fails sys),
        (s_verbose s). }
    destruct (Hs []) as (Hsock & _).
    destruct (open_socket sys s) as [calls' result]. cbn [fst] in Hsock.
    destruct (s_readonly s) eqn:Hr;
      match goal with
      | |- context [negb ?b] => destruct (negb b)
      end;
      cbn [fst app opened]; rewrite ?opened_app, ?Hsock; cbn [app opened In];
      intros [<-|[]]; exists s; repeat split; now rewrite Hr.
Qed.

(** X2.  The read-only mode cannot be switched on.  The option string
    handed to [getopt] is ["hnp:v"], without [r]; so for the values
    [getopt] may return for it, [readonly] stays 0: [main] never calls
    [sqlite3_open_v2] with [SQLITE_OPEN_READONLY], and the [case 'r'] of the
    switch is never reached. *)
Theorem readonly_is_unreachable (sys : system) (progname : bytes)
    (opts : list (ascii * bytes)) (operands : list bytes) :
  forallb (fun o => getopt_returns (fst o)) opts = true ->
  getopt_returns "r"%char = false
  /\ Forall (fun o => snd o = false)
       (opened (fst (start sys progname opts operands)))
  /\ (forall s sockfd,
         snd (start sys progname opts operands) = Listening s sockfd ->
         s_readonly s = false
         /\ opened (fst (start sys progname opts operands))
            = [(hd [] operands, false)]).
Proof.
  intros Hc. split; [reflexivity|]. split.
  - apply Forall_forall. intros o Ho.
    destruct (start_opened _ _ _ _ o Ho) as (s & Hp & _ & ->).
    apply (parse_options_readonly _ _ _ _ Hc Hp).
  - intros s sockfd. unfold start.
    destruct (parse_options progname opts default_settings)
      as [out status|s0] eqn:Hp; [discriminate|].
    pose proof (parse_options_readonly _ _ _ _ Hc Hp) as Hr.
    cbn [s_readonly default_settings] in Hr.
    unfold open_database. rewrite Hr.
    destruct operands as [|path [|other operands]];
      [discriminate| |discriminate].
    destruct (negb (sys_open sys path =? 0)); [discriminate|].
    unfold open_socket.
    destruct (sys_socket sys <? 0); [discriminate|].
    destruct (sys_setsockopt sys =? -1); [discriminate|].
    destruct (sys_bind sys _ <? 0); [discriminate|].
    destruct (negb (sys_listen sys =? 0)); [discriminate|].
    cbn [snd fst]. intros H. injection H as <- <-.
    split; [exact Hr|].
    cbn [app opened hd].
    now destruct (sys_sigterm_fails sys), (sys_sigint_fails sys),
      (s_verbose s0).
Qed.

Lemma readonly_is_unreachable_witness :
  Forall (fun o => snd o = false)
    (opened (fst (start obliging (str "alfred")
                    [("v"%char, []); ("p"%char, str "8080")]
                    [str "test.db"]))).
Proof.
  refine (proj1 (proj2 (readonly_is_unreachable obliging (str "alfred")
                          [("v"%char, []); ("p"%char, str "8080")]
                          [str "test.db"] _))).
  reflexivity.
Defined.

Lemma open_socket_projections (sys : system) (s : settings) :
  opened (fst (open_socket sys s)) = []
  /\ closes_database (fst (open_socket sys s)) = false
  /\ creates_socket (fst (open_socket sys s)) = true.
Proof.
  unfold open_socket.
  destruct (sys_socket sys <? 0); [repeat split|].
  destruct (sys_setsockopt sys =? -1); [repeat split|].
  destruct (sys_bind sys _ <? 0); [repeat split|].
  destruct (negb (sys_listen sys =? 0)); [repeat split|].
  now destruct (sys_sigterm_fails sys), (sys_sigint_fails sys), (s_verbose s).
Qed.

Lemma closes_database_app (a b : list call) :
  closes_database (a ++ b) = closes_database a || closes_database b.
Proof. apply existsb_app. Qed.

Lemma creates_socket_app (a b : list call) :
  creates_socket (a ++ b) = creates_socket a || creates_socket b.
Proof. apply existsb_app. Qed.

(** What [main] does with its operands, once the options are read. *)
Lemma start_database (sys : system) (progname : bytes)
    (opts : list (ascii * bytes)) (operands : list bytes) (s : settings) :
  parse_options progname opts default_settings = Go s ->
  start sys progname opts operands
  = match operands with
    | [] =>
        ([SysStderr
            (str "Missing required database argument. "
               ++ c_str progname ++ str " -h for usage information."
               ++ [LF]);
          SysExit 1],
         Exited 1)
    | [path] =>
        let open :=
          if s_readonly s then SysOpenReadonly path
          else SysOpen path in
        let result :=
          if s_readonly s then sys_open_readonly sys path
          else sys_open sys path in
        if result =? 0 then
          (open :: fst (open_socket sys s), snd (open_socket sys s))
        else
          ([open; SysDbClose;
            SysStderr
              (str "Failed to open " ++ c_str path ++ str "." ++ [LF]);
            SysExit 1],
           Exited 1)
    | _ :: _ :: _ =>
        ([SysStderr
            (str "You can only open a single database per alfred "
               ++ str "instance. " ++ c_str progname
               ++ str " -h for usage information." ++ [LF]);
          SysExit 1],
         Exited 1)
    end.
Proof.
  intros Hp. unfold start. rewrite Hp. unfold open_database.
  destruct operands as [|path [|other operands]];
    [reflexivity| |reflexivity].
  cbv zeta.
  destruct (s_readonly s);
    match goal with
    | |- context [?x =? 0] => destruct (x =? 0)
    end; cbn [negb]; try reflexivity;
    destruct (open_socket sys s) as [calls' result]; reflexivity.
Qed.

(** X3.  [main] wants exactly one database.  With no operand, or with
    several, it opens nothing and creates no socket.  It opens at most one
    database; one that fails to open is closed again, and the process exits
    with status 1 without creating a socket.  The socket is created only
    once the database is open, and start-up never closes a database that
    opened.  In full, once the options are read: with one operand [main]
    opens it; if the open returns nonzero, all it does then is to close the
    database, print ["Failed to open <path>."] and exit with status 1; if
    the open returns 0 it goes on to the socket; with no operand or with
    several it only prints the matching message and exits with status
    1. *)
Theorem database_before_socket (sys : system) (progname : bytes)
    (opts : list (ascii * bytes)) (operands : list bytes) :
  let calls := fst (start sys progname opts operands) in
  (length operands <> 1%nat ->
     opened calls = [] /\ creates_socket calls = false
     /\ exists status, snd (start sys progname opts operands) = Exited status)
  /\ (length (opened calls) <= 1)%nat
  /\ (closes_database calls = true ->
        creates_socket calls = false
        /\ snd (start sys progname opts operands) = Exited 1
        /\ exists path, operands = [path]
             /\ (opened calls = [(path, false)] /\ sys_open sys path <> 0
                 \/ opened calls = [(path, true)]
                    /\ sys_open_readonly sys path <> 0))
  /\ (creates_socket calls = true ->
        closes_database calls = false
        /\ exists path, operands = [path]
             /\ (opened calls = [(path, false)] /\ sys_open sys path = 0
                 \/ opened calls = [(path, true)]
                    /\ sys_open_readonly sys path = 0))
  /\ (forall s, parse_options progname opts default_settings = Go s ->
        start sys progname opts operands
        = match operands with
          | [] =>
              ([SysStderr
                  (str "Missing required database argument. "
                     ++ c_str progname ++ str " -h for usage information."
                     ++ [LF]);
                SysExit 1],
               Exited 1)
          | [path] =>
              let open :=
                if s_readonly s then SysOpenReadonly path
                else SysOpen path in
              let result :=
                if s_readonly s then sys_open_readonly sys path
                else sys_open sys path in
              if result =? 0 then
                (open :: fst (open_socket sys s), snd (open_socket sys s))
              else
                ([open; SysDbClose;
                  SysStderr
                    (str "Failed to open " ++ c_str path ++ str "." ++ [LF]);
                  SysExit 1],
                 Exited 1)
          | _ :: _ :: _ =>
              ([SysStderr
                  (str "You can only open a single database per alfred "
                     ++ str "instance. " ++ c_str progname
                     ++ str " -h for usage information." ++ [LF]);
                SysExit 1],
               Exited 1)
          end).
Proof.
  intros calls.
  assert (Old :
    (length operands <> 1%nat ->
       opened calls = [] /\ creates_socket calls = false
       /\ exists status,
            snd (start sys progname opts operands) = Exited status)
    /\ (length (opened calls) <= 1)%nat
    /\ (closes_database calls = true ->
          creates_socket calls = false
          /\ snd (start sys progname opts operands) = Exited 1
          /\ exists path, operands = [path]
               /\ (opened calls = [(path, false)] /\ sys_open sys path <> 0
                   \/ opened calls = [(path, true)]
                      /\ sys_open_readonly sys path <> 0))
    /\ (creates_socket calls = true ->
          closes_database calls = false
          /\ exists path, operands = [path]
               /\ (opened calls = [(path, false)] /\ sys_open sys path = 0
                   \/ opened calls = [(path, true)]
                      /\ sys_open_readonly sys path = 0))).
  { unfold calls, start.
    destruct (parse_options progname opts default_settings)
      as [out status|s] eqn:Hp.
    - destruct (parse_options_stop _ _ _ _ _ Hp) as (text & -> & _).
      cbn. repeat split; try discriminate; try lia. now exists status.
    - unfold open_database.
      destruct (open_socket_projections sys s) as (S1 & S2 & S3).
      destruct (open_socket sys s) as [calls' result].
      cbn [fst] in S1, S2, S3.
      destruct operands as [|path [|other operands]].
      + cbn. repeat split; try discriminate; try lia. now exists 1.
      + destruct (s_readonly s).
        * destruct (Z.eqb_spec (sys_open_readonly sys path) 0) as [E|E];
            cbn [negb fst snd]; rewrite ?opened_app, ?closes_database_app,
              ?creates_socket_app, ?S1, ?S2, ?S3.
          -- cbn. split; [intros H; now exfalso|]. split; [lia|].
             split; [discriminate|]. intros _. split; [reflexivity|].
             exists path. split; [reflexivity|right; now split].
          -- cbn. split; [intros H; now exfalso|]. split; [lia|].
             split; [|discriminate]. intros _. repeat split.
             exists path. split; [reflexivity|right; now split].
        * destruct (Z.eqb_spec (sys_open sys path) 0) as [E|E];
            cbn [negb fst snd]; rewrite ?opened_app, ?closes_database_app,
              ?creates_socket_app, ?S1, ?S2, ?S3.
          -- cbn. split; [intros H; now exfalso|]. split; [lia|].
             split; [discriminate|]. intros _. split; [reflexivity|].
             exists path. split; [reflexivity|left; now split].
          -- cbn. split; [intros H; now exfalso|]. split; [lia|].
             split; [|discriminate]. intros _. repeat split.
             exists path. split; [reflexivity|left; now split].
      + cbn. repeat split; try discriminate; try lia. now exists 1. }
  destruct Old as (A & B & C & D).
  exact (conj A (conj B (conj C (conj D
           (start_database sys progname opts operands))))).
Qed.

Lemma database_before_socket_example :
  let calls :=
    fst (start obliging (str "alfred") [] [str "a.db"; str "b.db"]) in
  opened calls = [] /\ creates_socket calls = false.
Proof. split; reflexivity. Qed.

(** [strtol] and [atoi] on what [%u] prints. *)
Lemma strtol_fmt_u (n : Z) : 0 <= n -> strtol (fmt_u n) = Z.min LONG_MAX n.
Proof.
  intros Hn. unfold strtol. rewrite (c_str_plain _ (fmt_u_plain n)).
  pose proof (read_digits_fmt_u n [] Hn I) as Hr. rewrite app_nil_r in Hr.
  destruct (fmt_u_nonempty n) as (c & rest & E & Hc).
  rewrite E in Hr |- *.
  destruct c as [[] [] [] [] [] [] [] []]; try discriminate Hc;
    match type of Hr with
    | read_digits 0 ?l = _ =>
        change (Z.min LONG_MAX (fst (read_digits 0 l)) = Z.min LONG_MAX n)
    end; now rewrite Hr.
Qed.

Lemma to_int_range (z : Z) : INT_MIN <= to_int z <= INT_MAX.
Proof.
  unfold to_int, INT_MIN, INT_MAX.
  pose proof (Z.mod_pos_bound (z + 2 ^ 31) (2 ^ 32) ltac:(lia)). lia.
Qed.

Lemma to_int_small (z : Z) : INT_MIN <= z <= INT_MAX -> to_int z = z.
Proof.
  unfold to_int, INT_MIN, INT_MAX. intros H.
  rewrite Z.mod_small by lia. lia.
Qed.

Lemma to_int_multiple (k : Z) : to_int (k * 2 ^ 32) = 0.
Proof.
  unfold to_int. rewrite Z.add_comm, Z_mod_plus_full.
  reflexivity.
Qed.

Lemma atoi_range (nptr : bytes) : INT_MIN <= atoi nptr <= INT_MAX.
Proof. apply to_int_range. Qed.

Lemma atoi_fmt_u (n : Z) : 0 <= n <= LONG_MAX -> atoi (fmt_u n) = to_int n.
Proof.
  intros Hn. unfold atoi. rewrite strtol_fmt_u by lia.
  now rewrite Z.min_r by lia.
Qed.

Lemma parse_options_port (progname : bytes) (opts : list (ascii * bytes))
    (s s' : settings) :
  parse_options progname opts s = Go s' ->
  s_port s' = s_port s
  \/ exists arg, In ("p"%char, arg) opts /\ s_port s' = atoi arg
                 /\ atoi arg <> 0.
Proof.
  revert s. induction opts as [|[c optarg] opts IH]; intros s H.
  - injection H as <-. now left.
  - cbn [parse_options] in H.
    assert (Hrec : forall s0, s_port s0 = s_port s ->
              parse_options progname opts s0 = Go s' ->
              s_port s' = s_port s
              \/ exists arg, In ("p"%char, arg) ((c, optarg) :: opts)
                             /\ s_port s' = atoi arg /\ atoi arg <> 0).
    { intros s0 E H0. destruct (IH s0 H0) as [->|(arg & Hin & Hp)].
      - now left.
      - right. exists arg. split; [now right|exact Hp]. }
    destruct (Ascii.eqb c "h"); [discriminate H|].
    destruct (Ascii.eqb c "n"); [eapply Hrec; [|exact H]; reflexivity|].
    destruct (Ascii.eqb c "p") eqn:Ep.
    { apply Ascii.eqb_eq in Ep. subst c.
      destruct (Z.eqb_spec (atoi optarg) 0) as [E|E]; [discriminate H|].
      destruct (IH _ H) as [->|(arg & Hin & Hp)]; right.
      - exists optarg. split; [now left|now split].
      - exists arg. split; [now right|exact Hp]. }
    destruct (Ascii.eqb c "r"); [eapply Hrec; [|exact H]; reflexivity|].
    destruct (Ascii.eqb c "v"); [eapply Hrec; [|exact H]; reflexivity|].
    discriminate H.
Qed.

(** The trace of a start-up that reaches the event loop. *)
Lemma start_listening (sys : system) (progname : bytes)
    (opts : list (ascii * bytes)) (operands : list bytes) (s : settings)
    (sockfd : Z) :
  snd (start sys progname opts operands) = Listening s sockfd ->
  exists path,
    operands = [path]
    /\ parse_options progname opts default_settings = Go s
    /\ sockfd = sys_socket sys
    /\ fst (start sys progname opts operands)
       = (if s_readonly s then SysOpenReadonly path else SysOpen path)
           :: [SysSocket; SysSetsockopt sockfd;
               SysBind sockfd (htons_port (s_port s));
               SysListen sockfd DEFAULT_LISTEN_QUEUE_SIZE]
           ++ SysSignal SIGTERM
           :: (if sys_sigterm_fails sys then [] else [SysSignal SIGINT])
           ++ (if sys_sigterm_fails sys || sys_sigint_fails sys then
                 if s_verbose s then
                   [SysStdout
                      (str "Warning: cannot establish signal handler. "
                         ++ str "Ctrl+C will not exit cleanly." ++ [LF])]
                 else []
               else []).
Proof.
  unfold start.
  destruct (parse_options progname opts default_settings)
    as [out status|s0] eqn:Hp; [discriminate|].
  unfold open_database.
  destruct operands as [|path [|other operands]];
    [discriminate| |discriminate].
  unfold open_socket.
  destruct (s_readonly s0) eqn:Hr;
    match goal with
    | |- context [negb (?x =? 0)] => destruct (negb (x =? 0))
    end; try discriminate;
    (destruct (sys_socket sys <? 0); [discriminate|]);
    (destruct (sys_setsockopt sys =? -1); [discriminate|]);
    (destruct (sys_bind sys _ <? 0); [discriminate|]);
    (destruct (negb (sys_listen sys =? 0)); [discriminate|]);
    cbn [fst snd]; intros H; injection H as <- <-;
    exists path; rewrite Hr; repeat split.
Qed.

(** X4.  The port.  When [main] reaches the event loop, [port] is an
    [int] other than 0: the default, 3876, or the [atoi] of the argument of
    a [-p]; and the socket is bound, once, to [port] modulo 65536, since
    [htons] takes 16 bits.  So [-p] takes any text that starts with a
    number whose low 32 bits are not all 0, be it negative or above 65535,
    and a multiple of 65536 that is not one of 2^32 gets past the test for
    0 and binds port 0.  A [-p] with the decimal text of a number from 1 to
    [INT_MAX] sets that port; one whose argument [atoi] turns into 0 -- the
    text of 0 or of a multiple of 2^32, for one -- ends the process with
    ["Invalid port specified."] and status 1. *)
Theorem port_handling (sys : system) (progname : bytes)
    (opts : list (ascii * bytes)) (operands : list bytes) (s : settings)
    (sockfd : Z) :
  snd (start sys progname opts operands) = Listening s sockfd ->
  s_port s <> 0
  /\ INT_MIN <= s_port s <= INT_MAX
  /\ (s_port s = DEFAULT_PORT
      \/ exists arg, In ("p"%char, arg) opts /\ s_port s = atoi arg)
  /\ bound (fst (start sys progname opts operands))
     = [s_port s mod 65536]
  /\ (forall n, 0 <= n <= LONG_MAX -> atoi (fmt_u n) = to_int n)
  /\ (forall n, 0 < n <= INT_MAX ->
         parse_options progname [("p"%char, fmt_u n)] default_settings
         = Go (mk_settings false true n false))
  /\ (forall k, 0 <= k < 2 ^ 31 ->
         parse_options progname [("p"%char, fmt_u (k * 2 ^ 32))]
           default_settings
         = Stop [SysStderr (str "Invalid port specified." ++ [LF])] 1)
  /\ (forall arg rest s0, atoi arg = 0 ->
         parse_options progname (("p"%char, arg) :: rest) s0
         = Stop [SysStderr (str "Invalid port specified." ++ [LF])] 1).
Proof.
  intros H.
  destruct (start_listening _ _ _ _ _ _ H) as (path & -> & Hp & -> & ->).
  assert (Hport : s_port s <> 0
                  /\ INT_MIN <= s_port s <= INT_MAX
                  /\ (s_port s = DEFAULT_PORT
                      \/ exists arg, In ("p"%char, arg) opts
                                     /\ s_port s = atoi arg)).
  { destruct (parse_options_port _ _ _ _ Hp) as [E|(arg & Hin & E & Hz)].
    - rewrite E. split; [discriminate|]. split; [|now left].
      unfold INT_MIN, INT_MAX, default_settings, DEFAULT_PORT.
      cbn [s_port]. lia.
    - split; [congruence|]. split; [rewrite E; apply atoi_range|].
      right. now exists arg. }
  split; [apply Hport|]. split; [apply Hport|]. split; [apply Hport|].
  split; [|split; [|split; [|split]]].
  - unfold htons_port.
    now destruct (s_readonly s), (sys_sigterm_fails sys),
      (sys_sigint_fails sys), (s_verbose s).
  - apply atoi_fmt_u.
  - intros n Hn. cbn [parse_options].
    assert (E : atoi (fmt_u n) = n).
    { rewrite atoi_fmt_u by (unfold INT_MAX, LONG_MAX in *; lia).
      apply to_int_small. unfold INT_MIN. lia. }
    rewrite E. destruct (Z.eqb_spec n 0) as [Z0|_]; [lia|reflexivity].
  - intros k Hk. cbn [parse_options].
    rewrite atoi_fmt_u by (unfold LONG_MAX; lia).
    now rewrite to_int_multiple.
  - intros arg rest s1 E. cbn [parse_options]. now rewrite E.
Qed.

Lemma port_handling_witness :
  bound (fst (start obliging (str "alfred") [("p"%char, str "65536")]
                [str "test.db"]))
  = [0].
Proof.
  refine (proj1 (proj2 (proj2 (proj2
            (port_handling obliging (str "alfred")
               [("p"%char, str "65536")] [str "test.db"]
               (mk_settings false true 65536 false) 3 _))))).
  reflexivity.
Defined.

(** X5.  The signal handlers.  [main] installs the handler for SIGTERM
    first, and the one for SIGINT only if that succeeded; a failure is not
    fatal and is reported under [-v] only: whether and how start-up ends
    does not depend on what [signal] returns. *)
Theorem signal_handlers (sys : system) (progname : bytes)
    (opts : list (ascii * bytes)) (operands : list bytes) :
  match start sys progname opts operands with
  | (calls, Listening s _) =>
      signals calls
      = SIGTERM :: (if sys_sigterm_fails sys then [] else [SIGINT])
      /\ (In (SysStdout
                (str "Warning: cannot establish signal handler. "
                   ++ str "Ctrl+C will not exit cleanly." ++ [LF])) calls
          <-> (sys_sigterm_fails sys || sys_sigint_fails sys) && s_verbose s
              = true)
  | (calls, Exited _) => signals calls = []
  end
  /\ (forall term int,
         snd (start
                (mk_system (sys_open sys) (sys_open_readonly sys)
                   (sys_socket sys) (sys_setsockopt sys) (sys_bind sys)
                   (sys_listen sys) term int)
                progname opts operands)
         = snd (start sys progname opts operands)).
Proof.
  split.
  - unfold start.
    destruct (parse_options progname opts default_settings)
      as [out status|s] eqn:Hp.
    { destruct (parse_options_stop _ _ _ _ _ Hp) as (text & -> & _).
      reflexivity. }
    unfold open_database.
    destruct operands as [|path [|other operands]];
      [reflexivity| |reflexivity].
    destruct (s_readonly s);
      match goal with
      | |- context [negb ?b] => destruct (negb b)
      end; try reflexivity;
      unfold open_socket;
      (destruct (sys_socket sys <? 0); [reflexivity|]);
      (destruct (sys_setsockopt sys =? -1); [reflexivity|]);
      (destruct (sys_bind sys _ <? 0); [reflexivity|]);
      (destruct (negb (sys_listen sys =? 0)); [reflexivity|]);
      destruct (sys_sigterm_fails sys), (sys_sigint_fails sys),
        (s_verbose s); cbn;
      (split; [reflexivity|]); split; intros H;
      try discriminate H; try (now auto 10);
      repeat (destruct H as [H|H]; try discriminate H); try contradiction.
  - intros term int. unfold start.
    destruct (parse_options progname opts default_settings)
      as [out status|s]; [reflexivity|].
    unfold open_database.
    destruct operands as [|path [|other operands]];
      [reflexivity| |reflexivity].
    cbn [sys_open sys_open_readonly].
    destruct (s_readonly s);
      match goal with
      | |- context [negb ?b] => destruct (negb b)
      end; try reflexivity;
      unfold open_socket; cbn [sys_socket sys_setsockopt sys_bind sys_listen];
      (destruct (sys_socket sys <? 0); [reflexivity|]);
      (destruct (sys_setsockopt sys =? -1); [reflexivity|]);
      (destruct (sys_bind sys _ <? 0); [reflexivity|]);
      (destruct (negb (sys_listen sys =? 0)); reflexivity).
Qed.

(** ** The accept loop and [quit] *)


Section Descriptors.
Context {DB : Type}.
Variable sqlite3_exec : DB -> bytes -> exec_result DB.
Variable w : nat -> Z -> bytes -> Z.
Variables verbose prompt : bool.
Variable junk : ascii.









End Descriptors.






(** * Beyond the protocol description: the event loop on any input *)

(** ** Answers *)

Section Answers.
Context {DB : Type}.
Variable sqlite3_exec : DB -> bytes -> exec_result DB.
Variable w : nat -> Z -> bytes -> Z.
Variables verbose prompt : bool.
Variable junk : ascii.

Local Abbreviation read_loop' :=
  (read_loop sqlite3_exec w verbose prompt junk).
Local Abbreviation dispatch' := (dispatch sqlite3_exec w verbose prompt junk).
Local Abbreviation serve' := (serve sqlite3_exec w verbose prompt junk).
Local Abbreviation event_loop' :=
  (event_loop sqlite3_exec w verbose prompt junk).






End Answers.



(** ** Descriptors *)


(** ** The block of [callback] *)

Lemma strlen_length (s : bytes) : strlen s = Z.of_nat (length (c_str s)).
Proof. reflexivity. Qed.

(** X10.  The block [callback] allocates for a column has exactly the
    size of what [sprintf] stores into it, the terminating NUL included:
    the store fills the block and goes nowhere past its end, and nothing
    of the previous column (whose block [xrealloc] resizes) is left in it.
    The block handed to [transmit], and on to the next iteration, is that
    text. *)
Theorem callback_allocation_exact (junk : ascii) (data column_i : bytes)
    (argv_i : option bytes) :
  Z.of_nat (length (callback_sprintf column_i argv_i))
  = callback_size column_i argv_i
  /\ store (xrealloc junk data (callback_size column_i argv_i)) 0
       (callback_sprintf column_i argv_i)
     = callback_sprintf column_i argv_i
  /\ (forall (DB : Type) (w : nat -> Z -> bytes -> Z) (verbose : bool)
             (arg : Z) (rest : row) (st : state DB),
         callback_loop w verbose junk arg ((column_i, argv_i) :: rest) data
           st
         = let block := callback_sprintf column_i argv_i in
           let '(_, ev, st1) :=
             transmit w verbose junk (wrap32 arg) DATA block st in
           let '(evs, st2) :=
             callback_loop w verbose junk arg rest block st1 in
           (ev ++ evs, st2)).
Proof.
  assert (L : Z.of_nat (length (callback_sprintf column_i argv_i))
              = callback_size column_i argv_i).
  { unfold callback_sprintf, callback_size.
    rewrite !length_app, !strlen_length.
    change (c_str (str " = ")) with (str " = ").
    change (length (str " = ")) with 3%nat.
    destruct argv_i as [v|];
      [|change (c_str (str "NULL")) with (str "NULL");
        change (length (str "NULL")) with 4%nat];
      unfold strlen; cbn [length]; lia. }
  assert (S : store (xrealloc junk data (callback_size column_i argv_i)) 0
                (callback_sprintf column_i argv_i)
              = callback_sprintf column_i argv_i).
  { rewrite store_tail; [reflexivity|lia|].
    rewrite xrealloc_length, <- L. cbn. lia. }
  split; [exact L|]. split; [exact S|].
  intros DB w verbose arg rest st.
  cbn [callback_loop]. cbv zeta.
  change (strlen column_i + strlen (str " = ")
          + match argv_i with
            | Some v => strlen v
            | None => strlen (str "NULL")
            end + 1)
    with (callback_size column_i argv_i).
  change (c_str column_i ++ str " = "
            ++ c_str match argv_i with
                     | Some v => v
                     | None => str "NULL"
                     end ++ [NUL])
    with (callback_sprintf column_i argv_i).
  rewrite S. reflexivity.
Qed.

(** ** A NUL among the characters read *)

Lemma last_repeat_NUL (n : nat) : last (repeat NUL n) NUL = NUL.
Proof.
  induction n as [|n IH]; [reflexivity|].
  cbn [repeat]. destruct n; [reflexivity|]. exact IH.
Qed.

(** [strncpy] stops at the NUL and fills up with NULs. *)
Lemma appended_NUL (chunk : bytes) :
  plain chunk = false ->
  last_char (appended chunk) = NUL
  /\ exists k, appended chunk = c_str chunk ++ NUL :: repeat NUL k.
Proof.
  unfold last_char, appended.
  induction chunk as [|c chunk IH]; [discriminate|].
  cbn [plain forallb length strncpy c_str]. intros H.
  destruct (Ascii.eqb c NUL) eqn:Ec.
  - split; [apply (last_repeat_NUL (S (length chunk)))|].
    exists (length chunk). reflexivity.
  - cbn [negb andb] in H. destruct (IH H) as (I1 & k & I2).
    split.
    + destruct (strncpy chunk (length chunk)) eqn:E.
      * destruct (c_str chunk); discriminate I2.
      * exact I1.
    + exists k. now rewrite I2.
Qed.

Lemma c_str_app (a b : bytes) :
  c_str (a ++ b) = if plain a then a ++ c_str b else c_str a.
Proof.
  induction a as [|c a IH]; [reflexivity|].
  cbn [app c_str plain forallb].
  destruct (Ascii.eqb c NUL); [reflexivity|].
  cbn [negb andb]. rewrite IH. fold (plain a). now destruct (plain a).
Qed.

Lemma c_str_cut (a chunk rest : bytes) :
  plain chunk = false ->
  c_str (a ++ appended chunk ++ rest) = c_str (a ++ chunk).
Proof.
  intros H. destruct (appended_NUL chunk H) as (_ & k & ->).
  rewrite (c_str_app a chunk), (c_str_app a).
  destruct (plain a); [|reflexivity].
  f_equal. rewrite <- app_assoc. cbn [app].
  rewrite c_str_terminated by apply plain_c_str.
  reflexivity.
Qed.

(** X11.  A read that holds a NUL completes no request, even when its last
    character is a newline: [strncpy] stops at the NUL and pads, so the
    last character appended is a NUL; nothing is executed or written and
    the counter stays.  The frame buffer has grown all the same, and the
    read that next ends with a newline triggers the dispatch of the buffer
    as a C string: the query is the text before the first NUL, what came
    after it -- the rest of that read and every later read -- is dropped
    without a word to the client. *)
Theorem NUL_cuts_the_request {DB : Type}
    (sqlite3_exec : DB -> bytes -> exec_result DB)
    (w : nat -> Z -> bytes -> Z) (verbose prompt : bool) (junk : ascii)
    (chunk next : bytes) (st : state DB) :
  buffer_ok st -> plain chunk = false ->
  next <> [] -> last_char (appended next) = LF ->
  let first := loop_body sqlite3_exec w verbose prompt junk chunk
                 (Z.of_nat (length chunk)) st in
  let both := read_loop sqlite3_exec w verbose prompt junk
                [ReadBytes chunk; ReadBytes next] st in
  fst first = [] /\ req (snd first) = req st
  /\ offload_buffer_sz (snd first)
     = offload_buffer_sz st + Z.of_nat (length chunk)
  /\ execs (fst both) = [(c_str (pending st ++ chunk), wrap32 (req st + 1))]
  /\ length (terminal_lines (fst both)) = 1%nat.
Proof.
  intros Hok Hnul Hnext Hlf first both.
  assert (Hne : chunk <> []) by (intros ->; discriminate Hnul).
  destruct (appended_NUL chunk Hnul) as (Hlast & _).
  pose proof (loop_body_eq sqlite3_exec w verbose prompt junk chunk st Hok
                Hne) as E1.
  cbv zeta in E1. rewrite Hlast in E1.
  change (Ascii.eqb NUL LF) with false in E1.
  pose proof (loop_body_buffer_ok sqlite3_exec w verbose prompt junk chunk st
                Hok Hne) as Hok1.
  fold first in E1, Hok1.
  assert (Hsz : offload_buffer_sz (snd first)
                = offload_buffer_sz st + Z.of_nat (length chunk)).
  { rewrite E1. cbn [snd offload_buffer_sz with_buffer].
    rewrite length_app, appended_length, Nat2Z.inj_add.
    now rewrite (pending_length st Hok). }
  assert (Hp : pending (snd first) = pending st ++ appended chunk).
  { rewrite E1. unfold pending at 1.
    cbn [snd offload_buffer_sz offload_buffer with_buffer].
    rewrite Nat2Z.id. apply firstn_all. }
  split; [now rewrite E1|]. split; [now rewrite E1|]. split; [exact Hsz|].
  unfold both.
  rewrite (read_loop_chunk sqlite3_exec w verbose prompt junk chunk _ st Hne).
  destruct first as [e1 st1] eqn:Ef. cbn [fst snd] in *.
  unfold first in Ef. rewrite Ef.
  assert (He1 : e1 = []) by (now injection E1).
  assert (Hreq : req st1 = req st) by (now injection E1 as _ ->).
  subst e1.
  rewrite (read_loop_chunk sqlite3_exec w verbose prompt junk next _ st1
             Hnext).
  rewrite (loop_body_eq sqlite3_exec w verbose prompt junk next st1 Hok1
             Hnext).
  cbv zeta. rewrite Hlf. change (Ascii.eqb LF LF) with true. cbv iota.
  pose proof (dispatch_execs sqlite3_exec w verbose prompt junk
                (pending st1 ++ appended next) st1) as Hx.
  pose proof (dispatch_terminal_lines sqlite3_exec w verbose prompt junk
                (pending st1 ++ appended next) st1) as Ht.
  destruct (dispatch sqlite3_exec w verbose prompt junk _ _ st1)
    as [e2 st2].
  cbn [fst snd read_loop app] in *.
  rewrite app_nil_r, Hx, Ht, Hp, Hreq, <- app_assoc.
  rewrite (c_str_cut (pending st) chunk (appended next) Hnul).
  split; reflexivity.
Qed.

Lemma NUL_cuts_the_request_witness :
  execs (fst (read_loop toy_exec write_all false true "?"%char
                [ReadBytes (str "SELECT 1;" ++ [NUL] ++ str "DROP" ++ [LF]);
                 ReadBytes (str "INSERT 2;" ++ [LF])]
                (startup 0%nat)))
  = [(str "SELECT 1;", 1)].
Proof.
  assert (Hok : buffer_ok (startup 0%nat)) by (unfold buffer_ok; cbn; lia).
  refine (proj1 (proj2 (proj2 (proj2
            (NUL_cuts_the_request toy_exec write_all false true "?"%char
               (str "SELECT 1;" ++ [NUL] ++ str "DROP" ++ [LF])
               (str "INSERT 2;" ++ [LF]) (startup 0%nat) Hok _ _ _))))).
  - reflexivity.
  - discriminate.
  - reflexivity.
Defined.

(** ** Verbosity *)

Lemma silenced_app (a b : list event) :
  silenced (a ++ b) = silenced a ++ silenced b.
Proof. apply filter_app. Qed.

Lemma silenced_cons (e : event) (evs : list event) :
  silenced (e :: evs)
  = match e with EvPrint _ => [] | _ => [e] end ++ silenced evs.
Proof. now destruct e. Qed.

Lemma silenced_dprintf (v : bool) (text : bytes) :
  silenced (dprintf v text) = [].
Proof. unfold dprintf. now destruct v. Qed.

Section Verbosity.
Context {DB : Type}.
Variable sqlite3_exec : DB -> bytes -> exec_result DB.
Variable w : nat -> Z -> bytes -> Z.
Variables verbose prompt : bool.
Variable junk : ascii.

(** A run under [verbose], with what it printed left out, is the run
    without [-v]. *)
Local Abbreviation hushed loud quiet :=
  (silenced (fst loud) = fst quiet /\ snd loud = snd quiet).

Lemma transmit_hushed (id : Z) (code : response) (data : bytes)
    (st : state DB) :
  silenced (snd (fst (transmit w verbose junk id code data st)))
  = snd (fst (transmit w false junk id code data st))
  /\ snd (transmit w verbose junk id code data st)
     = snd (transmit w false junk id code data st).
Proof.
  rewrite !transmit_eq. cbn [fst snd silenced filter].
  split; [|reflexivity].
  destruct (_ <? 0); [|reflexivity].
  f_equal. apply silenced_dprintf.
Qed.

Lemma SEND_PROMPT_silenced (st : state DB) :
  silenced (fst (SEND_PROMPT w prompt st)) = fst (SEND_PROMPT w prompt st).
Proof. unfold SEND_PROMPT. now destruct prompt. Qed.

Lemma callback_loop_hushed (arg : Z) (cells : row) (data : bytes)
    (st : state DB) :
  hushed (callback_loop w verbose junk arg cells data st)
         (callback_loop w false junk arg cells data st).
Proof.
  revert data st. induction cells as [|[column_i argv_i] rest IH];
    intros data st; [split; reflexivity|].
  cbn [callback_loop]. cbv zeta.
  set (block := store _ 0 _).
  destruct (transmit_hushed (wrap32 arg) DATA block st) as (A & S).
  destruct (transmit w verbose junk (wrap32 arg) DATA block st)
    as [[n1 e1] s1].
  destruct (transmit w false junk (wrap32 arg) DATA block st)
    as [[n2 e2] s2].
  cbn [fst snd] in *. subst s2.
  specialize (IH block s1).
  destruct (callback_loop w verbose junk arg rest block s1) as [e1' s1'].
  destruct (callback_loop w false junk arg rest block s1) as [e2' s2'].
  cbn [fst snd] in *. destruct IH as (IH1 & IH2).
  rewrite silenced_app, A, IH1, IH2. split; reflexivity.
Qed.

Lemma deliver_hushed (arg : Z) (rows : list row) (st : state DB) :
  hushed (deliver w verbose junk arg rows st)
         (deliver w false junk arg rows st).
Proof.
  revert st. induction rows as [|r rest IH]; intros st; [split; reflexivity|].
  cbn [deliver]. unfold callback.
  destruct (callback_loop_hushed arg r [] st) as (C1 & C2).
  destruct (callback_loop w verbose junk arg r [] st) as [e1 s1].
  destruct (callback_loop w false junk arg r [] st) as [e2 s2].
  cbn [fst snd] in *. subst s2.
  specialize (IH s1).
  destruct (deliver w verbose junk arg rest s1) as [e1' s1'].
  destruct (deliver w false junk arg rest s1) as [e2' s2'].
  cbn [fst snd] in *. destruct IH as (IH1 & IH2).
  rewrite silenced_app, C1, IH1, IH2. split; reflexivity.
Qed.

Lemma dispatch_hushed (block : bytes) (n : Z) (st : state DB) :
  hushed (dispatch sqlite3_exec w verbose prompt junk block n st)
         (dispatch sqlite3_exec w false prompt junk block n st).
Proof.
  unfold dispatch, exec. cbv zeta.
  set (blk := store _ n [NUL]).
  set (st0 := with_req _ _).
  set (r := sqlite3_exec (db st0) (c_str blk)).
  destruct (deliver_hushed (req st0) (delivered r) st0) as (D1 & D2).
  destruct (deliver w verbose junk (req st0) (delivered r) st0) as [e1 s1].
  destruct (deliver w false junk (req st0) (delivered r) st0) as [e2 s2].
  cbn [fst snd] in D1, D2. subst s2.
  set (s := with_db s1 (next_db r)).
  destruct (negb (rc r =? SQLITE_OK)).
  - destruct (transmit_hushed (req s) ERR (errmsg r) s) as (A & S).
    destruct (transmit w verbose junk (req s) ERR (errmsg r) s)
      as [[n1 t1] u1].
    destruct (transmit w false junk (req s) ERR (errmsg r) s)
      as [[n2 t2] u2].
    cbn [fst snd] in *. subst u2.
    pose proof (SEND_PROMPT_silenced
                  (with_buffer u1 (offload_buffer u1) 0)) as P.
    destruct (SEND_PROMPT w prompt _) as [p1 v1].
    cbn [fst snd] in *.
    split; [|reflexivity].
    repeat rewrite ?silenced_app, ?silenced_cons, ?silenced_dprintf.
    rewrite D1, A, P. reflexivity.
  - destruct (transmit_hushed (req s) OK (str "") s) as (A & S).
    destruct (transmit w verbose junk (req s) OK (str "") s)
      as [[n1 t1] u1].
    destruct (transmit w false junk (req s) OK (str "") s)
      as [[n2 t2] u2].
    cbn [fst snd] in *. subst u2.
    pose proof (SEND_PROMPT_silenced
                  (with_buffer u1 (offload_buffer u1) 0)) as P.
    destruct (SEND_PROMPT w prompt _) as [p1 v1].
    cbn [fst snd] in *.
    split; [|reflexivity].
    repeat rewrite ?silenced_app, ?silenced_cons, ?silenced_dprintf.
    rewrite D1, A, P. reflexivity.
Qed.

Lemma read_loop_hushed (reads : list read_result) (st : state DB) :
  hushed (read_loop sqlite3_exec w verbose prompt junk reads st)
         (read_loop sqlite3_exec w false prompt junk reads st).
Proof.
  revert st. induction reads as [|r reads IH]; intros st;
    [split; reflexivity|].
  cbn [read_loop]. destruct (read_sz r >? 0); [|split; reflexivity].
  assert (L : hushed
                (loop_body sqlite3_exec w verbose prompt junk
                   (read_buffer r) (read_sz r) st)
                (loop_body sqlite3_exec w false prompt junk
                   (read_buffer r) (read_sz r) st)).
  { unfold loop_body. cbv zeta.
    destruct (negb _); [split; reflexivity|apply dispatch_hushed]. }
  destruct L as (L1 & L2).
  destruct (loop_body sqlite3_exec w verbose _ _ _ _ st) as [e1 s1].
  destruct (loop_body sqlite3_exec w false _ _ _ _ st) as [e2 s2].
  cbn [fst snd] in *. subst s2. specialize (IH s1).
  destruct (read_loop sqlite3_exec w verbose _ _ reads s1) as [e1' s1'].
  destruct (read_loop sqlite3_exec w false _ _ reads s1) as [e2' s2'].
  cbn [fst snd] in *. destruct IH as (IH1 & IH2).
  rewrite silenced_app, L1, IH1, IH2. split; reflexivity.
Qed.

Lemma serve_hushed (c : connection) (st : state DB) :
  hushed (serve sqlite3_exec w verbose prompt junk c st)
         (serve sqlite3_exec w false prompt junk c st).
Proof.
  unfold serve. cbv zeta.
  set (st0 := with_buffer _ [] 0).
  pose proof (SEND_PROMPT_silenced st0) as P.
  destruct (SEND_PROMPT w prompt st0) as [p1 s1]. cbn [fst] in P.
  destruct (read_loop_hushed (conn_reads c) s1) as (R1 & R2).
  destruct (read_loop sqlite3_exec w verbose _ _ _ s1) as [e1 t1].
  destruct (read_loop sqlite3_exec w false _ _ _ s1) as [e2 t2].
  cbn [fst snd] in *. subst t2.
  rewrite !silenced_app, silenced_dprintf, P, R1. split; reflexivity.
Qed.

Lemma event_loop_hushed (conns : list connection) (st : state DB) :
  hushed (event_loop sqlite3_exec w verbose prompt junk conns st)
         (event_loop sqlite3_exec w false prompt junk conns st).
Proof.
  revert st. induction conns as [|c conns IH]; intros st;
    [split; reflexivity|].
  cbn [event_loop].
  destruct (serve_hushed c st) as (S1 & S2).
  destruct (serve sqlite3_exec w verbose _ _ c st) as [e1 s1].
  destruct (serve sqlite3_exec w false _ _ c st) as [e2 s2].
  cbn [fst snd] in *. subst s2. specialize (IH s1).
  destruct (event_loop sqlite3_exec w verbose _ _ conns s1) as [e1' s1'].
  destruct (event_loop sqlite3_exec w false _ _ conns s1) as [e2' s2'].
  cbn [fst snd] in *. destruct IH as (IH1 & IH2).
  rewrite silenced_app, S1, IH1, IH2. split; reflexivity.
Qed.

End Verbosity.

Lemma silenced_printed (evs : list event) : printed (silenced evs) = [].
Proof.
  induction evs as [|e evs IH]; [reflexivity|].
  destruct e; cbn [silenced filter printed]; exact IH.
Qed.

Lemma silenced_projections (evs : list event) :
  socket_writes (silenced evs) = socket_writes evs
  /\ execs (silenced evs) = execs evs
  /\ frees (silenced evs) = frees evs.
Proof.
  induction evs as [|e evs (I1 & I2 & I3)]; [repeat split|].
  destruct e; cbn [silenced filter socket_writes execs frees];
    fold (silenced evs); rewrite ?I1, ?I2, ?I3; repeat split; assumption.
Qed.

(** X12.  Verbosity is only logging.  A run with [-v] differs from the
    run without it by the lines printed on standard output and by nothing
    else: with those lines left out the two traces are the same -- the
    same writes with the same results, the same queries, the same
    [sqlite3_free]s and [close]s, in the same order -- and the two runs end
    in the same state.  Without [-v] nothing is printed. *)
Theorem verbosity_only_logs {DB : Type}
    (sqlite3_exec : DB -> bytes -> exec_result DB)
    (w : nat -> Z -> bytes -> Z) (prompt : bool) (junk : ascii)
    (db0 : DB) (conns : list connection) :
  let loud := alfred sqlite3_exec w true prompt junk db0 conns in
  let quiet := alfred sqlite3_exec w false prompt junk db0 conns in
  silenced (fst loud) = fst quiet
  /\ snd loud = snd quiet
  /\ printed (fst quiet) = []
  /\ socket_writes (fst loud) = socket_writes (fst quiet)
  /\ execs (fst loud) = execs (fst quiet).
Proof.
  intros loud quiet.
  destruct (event_loop_hushed sqlite3_exec w true prompt junk conns
              (startup db0)) as (A & S).
  change (silenced (fst loud) = fst quiet) in A.
  change (snd loud = snd quiet) in S.
  destruct (silenced_projections (fst loud)) as (P1 & P2 & _).
  split; [exact A|]. split; [exact S|].
  rewrite <- A. split; [apply silenced_printed|].
  split; [now rewrite P1|now rewrite P2].
Qed.

(** ** From the command line to the protocol *)









(** ** The frame buffer *)



Section Buffer.
Context {DB : Type}.
Variable sqlite3_exec : DB -> bytes -> exec_result DB.
Variable w : nat -> Z -> bytes -> Z.
Variables verbose prompt : bool.
Variable junk : ascii.


End Buffer.


